(** * Campaign scheduling and sequential delivery engine

    A shallow embedding of the bulk-sender server script (the Express /
    Socket.IO server with the Puppeteer URL sending strategy) and of the
    campaign queue of the dashboard script, with the properties of the
    delivery engine stated over it.

    Conventions.
    - JavaScript strings are [string]s whose characters stand for code
      units below 256; every literal of the scripts is ASCII.
    - A JavaScript [Map] is an insertion-ordered association list
      ([JsMap]): [checkStuckCampaigns] iterates [entries()] and the order
      of the events it emits is the insertion order.
    - An [async] function is cut at its [await]s of external promises
      (session calls, sleeps).  The code between two such points runs
      without interruption, and is one transition of the model. *)

From Stdlib Require Import ZArith NArith String Ascii Bool Lia DecimalString DecimalNat.
From stdpp Require Import base list.

Local Open Scope string_scope.
Local Open Scope nat_scope.

(** ** JavaScript string operations used by the scripts *)

Module JsString.

Definition code (c : ascii) : nat := nat_of_ascii c.

Definition between (lo hi : nat) (c : ascii) : bool :=
  (lo <=? code c) && (code c <=? hi).

(** [\d] *)
Definition is_digit (c : ascii) : bool := between 48 57 c.

(** [[a-zA-Z]] *)
Definition is_letter (c : ascii) : bool := between 97 122 c || between 65 90 c.

(** [\s] on code units below 256: TAB, LF, VT, FF, CR, SPACE, NBSP *)
Definition is_space (c : ascii) : bool :=
  between 9 13 c || (code c =? 32) || (code c =? 160).

(** [[+\-\s]] *)
Definition is_separator (c : ascii) : bool :=
  (code c =? 43) || (code c =? 45) || is_space c.

Fixpoint existsb_str (p : ascii -> bool) (s : string) : bool :=
  match s with
  | EmptyString => false
  | String c s' => p c || existsb_str p s'
  end.

Fixpoint forallb_str (p : ascii -> bool) (s : string) : bool :=
  match s with
  | EmptyString => true
  | String c s' => p c && forallb_str p s'
  end.

(** [s.replace(/[...]/g, '')]: drop every character matching [p] *)
Fixpoint remove_all (p : ascii -> bool) (s : string) : string :=
  match s with
  | EmptyString => EmptyString
  | String c s' => if p c then remove_all p s' else String c (remove_all p s')
  end.

(** [/^\d+$/.test(s)] *)
Definition all_digits (s : string) : bool :=
  match s with
  | EmptyString => false
  | _ => forallb_str is_digit s
  end.

(** [s.startsWith(p)] *)
Definition startsWith (s p : string) : bool := String.prefix p s.

(** [s.substring(1)] *)
Definition substring1 (s : string) : string :=
  match s with
  | EmptyString => EmptyString
  | String _ s' => s'
  end.

(** [s.includes(p)] *)
Fixpoint includes (s p : string) : bool :=
  String.prefix p s ||
  match s with
  | EmptyString => false
  | String _ s' => includes s' p
  end.

Definition lower (c : ascii) : ascii :=
  if between 65 90 c then ascii_of_nat (code c + 32) else c.

(** [s.toLowerCase()] on ASCII letters *)
Fixpoint toLowerCase (s : string) : string :=
  match s with
  | EmptyString => EmptyString
  | String c s' => String (lower c) (toLowerCase s')
  end.

(** [s.split('\n')] *)
Fixpoint split_lines (s : string) : list string :=
  match s with
  | EmptyString => [EmptyString]
  | String c s' =>
      if code c =? 10 then EmptyString :: split_lines s'
      else match split_lines s' with
           | line :: lines => String c line :: lines
           | [] => [String c EmptyString]
           end
  end.

Fixpoint trimStart (s : string) : string :=
  match s with
  | EmptyString => EmptyString
  | String c s' => if is_space c then trimStart s' else s
  end.

Fixpoint trimEnd (s : string) : string :=
  match s with
  | EmptyString => EmptyString
  | String c s' =>
      match trimEnd s' with
      | EmptyString => if is_space c then EmptyString else String c EmptyString
      | r => String c r
      end
  end.

(** [s.trim()] *)
Definition trim (s : string) : string := trimEnd (trimStart s).

(** JavaScript truthiness of a string-or-null value *)
Definition truthy (o : option string) : bool :=
  match o with
  | Some s => negb (String.eqb s "")
  | None => false
  end.

End JsString.

Import JsString.

(** ** Recipient validator and failure classifier (server script) *)

(** [validateAndFormatPhoneNumber(phoneNumber, rowIndex)]; [None] is [null] *)
Definition validateAndFormatPhoneNumber (phoneNumber : string) (rowIndex : nat)
  : option string :=
  if (rowIndex =? 0) && existsb_str is_letter phoneNumber
     && negb (all_digits (remove_all is_separator phoneNumber))
  then None
  else
    let cleanNumber := remove_all is_separator phoneNumber in
    if negb (all_digits cleanNumber) then None
    else if String.length cleanNumber <? 10 then None
    else if startsWith phoneNumber "91" && (String.length phoneNumber =? 12)
    then Some (phoneNumber ++ "@c.us")
    else if startsWith phoneNumber "+91"
    then Some (substring1 phoneNumber ++ "@c.us")
    else if String.length phoneNumber =? 10
    then Some ("91" ++ phoneNumber ++ "@c.us")
    else Some (phoneNumber ++ "@c.us").

Definition unavailablePatterns : list string :=
  [ "waiting for selector"; "timeout"; "navigation timeout"; "networkidle2";
    "element not found"; "selector not found"; "page not found";
    "invalid number"; "number not found"; "failed: waiting failed";
    "exceeded"; "not available"; "unavailable"; "invalid phone number";
    "phone number not found" ].

(** [isNumberUnavailableError(error)], on the error's message *)
Definition isNumberUnavailableError (errorMessage0 : string) : bool :=
  let errorMessage := toLowerCase errorMessage0 in
  let isTimeoutError :=
    includes errorMessage "timeout"
    && (includes errorMessage "30000ms" || includes errorMessage "15000ms") in
  existsb (fun pattern => includes errorMessage pattern) unavailablePatterns
  || isTimeoutError.


(** A recipient as the validator returns it: what precedes [@c.us]
    is, apart from [+], [-] and white space, a run of at least ten
    digits *)
Definition wf_recipient (r : string) : Prop :=
  exists local,
    r = local ++ "@c.us"
    /\ all_digits (remove_all is_separator local) = true
    /\ 10 <= String.length (remove_all is_separator local).


(** ** Insertion-ordered maps ([new Map()]) *)

Module JsMap.

Definition t (V : Type) : Type := list (string * V).

Section Ops.
Context {V : Type}.

(** [m.get(k)]; [None] is [undefined] *)
Fixpoint get (k : string) (m : t V) : option V :=
  match m with
  | [] => None
  | (k', v) :: m' => if String.eqb k k' then Some v else get k m'
  end.

(** [m.set(k, v)]: an existing key keeps its position *)
Fixpoint set (k : string) (v : V) (m : t V) : t V :=
  match m with
  | [] => [(k, v)]
  | (k', v') :: m' =>
      if String.eqb k k' then (k', v) :: m' else (k', v') :: set k v m'
  end.

(** [m.delete(k)] *)
Fixpoint delete (k : string) (m : t V) : t V :=
  match m with
  | [] => []
  | (k', v') :: m' =>
      if String.eqb k k' then delete k m' else (k', v') :: delete k m'
  end.

(** In-place mutation of the object stored under [k], when there is one *)
Definition update (k : string) (f : V -> V) (m : t V) : t V :=
  match get k m with
  | Some v => set k (f v) m
  | None => m
  end.
End Ops.

End JsMap.

(** ** Server state *)

Module Server.

(** A [MessageMedia] built from an upload; the loop reads its [path] *)
Record Media := mkMedia { media_path : option string; media_filename : string }.

(** The campaign state object stored by [/api/upload-and-send] *)
Record Campaign := mkCampaign {
  campaignId : string;
  phoneNumbers : list string;
  message : string;
  mediaFile : option Media;
  fileType : string;
  delayRange : string;
  currentIndex : nat;
  sentCount : nat;
  failedCount : nat;
  isPaused : bool;
  createdAt : Z;
  startedAt : Z;
  pausedAt : option Z;
  resumedAt : option Z;
  lastActivity : Z
}.

Definition with_currentIndex (n : nat) (c : Campaign) : Campaign :=
  mkCampaign (campaignId c) (phoneNumbers c) (message c) (mediaFile c)
    (fileType c) (delayRange c) n (sentCount c) (failedCount c) (isPaused c)
    (createdAt c) (startedAt c) (pausedAt c) (resumedAt c) (lastActivity c).

(** [campaignState.sentCount++; campaignState.lastActivity = new Date()] *)
Definition record_sent (now : Z) (c : Campaign) : Campaign :=
  mkCampaign (campaignId c) (phoneNumbers c) (message c) (mediaFile c)
    (fileType c) (delayRange c) (currentIndex c) (S (sentCount c))
    (failedCount c) (isPaused c) (createdAt c) (startedAt c) (pausedAt c)
    (resumedAt c) now.

(** [campaignState.failedCount++; campaignState.lastActivity = new Date()] *)
Definition record_failed (now : Z) (c : Campaign) : Campaign :=
  mkCampaign (campaignId c) (phoneNumbers c) (message c) (mediaFile c)
    (fileType c) (delayRange c) (currentIndex c) (sentCount c)
    (S (failedCount c)) (isPaused c) (createdAt c) (startedAt c) (pausedAt c)
    (resumedAt c) now.

(** [isPaused = true; pausedAt = new Date()] *)
Definition mark_paused (now : Z) (c : Campaign) : Campaign :=
  mkCampaign (campaignId c) (phoneNumbers c) (message c) (mediaFile c)
    (fileType c) (delayRange c) (currentIndex c) (sentCount c)
    (failedCount c) true (createdAt c) (startedAt c) (Some now)
    (resumedAt c) (lastActivity c).

(** [isPaused = false; resumedAt = new Date(); lastActivity = new Date()] *)
Definition mark_resumed (now : Z) (c : Campaign) : Campaign :=
  mkCampaign (campaignId c) (phoneNumbers c) (message c) (mediaFile c)
    (fileType c) (delayRange c) (currentIndex c) (sentCount c)
    (failedCount c) false (createdAt c) (startedAt c) (pausedAt c)
    (Some now) now.

(** [campaignState.lastActivity = new Date()] *)
Definition touch (now : Z) (c : Campaign) : Campaign :=
  mkCampaign (campaignId c) (phoneNumbers c) (message c) (mediaFile c)
    (fileType c) (delayRange c) (currentIndex c) (sentCount c)
    (failedCount c) (isPaused c) (createdAt c) (startedAt c) (pausedAt c)
    (resumedAt c) now.

(** What the script reads of the session object: whether [pupBrowser] is
    set, and whether [pupPage] is set and not closed *)
Record Client := mkClient { pupBrowser : bool; pupPage : bool }.

(** Entries of the loop's [results] array *)
Record Result := mkResult {
  r_number : string; r_status : string; r_error : option string }.

(** The value [sendMessagesSequentially] resolves to *)
Record Summary := mkSummary {
  successCount : nat; failureCount : nat; results : list Result }.

(** Payloads of [io.emit].  The random [duration] of a [human_behavior]
    event is not recorded. *)
Inductive Event :=
| bulk_send_start (total : nat) (cid : option string) (progress : option (nat * nat * nat))
| human_behavior (number action : string) (progress total : nat) (cid : option string)
| message_sent (number status : string) (error : option string)
    (progress total : nat) (cid : option string)
| bulk_send_complete (total success failed : nat)
    (breakdown : option (nat * nat * nat)) (cid : option string)
| campaign_stuck (cid : string) (timeSinceStart timeSinceLastActivity : Z)
| status (authenticated ready : bool) (msg : string)
| ready_event
| disconnected_event (reason : string).

(** Bodies of HTTP responses *)
Inductive Body :=
| body_error (error : string)
| body_campaign (msg : string) (currentIndex totalMessages sentCount failedCount : nat)
| body_upload (total successful failed : nat).

(** Everything the server does to the outside, in order *)
Inductive Output :=
| Emit (e : Event)
| Respond (code : nat) (b : Body)
(** [sendMessageWithPuppeteer(phoneNumber, ...)] called by loop [job] for
    the recipient at loop index [i], as attempt number [attempt] *)
| SendCall (job : nat) (cid : option string) (i : nat) (number : string) (attempt : nat)
| Unlink (path : string).

(** Call sites of [validateConnection] inside the loop *)
Inductive Site := BeforeSend | BeforeRetry.

(** Who awaits the loop's promise: [continueCampaign], or the upload
    handler, which still has the count of recipients to report and the
    uploaded media file, if any, to delete *)
Inductive Caller :=
| FromContinueCampaign
| FromUploadHandler (total : nat) (uploaded : option string).

(** Suspension points of a running [sendMessagesSequentially]: the
    [await]s of [client.getState()] and [client.destroy()] reached through
    [validateConnection], of the two sleeps before a send and before a
    retry, of [sendMessageWithPuppeteer], of the pacing sleep (together
    with the presence call before it, whose outcome is ignored and after
    which no shared state is read), and of [pupBrowser.close()] reached
    through [closeChromeBrowser], by the loop or by the upload handler
    that awaited the loop.  [Returned None] is the bare [return] of the
    pause check. *)
Inductive Pc :=
| AwaitGetState (site : Site)
| AwaitDestroy (site : Site) (err : string)
| AwaitPreDelay
| AwaitSend
| AwaitRetryDelay
| AwaitHumanDelay
| AwaitCloseBrowser (s : Summary)
| AwaitHandlerClose (total : nat) (s : Summary)
| Returned (r : option Summary).

(** Parameters and locals of one call of [sendMessagesSequentially] *)
Record Task := mkTask {
  t_phoneNumbers : list string;
  t_message : string;
  t_campaignId : option string;
  t_startIndex : nat;
  t_delayRange : string;
  t_mediaFile : option Media;
  t_caller : Caller;
  t_results : list Result;
  t_successCount : nat;
  t_failureCount : nat;
  t_i : nat;
  t_sendAttempts : nat;
  t_pc : Pc
}.

Definition with_pc (pc : Pc) (t : Task) : Task :=
  mkTask (t_phoneNumbers t) (t_message t) (t_campaignId t) (t_startIndex t)
    (t_delayRange t) (t_mediaFile t) (t_caller t) (t_results t)
    (t_successCount t) (t_failureCount t) (t_i t) (t_sendAttempts t) pc.

Definition with_sendAttempts (n : nat) (t : Task) : Task :=
  mkTask (t_phoneNumbers t) (t_message t) (t_campaignId t) (t_startIndex t)
    (t_delayRange t) (t_mediaFile t) (t_caller t) (t_results t)
    (t_successCount t) (t_failureCount t) (t_i t) n (t_pc t).

(** [i++] at the end of an iteration *)
Definition next_i (t : Task) : Task :=
  mkTask (t_phoneNumbers t) (t_message t) (t_campaignId t) (t_startIndex t)
    (t_delayRange t) (t_mediaFile t) (t_caller t) (t_results t)
    (t_successCount t) (t_failureCount t) (S (t_i t)) (t_sendAttempts t) (t_pc t).

(** [results.push(r); successCount++] *)
Definition push_sent (r : Result) (t : Task) : Task :=
  mkTask (t_phoneNumbers t) (t_message t) (t_campaignId t) (t_startIndex t)
    (t_delayRange t) (t_mediaFile t) (t_caller t) (t_results t ++ [r])
    (S (t_successCount t)) (t_failureCount t) (t_i t) (t_sendAttempts t) (t_pc t).

(** [results.push(r); failureCount++] *)
Definition push_failed (r : Result) (t : Task) : Task :=
  mkTask (t_phoneNumbers t) (t_message t) (t_campaignId t) (t_startIndex t)
    (t_delayRange t) (t_mediaFile t) (t_caller t) (t_results t ++ [r])
    (t_successCount t) (S (t_failureCount t)) (t_i t) (t_sendAttempts t) (t_pc t).

(** Suspension points of the interval callbacks *)
Inductive MonitorPc :=
| KeepAliveGetState
| KeepAliveDestroy
| HealthGetState
| HealthDestroy
| MonitorDone.

Inductive Job :=
| Loop (t : Task)
| Monitor (pc : MonitorPc).

(** Callbacks registered with [setTimeout] *)
Inductive TimerAction :=
| TContinueCampaign (id : string)
| TInitialize
| TReinitialize.

Record State := mkState {
  client : option Client;
  isClientReady : bool;
  isClientAuthenticated : bool;
  isInitializing : bool;
  activeCampaigns : JsMap.t Campaign;
  pausedCampaigns : JsMap.t Campaign;
  keepAliveInterval : bool;
  connectionHealthCheckInterval : bool;
  campaignHealthInterval : bool;
  lastSuccessfulConnection : Z;
  connectionFailureCount : nat;
  now : Z;
  jobs : list Job;
  timers : list (option TimerAction);
  out : list Output
}.

Definition MAX_CONNECTION_FAILURES : nat := 3.


(** *** Field updates *)

Definition set_session (c : option Client) (r a : bool) (st : State) : State :=
  mkState c r a (isInitializing st) (activeCampaigns st) (pausedCampaigns st)
    (keepAliveInterval st) (connectionHealthCheckInterval st)
    (campaignHealthInterval st) (lastSuccessfulConnection st)
    (connectionFailureCount st) (now st) (jobs st) (timers st) (out st).

Definition set_initializing (b : bool) (st : State) : State :=
  mkState (client st) (isClientReady st) (isClientAuthenticated st) b
    (activeCampaigns st) (pausedCampaigns st)
    (keepAliveInterval st) (connectionHealthCheckInterval st)
    (campaignHealthInterval st) (lastSuccessfulConnection st)
    (connectionFailureCount st) (now st) (jobs st) (timers st) (out st).

Definition set_active (m : JsMap.t Campaign) (st : State) : State :=
  mkState (client st) (isClientReady st) (isClientAuthenticated st)
    (isInitializing st) m (pausedCampaigns st)
    (keepAliveInterval st) (connectionHealthCheckInterval st)
    (campaignHealthInterval st) (lastSuccessfulConnection st)
    (connectionFailureCount st) (now st) (jobs st) (timers st) (out st).

Definition set_paused (m : JsMap.t Campaign) (st : State) : State :=
  mkState (client st) (isClientReady st) (isClientAuthenticated st)
    (isInitializing st) (activeCampaigns st) m
    (keepAliveInterval st) (connectionHealthCheckInterval st)
    (campaignHealthInterval st) (lastSuccessfulConnection st)
    (connectionFailureCount st) (now st) (jobs st) (timers st) (out st).

(** The three [setInterval] handles, all started or all cleared *)
Definition set_intervals (b : bool) (st : State) : State :=
  mkState (client st) (isClientReady st) (isClientAuthenticated st)
    (isInitializing st) (activeCampaigns st) (pausedCampaigns st) b b b
    (lastSuccessfulConnection st) (connectionFailureCount st) (now st)
    (jobs st) (timers st) (out st).

(** [lastSuccessfulConnection = Date.now(); connectionFailureCount = 0] *)
Definition connection_ok (st : State) : State :=
  mkState (client st) (isClientReady st) (isClientAuthenticated st)
    (isInitializing st) (activeCampaigns st) (pausedCampaigns st)
    (keepAliveInterval st) (connectionHealthCheckInterval st)
    (campaignHealthInterval st) (now st) 0 (now st) (jobs st) (timers st)
    (out st).

Definition set_failures (n : nat) (st : State) : State :=
  mkState (client st) (isClientReady st) (isClientAuthenticated st)
    (isInitializing st) (activeCampaigns st) (pausedCampaigns st)
    (keepAliveInterval st) (connectionHealthCheckInterval st)
    (campaignHealthInterval st) (lastSuccessfulConnection st) n (now st)
    (jobs st) (timers st) (out st).

Definition set_now (t : Z) (st : State) : State :=
  mkState (client st) (isClientReady st) (isClientAuthenticated st)
    (isInitializing st) (activeCampaigns st) (pausedCampaigns st)
    (keepAliveInterval st) (connectionHealthCheckInterval st)
    (campaignHealthInterval st) (lastSuccessfulConnection st)
    (connectionFailureCount st) t (jobs st) (timers st) (out st).

Definition set_jobs (js : list Job) (st : State) : State :=
  mkState (client st) (isClientReady st) (isClientAuthenticated st)
    (isInitializing st) (activeCampaigns st) (pausedCampaigns st)
    (keepAliveInterval st) (connectionHealthCheckInterval st)
    (campaignHealthInterval st) (lastSuccessfulConnection st)
    (connectionFailureCount st) (now st) js (timers st) (out st).

Definition set_timers (ts : list (option TimerAction)) (st : State) : State :=
  mkState (client st) (isClientReady st) (isClientAuthenticated st)
    (isInitializing st) (activeCampaigns st) (pausedCampaigns st)
    (keepAliveInterval st) (connectionHealthCheckInterval st)
    (campaignHealthInterval st) (lastSuccessfulConnection st)
    (connectionFailureCount st) (now st) (jobs st) ts (out st).

Definition output (o : Output) (st : State) : State :=
  mkState (client st) (isClientReady st) (isClientAuthenticated st)
    (isInitializing st) (activeCampaigns st) (pausedCampaigns st)
    (keepAliveInterval st) (connectionHealthCheckInterval st)
    (campaignHealthInterval st) (lastSuccessfulConnection st)
    (connectionFailureCount st) (now st) (jobs st) (timers st)
    (out st ++ [o]).

(** [io.emit(...)] *)
Definition emit (e : Event) (st : State) : State := output (Emit e) st.

(** [res.status(code).json(body)] *)
Definition respond (code : nat) (b : Body) (st : State) : State :=
  output (Respond code b) st.

(** [setTimeout(callback, delay)]: the callback is queued; the scheduler
    ([FireTimer]) decides when it runs *)
Definition setTimeout (a : TimerAction) (st : State) : State :=
  set_timers (timers st ++ [Some a]) st.

(** The session is usable: [client && isClientReady && isClientAuthenticated] *)
Definition session_up (st : State) : bool :=
  match client st with
  | Some _ => isClientReady st && isClientAuthenticated st
  | None => false
  end.

Definition init : State :=
  mkState None false false false [] [] false false false 0%Z 0 0%Z [] [] [].

(** *** Session management *)

(** [initializeWhatsAppClient()]: guarded against re-entry; replaces the
    session object.  The session's own life cycle belongs to the
    library and reaches the script as events. *)
Definition initializeWhatsAppClient (st : State) : State :=
  if isInitializing st then st
  else set_session (Some (mkClient false false)) (isClientReady st)
         (isClientAuthenticated st) (set_initializing true st).

(** [forceReconnection()] up to [await client.destroy()] *)
Definition forceReconnection_begin (st : State) : State :=
  emit (status false false "Connection lost, reconnecting...")
    (set_failures 0 (set_session (client st) false false (set_intervals false st))).

(** [forceReconnection()] after the [await]: [client = null], then the
    re-initialisation is scheduled *)
Definition forceReconnection_end (st : State) : State :=
  setTimeout TInitialize
    (set_session None (isClientReady st) (isClientAuthenticated st) st).

(** [forceReconnection()] when [client] is already [null]: no [await] *)
Definition forceReconnection_noclient (st : State) : State :=
  setTimeout TInitialize st.

(** How far a call of [validateConnection()] gets *)
Inductive Validation :=
| VOk (st : State)
| VThrow (err : string) (st : State)
| VGetState (st : State)
| VDestroy (err : string) (st : State).

(** The [catch] block of [validateConnection] in strict mode *)
Definition validateConnection_catch (err : string) (st : State) : Validation :=
  let st1 := set_failures (S (connectionFailureCount st)) st in
  if MAX_CONNECTION_FAILURES <=? connectionFailureCount st1 then
    let st2 := forceReconnection_begin st1 in
    match client st2 with
    | Some _ => VDestroy err st2
    | None => VThrow err (forceReconnection_noclient st2)
    end
  else VThrow err st1.

(** [validateConnection()] up to [await client.getState()] *)
Definition validateConnection_begin (st : State) : Validation :=
  match client st with
  | None => VThrow "WhatsApp client is not initialized" st
  | Some c =>
      if negb (isClientReady st) || negb (isClientAuthenticated st)
      then VThrow "WhatsApp client is not ready or authenticated" st
      else if negb (pupPage c)
      then validateConnection_catch "Browser page is closed" st
      else VGetState st
  end.

(** Settlement of an external promise *)
Inductive Outcome := Resolved (v : string) | Rejected (msg : string).

(** [validateConnection()] once [client.getState()] has settled *)
Definition validateConnection_settle (o : Outcome) (st : State) : Validation :=
  match o with
  | Resolved state =>
      if String.eqb state "CONNECTED" then VOk (connection_ok st)
      else validateConnection_catch
             ("Client state is " ++ state ++ ", not CONNECTED") st
  | Rejected msg => validateConnection_catch msg st
  end.


(** *** The delivery loop, [sendMessagesSequentially] *)

Definition maxAttempts : nat := 3.

(** The campaign a loop works for: [if (campaignId)] *)
Definition campaign_of (t : Task) : option string :=
  if truthy (t_campaignId t) then t_campaignId t else None.

(** [phoneNumbers[i]] *)
Definition phoneNumber_of (t : Task) : string :=
  default "" (t_phoneNumbers t !! t_i t).

(** [progress: currentIndex + 1] and [total: phoneNumbers.length + startIndex] *)
Definition progress_of (t : Task) : nat := t_startIndex t + t_i t + 1.
Definition total_of (t : Task) : nat := length (t_phoneNumbers t) + t_startIndex t.

(** [const campaignState = activeCampaigns.get(campaignId);
     if (campaignState) { f(campaignState) }] *)
Definition with_campaign (t : Task) (f : Campaign -> Campaign) (st : State) : State :=
  match campaign_of t with
  | Some id => set_active (JsMap.update id f (activeCampaigns st)) st
  | None => st
  end.

(** The categories of the loop's [catch] block *)
Definition classify (err : string) : string * string :=
  if isNumberUnavailableError err
  then ("unavailable", "Number not available on WhatsApp")
  else if includes err "connection" || includes err "timeout"
  then ("connection", err)
  else ("failed", err).

(** The loop's [catch (error)] block, for the recipient at [i] *)
Definition catch_block (err : string) (t : Task) (st : State) : Task * State :=
  let '(errorCategory, errorMessage) := classify err in
  let t1 := push_failed (mkResult (phoneNumber_of t) errorCategory (Some errorMessage)) t in
  let st1 := with_campaign t (record_failed (now st)) st in
  (t1, emit (message_sent (phoneNumber_of t) errorCategory (Some errorMessage)
               (progress_of t) (total_of t) (t_campaignId t)) st1).

(** What [validateConnection] throws, as seen by the loop's [catch]: the
    retry site wraps it *)
Definition thrown_at (site : Site) (err : string) : string :=
  match site with
  | BeforeSend => err
  | BeforeRetry => "WhatsApp client connection lost during retry"
  end.

(** [closeChromeBrowser()] up to [await client.pupBrowser.close()]:
    [true] when it has to wait *)
Definition closeChromeBrowser_waits (st : State) : bool :=
  match client st with
  | Some c => pupBrowser c
  | None => false
  end.

(** [closeChromeBrowser()] after the [await]; a rejection, or a session
    object gone in the meantime, lands in its own [catch] *)
Definition closeChromeBrowser_end (o : Outcome) (st : State) : State :=
  match o, client st with
  | Resolved _, Some _ => set_session (Some (mkClient false false)) false false st
  | _, _ => st
  end.

(** [fs.unlinkSync(path)] of an uploaded file, if there is one *)
Definition unlink (path : option string) (st : State) : State :=
  match path with
  | Some p => output (Unlink p) st
  | None => st
  end.

(** The media file the upload handler that awaits the loop has to delete *)
Definition uploaded_media (t : Task) : option string :=
  match t_caller t with
  | FromContinueCampaign => None
  | FromUploadHandler _ uploaded => uploaded
  end.

(** The upload handler, resumed after [await sendMessagesSequentially]
    of a submission without campaign id: the uploaded media file is
    deleted and the response sent; its own counters are still 0 *)
Definition upload_finish (total : nat) (uploaded : option string) (st : State) : State :=
  respond 200 (body_upload total 0 0) (unlink uploaded st).

Definition upload_resume (total : nat) (s : Summary) (t : Task) (st : State)
  : Task * State :=
  let st1 := emit (bulk_send_complete total 0 0 None None) st in
  if closeChromeBrowser_waits st1
  then (with_pc (AwaitHandlerClose total s) t, st1)
  else (with_pc (Returned (Some s)) t, upload_finish total (uploaded_media t) st1).

(** [return { successCount, failureCount, results }] *)
Definition returned (s : Summary) (t : Task) (st : State) : Task * State :=
  match t_caller t with
  | FromContinueCampaign => (with_pc (Returned (Some s)) t, st)
  | FromUploadHandler total _ => upload_resume total s t st
  end.

Definition count_status (status : string) (rs : list Result) : nat :=
  length (List.filter (fun r => String.eqb (r_status r) status) rs).

(** After the [for] loop: the [// Campaign completed] block *)
Definition complete (t : Task) (st : State) : Task * State :=
  let s := mkSummary (t_successCount t) (t_failureCount t) (t_results t) in
  match campaign_of t with
  | None => returned s t st
  | Some id =>
      match JsMap.get id (activeCampaigns st) with
      | None => returned s t st
      | Some campaignState =>
          let st1 := set_active (JsMap.delete id (activeCampaigns st)) st in
          let st2 :=
            emit (bulk_send_complete (length (phoneNumbers campaignState))
                    (sentCount campaignState) (failedCount campaignState)
                    (Some (count_status "unavailable" (t_results t),
                           count_status "connection" (t_results t),
                           count_status "failed" (t_results t)))
                    (t_campaignId t)) st1 in
          let st3 :=
            match mediaFile campaignState with
            | Some (mkMedia (Some path) _) => output (Unlink path) st2
            | _ => st2
            end in
          if closeChromeBrowser_waits st3
          then (with_pc (AwaitCloseBrowser s) t, st3)
          else returned s t st3
      end
  end.

(** Top of an iteration up to the first [await]: the pause check, the
    cursor update and the synchronous part of [validateConnection] *)
Inductive Head :=
| HStop (st : State)
| HChecked (v : Validation).

Definition head (t : Task) (st : State) : Head :=
  match campaign_of t with
  | None => HChecked (validateConnection_begin st)
  | Some id =>
      match JsMap.get id (activeCampaigns st) with
      | None => HStop st
      | Some campaignState =>
          if isPaused campaignState then HStop st
          else HChecked (validateConnection_begin
                 (set_active (JsMap.set id
                    (with_currentIndex (t_startIndex t + t_i t) campaignState)
                    (activeCampaigns st)) st))
      end
  end.

(** One turn of the [while] loop up to [await sendMessageWithPuppeteer] *)
Definition begin_send (k : nat) (t : Task) (st : State) : Task * State :=
  let n := S (t_sendAttempts t) in
  (with_pc AwaitSend (with_sendAttempts n t),
   output (SendCall k (t_campaignId t) (t_i t) (phoneNumber_of t) n) st).

(** After a successful [await validateConnection()] *)
Definition validated (k : nat) (site : Site) (t : Task) (st : State) : Task * State :=
  match site with
  | BeforeSend =>
      if (0 <? t_i t) || (0 <? t_startIndex t)
      then (with_pc AwaitPreDelay t,
            emit (human_behavior (phoneNumber_of t) "waiting"
                    (progress_of t) (total_of t) (t_campaignId t)) st)
      else begin_send k (with_sendAttempts 0 t) st
  | BeforeRetry => begin_send k t st
  end.

(** The [for] loop from its condition on, over the recipients not yet
    visited.  A [validateConnection] that throws before any [await]
    fails the recipient and the loop goes on to the next one at once.
    [between] is what is left of the synchronous caller (a handler's
    response): it runs when the call first yields. *)
Fixpoint iterate (between : State -> State) (k : nat) (rest : list string)
    (t : Task) (st : State) : Task * State :=
  match rest with
  | [] => let '(t', st') := complete t st in (t', between st')
  | _ :: rest' =>
      match head t st with
      | HStop st' => (with_pc (Returned None) t, between st')
      | HChecked (VOk st') => let '(t', st'') := validated k BeforeSend t st' in (t', between st'')
      | HChecked (VGetState st') => (with_pc (AwaitGetState BeforeSend) t, between st')
      | HChecked (VDestroy err st') => (with_pc (AwaitDestroy BeforeSend err) t, between st')
      | HChecked (VThrow err st') =>
          let '(t', st'') := catch_block err t (between st') in
          iterate (fun s => s) k rest' (next_i t') st''
      end
  end.

Definition loop_head (between : State -> State) (k : nat) (t : Task) (st : State)
  : Task * State :=
  iterate between k (drop (t_i t) (t_phoneNumbers t)) t st.

(** End of an iteration: [i++] and back to the loop condition *)
Definition next_iteration (k : nat) (t : Task) (st : State) : Task * State :=
  loop_head (fun s => s) k (next_i t) st.

(** An error reaching the loop's [catch]; the loop then goes on *)
Definition failed (k : nat) (err : string) (t : Task) (st : State) : Task * State :=
  let '(t', st') := catch_block err t st in next_iteration k t' st'.

(** After a successful send: counters, progress event, pacing delay *)
Definition sent (k : nat) (t : Task) (st : State) : Task * State :=
  let t1 := push_sent (mkResult (phoneNumber_of t) "sent" None) t in
  let st1 := with_campaign t (record_sent (now st)) st in
  let st2 := emit (message_sent (phoneNumber_of t) "sent" None
                     (progress_of t) (total_of t) (t_campaignId t)) st1 in
  if S (t_i t) <? length (t_phoneNumbers t)
  then (with_pc AwaitHumanDelay t1,
        emit (human_behavior (phoneNumber_of t) "human_delay"
                (progress_of t) (total_of t) (t_campaignId t)) st2)
  else next_iteration k t1 st2.

(** The body of the loop's [try] block, resumed: it either throws to the
    loop's [catch] or goes on *)
Inductive Tried :=
| Threw (err : string) (st : State)
| Went (r : Task * State).

(** Where a call of [validateConnection] at [site] leads *)
Definition after_validation (k : nat) (site : Site) (v : Validation) (t : Task)
  : Tried :=
  match v with
  | VOk st => Went (validated k site t st)
  | VThrow err st => Threw (thrown_at site err) st
  | VGetState st => Went (with_pc (AwaitGetState site) t, st)
  | VDestroy err st => Went (with_pc (AwaitDestroy site err) t, st)
  end.

(** The [catch (sendError)] block of the [while] loop *)
Definition send_failed (msg : string) (t : Task) (st : State) : Tried :=
  if isNumberUnavailableError msg
  then Threw ("Number not available on WhatsApp: " ++ msg) st
  else if t_sendAttempts t <? maxAttempts
  then Went (with_pc AwaitRetryDelay t, st)
  else Threw msg st.

Definition try_resume (k : nat) (o : Outcome) (t : Task) (st : State) : Tried :=
  match t_pc t with
  | AwaitGetState site => after_validation k site (validateConnection_settle o st) t
  | AwaitDestroy site err => Threw (thrown_at site err) (forceReconnection_end st)
  | AwaitPreDelay => Went (begin_send k (with_sendAttempts 0 t) st)
  | AwaitSend =>
      match o with
      | Resolved _ => Went (sent k t st)
      | Rejected msg => send_failed msg t st
      end
  | AwaitRetryDelay => after_validation k BeforeRetry (validateConnection_begin st) t
  | AwaitHumanDelay => Went (next_iteration k t st)
  | AwaitCloseBrowser s => Went (returned s t (closeChromeBrowser_end o st))
  | AwaitHandlerClose total s =>
      Went (with_pc (Returned (Some s)) t,
            upload_finish total (uploaded_media t) (closeChromeBrowser_end o st))
  | Returned _ => Went (t, st)
  end.

(** A loop resumed at its suspension point by the settlement [o]; what
    the [try] block throws is handled by the [catch] block and the loop
    goes on with the next recipient *)
Definition resume (k : nat) (o : Outcome) (t : Task) (st : State) : Task * State :=
  match try_resume k o t st with
  | Went r => r
  | Threw err st' => failed k err t st'
  end.

(** *** Starting and restarting campaigns *)

(** A fresh call [sendMessagesSequentially(phoneNumbers, message,
    campaignId, startIndex, delayRange, mediaFile)], run up to its first
    suspension *)
Definition spawn (phones : list string) (msg : string) (cid : option string)
    (startIndex : nat) (delay : string) (media : option Media) (caller : Caller)
    (between : State -> State) (st : State) : State :=
  let k := length (jobs st) in
  let t := mkTask phones msg cid startIndex delay media caller [] 0 0 0 0
             (Returned None) in
  let '(t', st') := loop_head between k t st in
  set_jobs (jobs st' ++ [Loop t']) st'.

(** [x || '1800-3600'] *)
Definition or_default (x default_value : string) : string :=
  if String.eqb x "" then default_value else x.

(** [continueCampaign(campaignId)]: always the whole recipient list, from
    index 0 *)
Definition continueCampaign (id : string) (between : State -> State) (st : State)
  : State :=
  match JsMap.get id (activeCampaigns st) with
  | None => between st
  | Some campaignState =>
      if isPaused campaignState then between st
      else if negb (isClientReady st) || negb (isClientAuthenticated st)
      then between (setTimeout (TContinueCampaign id) st)
      else
        let allPhoneNumbers := phoneNumbers campaignState in
        spawn allPhoneNumbers (message campaignState) (Some id) 0
          (or_default (delayRange campaignState) "1800-3600")
          (mediaFile campaignState) FromContinueCampaign between
          (emit (bulk_send_start (length (phoneNumbers campaignState)) (Some id)
                   (Some (length allPhoneNumbers, sentCount campaignState,
                          failedCount campaignState))) st)
  end.

(** *** Health monitoring *)

(** [checkStuckCampaigns()]: one event and one restart timer for every
    active campaign idle for more than five minutes *)
Definition stuckThreshold : Z := (5 * 60 * 1000)%Z.

Definition check_stuck_one (st : State) (entry : string * Campaign) : State :=
  let '(id, campaignState) := entry in
  if isPaused campaignState then st
  else
    let timeSinceStart := (now st - startedAt campaignState)%Z in
    let timeSinceLastActivity := (now st - lastActivity campaignState)%Z in
    if (stuckThreshold <? timeSinceLastActivity)%Z
    then setTimeout (TContinueCampaign id)
           (emit (campaign_stuck id timeSinceStart timeSinceLastActivity) st)
    else st.

Definition checkStuckCampaigns (st : State) : State :=
  fold_left check_stuck_one (activeCampaigns st) st.

(** The callback of [startCampaignHealthMonitoring]: ten minutes idle *)
Definition campaign_health_one (st : State) (entry : string * Campaign) : State :=
  let '(id, campaignState) := entry in
  if isPaused campaignState then st
  else if (10 * 60 * 1000 <? now st - lastActivity campaignState)%Z
  then setTimeout (TContinueCampaign id) st
  else st.

Definition campaignHealthTick (st : State) : State :=
  if campaignHealthInterval st
  then fold_left campaign_health_one (activeCampaigns st) st
  else st.

Definition add_job (j : Job) (st : State) : State := set_jobs (jobs st ++ [j]) st.

(** The callback of [startKeepAlive], up to [await client.getState()] *)
Definition keepAliveTick (st : State) : State :=
  if keepAliveInterval st && session_up st
  then add_job (Monitor KeepAliveGetState) st
  else st.

(** The callback of [startConnectionHealthCheck] *)
Definition healthCheckTick (st : State) : State :=
  if connectionHealthCheckInterval st then
    if session_up st && (10 * 60 * 1000 <? now st - lastSuccessfulConnection st)%Z
    then add_job (Monitor HealthGetState) st
    else checkStuckCampaigns st
  else st.

(** An interval callback resumed at its suspension point *)
Definition resume_monitor (pc : MonitorPc) (o : Outcome) (st : State)
  : MonitorPc * State :=
  match pc with
  | KeepAliveGetState =>
      let failure :=
        let st1 := set_failures (S (connectionFailureCount st)) st in
        if MAX_CONNECTION_FAILURES <=? connectionFailureCount st1 then
          let st2 := forceReconnection_begin st1 in
          match client st2 with
          | Some _ => (KeepAliveDestroy, st2)
          | None => (MonitorDone, forceReconnection_noclient st2)
          end
        else (MonitorDone, st1) in
      match o with
      | Resolved state =>
          if String.eqb state "CONNECTED" then (MonitorDone, connection_ok st)
          else failure
      | Rejected _ => failure
      end
  | KeepAliveDestroy => (MonitorDone, forceReconnection_end st)
  | HealthGetState =>
      match o with
      | Resolved _ => (MonitorDone, checkStuckCampaigns (connection_ok st))
      | Rejected _ =>
          let st1 := forceReconnection_begin st in
          match client st1 with
          | Some _ => (HealthDestroy, st1)
          | None => (MonitorDone, checkStuckCampaigns (forceReconnection_noclient st1))
          end
      end
  | HealthDestroy => (MonitorDone, checkStuckCampaigns (forceReconnection_end st))
  | MonitorDone => (MonitorDone, st)
  end.


(** *** HTTP handlers *)

(** What [xlsx.readFile] and [sheet_to_json] make of an uploaded
    workbook: an exception, or the rows of the first sheet.  The handler
    reads the first cell of each row, as text; [None] is a row without a
    first cell, or with a falsy one. *)
Inductive Workbook :=
| Unreadable (error : string)
| Rows (data : list (option string)).

Record ExcelUpload := mkExcelUpload {
  excel_path : string;
  excel_workbook : Workbook
}.

(** An uploaded media file.  [MessageMedia.fromFilePath] reads it at
    once (the library is not part of the script): it throws, or gives an
    object whose [data] is the content.  The [mimetype] the handler
    derives from the file name is read by the library's send only. *)
Record MediaUpload := mkMediaUpload {
  upload_path : string;
  originalname : string;
  media_read : Outcome
}.

(** [req.files] of a multipart request *)
Record Files := mkFiles {
  excelFile : option ExcelUpload;
  mediaUpload : option MediaUpload
}.

(** A request to [/api/upload-and-send].  The fields of [req.body] are
    strings, as a form delivers them; absent fields are [None].
    [u_files] is [None] when the request is not multipart: [multer] then
    leaves [req.files] undefined. *)
Record UploadReq := mkUploadReq {
  u_message : option string;
  u_fileType : option string;
  u_campaignId : option string;
  u_delayRange : option string;
  u_phoneNumbers : option string;
  u_files : option Files
}.

(** [req.body.x || fallback] *)
Definition field_or (x : option string) (fallback : string) : string :=
  match x with
  | Some v => or_default v fallback
  | None => fallback
  end.

(** The validation loop over the submitted lines, [i] being the row index *)
Fixpoint format_rows (i : nat) (rows : list string) : list string :=
  match rows with
  | [] => []
  | row :: rows' =>
      match validateAndFormatPhoneNumber row i with
      | Some formattedNumber => formattedNumber :: format_rows (S i) rows'
      | None => format_rows (S i) rows'
      end
  end.

Definition parse_phoneNumbers (text : string) : list string :=
  format_rows 0
    (List.filter (fun num => 0 <? String.length num)
       (List.map trim (split_lines text))).

(** The validation loop over the rows of a workbook: the first column,
    where it has something *)
Fixpoint format_cells (i : nat) (data : list (option string)) : list string :=
  match data with
  | [] => []
  | cell :: data' =>
      match cell with
      | Some v =>
          match validateAndFormatPhoneNumber (trim v) i with
          | Some formattedNumber => formattedNumber :: format_cells (S i) data'
          | None => format_cells (S i) data'
          end
      | None => format_cells (S i) data'
      end
  end.

(** How far the handler gets with the request before it stores or sends
    anything: it answers 400, after deleting the files listed; or it
    throws into its own [catch]; or it has the recipients and the media
    object *)
Inductive Read :=
| Refused (unlinked : list string) (error : string)
| Thrown (error : string)
| Recipients (phoneNumbers : list string) (mediaFile : option Media).

(** [fileType === 'text'] *)
Definition read_text (r : UploadReq) : Read :=
  if negb (truthy (u_phoneNumbers r))
  then Refused [] "Phone numbers are required for text messages"
  else
    match parse_phoneNumbers (default "" (u_phoneNumbers r)) with
    | [] => Refused [] "No valid phone numbers found"
    | phoneNumbers => Recipients phoneNumbers None
    end.

(** [fileType === 'excel'] *)
Definition read_excel (r : UploadReq) : Read :=
  match u_files r with
  | None => Thrown "Cannot read properties of undefined (reading 'excelFile')"
  | Some files =>
      match excelFile files with
      | None => Refused [] "Excel file is required for Excel uploads"
      | Some x =>
          match excel_workbook x with
          | Unreadable error => Thrown error
          | Rows data =>
              match format_cells 0 data with
              | [] => Refused [excel_path x]
                        "No valid phone numbers found in the Excel file"
              | phoneNumbers => Recipients phoneNumbers None
              end
          end
      end
  end.

(** The [try] block of the media branch that builds the [MessageMedia],
    and its [catch], which deletes the workbook without looking whether
    there is one *)
Definition read_mediaFile (files : Files) (m : MediaUpload) (phoneNumbers : list string)
  : Read :=
  let failed mediaError :=
    match excelFile files with
    | Some x => Refused [excel_path x; upload_path m]
                  ("Failed to process media file: " ++ mediaError)
    | None => Thrown "Cannot read properties of undefined (reading '0')"
    end in
  match media_read m with
  | Rejected mediaError => failed mediaError
  | Resolved data =>
      if String.eqb data "" then failed "Media file data is missing or corrupted"
      else Recipients phoneNumbers (Some (mkMedia None (originalname m)))
  end.

(** [fileType === 'media'] *)
Definition read_media (r : UploadReq) : Read :=
  match u_files r with
  | None => Thrown "Cannot read properties of undefined (reading 'mediaFile')"
  | Some files =>
      match mediaUpload files with
      | None => Refused [] "Media file is required for media messages"
      | Some m =>
          if truthy (u_phoneNumbers r) then
            match parse_phoneNumbers (default "" (u_phoneNumbers r)) with
            | [] => Refused [upload_path m] "No valid phone numbers found"
            | phoneNumbers => read_mediaFile files m phoneNumbers
            end
          else
            match excelFile files with
            | Some x =>
                match excel_workbook x with
                | Unreadable error => Thrown error
                | Rows data =>
                    match format_cells 0 data with
                    | [] => Refused [excel_path x; upload_path m]
                              "No valid phone numbers found in the Excel file"
                    | phoneNumbers => read_mediaFile files m phoneNumbers
                    end
                end
            | None => Refused [upload_path m]
                        "Phone numbers are required for media messages"
            end
      end
  end.

(** The three branches on [fileType]; any other value falls through
    with no recipient *)
Definition read_request (r : UploadReq) : Read :=
  let fileType := field_or (u_fileType r) "text" in
  if String.eqb fileType "text" then read_text r
  else if String.eqb fileType "excel" then read_excel r
  else if String.eqb fileType "media" then read_media r
  else Recipients [] None.

Definition unlink_all (paths : list string) (st : State) : State :=
  fold_left (fun s path => output (Unlink path) s) paths st.

(** The handler's [catch]: the uploaded files are deleted and the
    request is answered 500 *)
Definition upload_catch (r : UploadReq) (error : string) (st : State) : State :=
  let st1 :=
    match u_files r with
    | Some files =>
        unlink (option_map upload_path (mediaUpload files))
          (unlink (option_map excel_path (excelFile files)) st)
    | None => st
    end in
  respond 500 (body_error ("Failed to process file and send messages: " ++ error)) st1.

Definition upload_and_send (r : UploadReq) (st : State) : State :=
  if negb (isClientReady st) && negb (isClientAuthenticated st)
  then respond 400 (body_error "WhatsApp client is not ready. Please authenticate first.") st
  else match client st with
  | None => respond 400 (body_error "WhatsApp client is not initialized. Please try again.") st
  | Some _ =>
    let msg := field_or (u_message r) "Hello! This is a message from WhatsApp Bulk Sender." in
    let fileType := field_or (u_fileType r) "text" in
    let cid := if truthy (u_campaignId r) then u_campaignId r else None in
    let delay := field_or (u_delayRange r) "1800-3600" in
    match read_request r with
    | Refused unlinked error => respond 400 (body_error error) (unlink_all unlinked st)
    | Thrown error => upload_catch r error st
    | Recipients phones media =>
        match u_files r with
        | None =>
            upload_catch r "Cannot read properties of undefined (reading 'excelFile')" st
        | Some files =>
            let st0 := unlink (option_map excel_path (excelFile files)) st in
            let uploaded := option_map upload_path (mediaUpload files) in
            match cid with
            | Some id =>
                let campaignState :=
                  mkCampaign id phones msg media fileType delay 0 0 0 false
                    (now st) (now st) None None (now st) in
                let st1 := set_active (JsMap.set id campaignState (activeCampaigns st0)) st0 in
                let st2 := emit (bulk_send_start (length phones) cid None) st1 in
                upload_finish (length phones) uploaded
                  (setTimeout (TContinueCampaign id) st2)
            | None =>
                spawn phones msg None 0 delay media
                  (FromUploadHandler (length phones) uploaded)
                  (fun s => s) (emit (bulk_send_start (length phones) None None) st0)
            end
        end
    end
  end.

Definition campaign_body (msg : string) (c : Campaign) : Body :=
  body_campaign msg (currentIndex c) (length (phoneNumbers c))
    (sentCount c) (failedCount c).

(** [/api/campaign/pause] *)
Definition pause (cid : option string) (st : State) : State :=
  if negb (truthy cid) then respond 400 (body_error "Campaign ID is required") st
  else
    let id := default "" cid in
    match JsMap.get id (activeCampaigns st) with
    | None => respond 404 (body_error "Campaign not found or not active") st
    | Some campaignState =>
        let paused := mark_paused (now st) campaignState in
        let st1 := set_paused (JsMap.set id paused (pausedCampaigns st)) st in
        let st2 := set_active (JsMap.delete id (activeCampaigns st1)) st1 in
        respond 200 (campaign_body "Campaign paused successfully" paused) st2
    end.

(** [/api/campaign/resume].  The script declares no
    [getPendingPhoneNumbers] (its comments say the tracking file is
    gone), so evaluating the call throws a [ReferenceError]: what follows
    it in the [try] block, the call of [continueCampaign] and the
    success response, is never reached, and the handler's [catch]
    answers. *)
Definition resume_campaign (cid : option string) (st : State) : State :=
  if negb (truthy cid) then respond 400 (body_error "Campaign ID is required") st
  else
    let id := default "" cid in
    match JsMap.get id (pausedCampaigns st) with
    | None => respond 404 (body_error "Campaign not found or not paused") st
    | Some campaignState =>
        let resumed := mark_resumed (now st) campaignState in
        let st1 := set_active (JsMap.set id resumed (activeCampaigns st)) st in
        let st2 := set_paused (JsMap.delete id (pausedCampaigns st1)) st1 in
        respond 500
          (body_error ("Failed to resume campaign: "
                       ++ "getPendingPhoneNumbers is not defined")) st2
    end.

(** [/api/campaign/restart]; the response reads the campaign object
    after the synchronous part of [continueCampaign] *)
Definition restart (cid : option string) (st : State) : State :=
  if negb (truthy cid) then respond 400 (body_error "Campaign ID is required") st
  else
    let id := default "" cid in
    match JsMap.get id (activeCampaigns st) with
    | None => respond 404 (body_error "Campaign not found or not active") st
    | Some campaignState =>
        let st1 := set_active (JsMap.set id (touch (now st) campaignState)
                                 (activeCampaigns st)) st in
        continueCampaign id
          (fun s =>
             match JsMap.get id (activeCampaigns s) with
             | Some c => respond 200 (campaign_body "Campaign restarted successfully" c) s
             | None => respond 200 (campaign_body "Campaign restarted successfully"
                                      (touch (now st) campaignState)) s
             end) st1
    end.


(** *** Transitions *)

(** What can happen to the server between two suspension points: an HTTP
    request, a timer or interval firing, the settlement of a promise a
    job waits for, the clock, and the session's life cycle.  [SessionOp]
    stands for whatever else rewrites the session variables: the
    [authenticated] and [auth_failure] listeners, the logout, force-ready
    and clear-session endpoints, the browser opening or closing its page,
    and [ensureChromeBrowserAvailable] run by a pending send.  None of
    them reads or writes a campaign. *)
Inductive Label :=
| Upload (r : UploadReq)
| Pause (cid : option string)
| Resume (cid : option string)
| Restart (cid : option string)
| FireTimer (k : nat)
| KeepAliveTick
| HealthCheckTick
| CampaignHealthTick
| Settle (k : nat) (o : Outcome)
| Advance (ms : N)
| Startup
| InitSettled
| ClientReady
| ClientDisconnected (reason : string)
| SessionOp (c : option Client) (ready authenticated : bool).

Definition run_timer (a : TimerAction) (st : State) : State :=
  match a with
  | TContinueCampaign id => continueCampaign id (fun s => s) st
  | TInitialize => initializeWhatsAppClient st
  | TReinitialize =>
      if negb (isClientAuthenticated st) && negb (isInitializing st)
      then initializeWhatsAppClient st
      else st
  end.

(** The [ready] listener *)
Definition on_ready (st : State) : State :=
  let st1 := connection_ok (set_session (client st) true (isClientAuthenticated st) st) in
  let st2 := emit ready_event st1 in
  let st3 := emit (status true true "WhatsApp is ready! You can now send messages.") st2 in
  set_intervals true st3.

(** The [disconnected] listener *)
Definition on_disconnected (reason : string) (st : State) : State :=
  let st1 := set_initializing false (set_session (client st) false false st) in
  let st2 := set_intervals false st1 in
  let st3 := emit (disconnected_event reason) st2 in
  let st4 := emit (status false false ("WhatsApp disconnected: " ++ reason)) st3 in
  if negb (String.eqb reason "NAVIGATION") && negb (String.eqb reason "LOGOUT")
  then setTimeout TReinitialize st4
  else st4.

Definition settle (k : nat) (o : Outcome) (st : State) : State :=
  match jobs st !! k with
  | Some (Loop t) =>
      let '(t', st') := resume k o t st in
      set_jobs (<[k := Loop t']> (jobs st')) st'
  | Some (Monitor pc) =>
      let '(pc', st') := resume_monitor pc o st in
      set_jobs (<[k := Monitor pc']> (jobs st')) st'
  | None => st
  end.

Definition step (st : State) (l : Label) : State :=
  match l with
  | Upload r => upload_and_send r st
  | Pause cid => pause cid st
  | Resume cid => resume_campaign cid st
  | Restart cid => restart cid st
  | FireTimer k =>
      match timers st !! k with
      | Some (Some a) => run_timer a (set_timers (<[k := None]> (timers st)) st)
      | _ => st
      end
  | KeepAliveTick => keepAliveTick st
  | HealthCheckTick => healthCheckTick st
  | CampaignHealthTick => campaignHealthTick st
  | Settle k o => settle k o st
  | Advance ms => set_now (now st + Z.of_N ms)%Z st
  | Startup => initializeWhatsAppClient st
  | InitSettled => set_initializing false st
  | ClientReady => on_ready st
  | ClientDisconnected reason => on_disconnected reason st
  | SessionOp c r a => set_session c r a st
  end.

(** An execution: the transitions of [ls] in order *)
Definition run (ls : list Label) (st : State) : State := fold_left step ls st.

Definition reachable (st : State) : Prop := exists ls, st = run ls init.

(** *** Observations *)

(** The campaigns a delivery loop is iterating right now *)
Definition executing_job (j : Job) : option string :=
  match j with
  | Loop t =>
      match t_pc t with
      | Returned _ => None
      | _ => campaign_of t
      end
  | Monitor _ => None
  end.

Definition executing (st : State) : list string :=
  omap executing_job (jobs st).

(** Whether [o] is a send made for campaign [id] to the recipient at
    loop index [i] *)
Definition is_send_to (id : string) (i : nat) (o : Output) : bool :=
  match o with
  | SendCall _ (Some id') i' _ _ => String.eqb id id' && (i =? i')
  | _ => false
  end.



Definition is_send (o : Output) : bool :=
  match o with
  | SendCall _ _ _ _ _ => true
  | _ => false
  end.

(** An observation of the outputs that only looks at sends *)
Definition on_sends (p : Output -> bool) : Prop :=
  forall o, is_send o = false -> p o = false.

(** The send a loop has just begun *)
Definition the_send (k : nat) (t : Task) : Output :=
  SendCall k (t_campaignId t) (t_i t) (phoneNumber_of t) (t_sendAttempts t).

Definition sending (t : Task) : bool :=
  match t_pc t with
  | AwaitSend => true
  | _ => false
  end.

(** The parameters of a call, as opposed to its locals *)
Definition same_call (t t' : Task) : Prop :=
  t_phoneNumbers t' = t_phoneNumbers t
  /\ t_message t' = t_message t
  /\ t_campaignId t' = t_campaignId t
  /\ t_startIndex t' = t_startIndex t
  /\ t_delayRange t' = t_delayRange t
  /\ t_mediaFile t' = t_mediaFile t
  /\ t_caller t' = t_caller t.

(** What is left of a synchronous caller when a loop first yields:
    nothing, or a response *)
Definition benign (between : State -> State) : Prop :=
  forall st, between st = st \/ exists code b, between st = respond code b st.

(** A loop is between the pause check of a recipient and the end of the
    [try] block for it *)
Definition in_flight (pc : Pc) : bool :=
  match pc with
  | AwaitGetState _ | AwaitDestroy _ _ | AwaitPreDelay | AwaitSend | AwaitRetryDelay => true
  | _ => false
  end.

(** The suspension points a loop can reach from the top of an iteration
    without a settlement *)
Definition at_head (pc : Pc) : bool :=
  match pc with
  | AwaitGetState BeforeSend | AwaitDestroy BeforeSend _
  | AwaitCloseBrowser _ | AwaitHandlerClose _ _ | Returned _ => true
  | _ => false
  end.

(** A loop is still working through its recipient list *)
Definition iterating (pc : Pc) : bool :=
  match pc with
  | AwaitHumanDelay => true
  | _ => in_flight pc
  end.

(** The moves of a loop that stay with the same recipient and make no
    send, [n] being the attempts made so far *)
Definition stays (pc : Pc) (n : nat) (pc' : Pc) : Prop :=
  match pc, pc' with
  | AwaitGetState BeforeSend, (AwaitPreDelay | AwaitDestroy BeforeSend _) => True
  | AwaitGetState BeforeRetry, AwaitDestroy BeforeRetry _ => True
  | AwaitSend, AwaitHumanDelay => True
  | AwaitSend, AwaitRetryDelay => n < maxAttempts
  | AwaitRetryDelay, (AwaitGetState BeforeRetry | AwaitDestroy BeforeRetry _) => True
  | AwaitCloseBrowser _, (Returned _ | AwaitHandlerClose _ _) => True
  | AwaitHandlerClose _ _, Returned _ => True
  | Returned r, Returned r' => r = r'
  | _, _ => False
  end.

Definition has_returned (pc : Pc) : bool :=
  match pc with
  | Returned _ => true
  | _ => false
  end.

(** The labels that put campaign [id] into the active pool: a submission
    under that id, and a resume request for it *)
Definition activates (id : string) (l : Label) : bool :=
  match l with
  | Upload r => match u_campaignId r with Some c => String.eqb c id | None => false end
  | Resume (Some c) => String.eqb c id
  | _ => false
  end.

(** The campaign stays out of the active pool along [ls] *)
Definition stays_paused (id : string) (ls : list Label) : bool :=
  forallb (fun l => negb (activates id l)) ls.



(** What a loop leaves alone: the session code it runs through touches no
    campaign, no job and not the clock *)
Definition untouched (st st' : State) : Prop :=
  activeCampaigns st' = activeCampaigns st
  /\ pausedCampaigns st' = pausedCampaigns st
  /\ jobs st' = jobs st
  /\ now st' = now st
  /\ forall p, on_sends p -> List.filter p (out st') = List.filter p (out st).

(** What a stretch of a loop may do: it keeps the parameters of its call,
    never moves its index back, writes no campaign but its own and
    brings none into the active pool, and makes no send *)
Definition advances (t : Task) (st : State) (r : Task * State) : Prop :=
  same_call t (fst r)
  /\ t_i t <= t_i (fst r)
  /\ pausedCampaigns (snd r) = pausedCampaigns st
  /\ jobs (snd r) = jobs st
  /\ now (snd r) = now st
  /\ (forall id, JsMap.get id (activeCampaigns st) = None ->
                 JsMap.get id (activeCampaigns (snd r)) = None)
  /\ (forall id, campaign_of t <> Some id ->
                 JsMap.get id (activeCampaigns (snd r)) = JsMap.get id (activeCampaigns st))
  /\ (forall p, on_sends p -> List.filter p (out (snd r)) = List.filter p (out st)).

Definition state_of (v : Validation) : State :=
  match v with
  | VOk st | VThrow _ st | VGetState st | VDestroy _ st => st
  end.

(** The three ways a settlement moves a loop: on to a later recipient
    (or out of the loop), within the work on the same recipient, or into
    a send to the same recipient *)
Definition moved (t : Task) (st : State) (r : Task * State) : Prop :=
  t_i t < t_i (fst r)
  /\ at_head (t_pc (fst r)) = true
  /\ (forall id, campaign_of t = Some id ->
                 JsMap.get id (activeCampaigns st) = None ->
                 iterating (t_pc (fst r)) = false).

Definition stayed (t : Task) (r : Task * State) : Prop :=
  t_i (fst r) = t_i t
  /\ t_sendAttempts (fst r) = t_sendAttempts t
  /\ stays (t_pc t) (t_sendAttempts t) (t_pc (fst r)).

Definition began (k : nat) (t : Task) (st : State) (r : Task * State) : Prop :=
  exists t1 st1,
    advances t st (t1, st1)
    /\ t_i t1 = t_i t
    /\ r = begin_send k t1 st1
    /\ ((t_sendAttempts t1 = 0
         /\ (t_pc t = AwaitGetState BeforeSend \/ t_pc t = AwaitPreDelay))
        \/ (t_sendAttempts t1 = t_sendAttempts t
            /\ t_pc t = AwaitGetState BeforeRetry)).

Definition settled (k : nat) (t : Task) (st : State) (r : Task * State) : Prop :=
  (advances t st r /\ sending (fst r) = false /\ (moved t st r \/ stayed t r))
  \/ began k t st r.

(** A change of state that makes no send and brings no campaign into the
    active pool, except the one the label is about *)
Definition calm (l : Label) (st st' : State) : Prop :=
  (forall p, on_sends p -> List.filter p (out st') = List.filter p (out st))
  /\ (forall id, activates id l = false ->
                 JsMap.get id (activeCampaigns st) = None ->
                 JsMap.get id (activeCampaigns st') = None).

(** The shapes a transition can have, as far as the loops go: none is
    touched; an interval callback starts waiting or is resumed; a loop is
    started, for a campaign of the active pool if for any; a loop is
    resumed *)
Inductive step_shape (st : State) (l : Label) : State -> Prop :=
| shape_env st' :
    calm l st st' -> jobs st' = jobs st -> step_shape st l st'
| shape_monitor_new st' pc :
    calm l st st' -> jobs st' = (jobs st ++ [Monitor pc])%list -> step_shape st l st'
| shape_monitor st' k pc pc' :
    calm l st st' -> jobs st !! k = Some (Monitor pc) ->
    jobs st' = <[k := Monitor pc']> (jobs st) -> step_shape st l st'
| shape_spawn st1 t0 t' st2 between :
    calm l st st1 -> jobs st1 = jobs st ->
    t_i t0 = 0 ->
    (forall id, campaign_of t0 = Some id -> JsMap.get id (activeCampaigns st1) <> None) ->
    benign between ->
    loop_head between (length (jobs st)) t0 st1 = (t', st2) ->
    step_shape st l (set_jobs (jobs st ++ [Loop t']) st2)
| shape_settle k o t t' st2 :
    l = Settle k o -> jobs st !! k = Some (Loop t) ->
    resume k o t st = (t', st2) ->
    step_shape st l (set_jobs (<[k := Loop t']> (jobs st)) st2).

(** The sends made on behalf of campaign [id] *)
Definition is_campaign_send (id : string) (o : Output) : bool :=
  match o with
  | SendCall _ (Some id') _ _ _ => String.eqb id id'
  | _ => false
  end.

Definition campaign_sends (id : string) (os : list Output) : list Output :=
  List.filter (is_campaign_send id) os.

(** With respect to the loops [base] running when campaign [id] was
    paused: every loop of the campaign is one of them, and either is not
    iterating any more or is still at the recipient it was at *)
Definition held (id : string) (base js : list Job) : Prop :=
  forall k t', js !! k = Some (Loop t') -> campaign_of t' = Some id ->
    exists t, base !! k = Some (Loop t)
              /\ campaign_of t = Some id
              /\ (iterating (t_pc t') = false
                  \/ (t_i t' = t_i t
                      /\ (in_flight (t_pc t') = true -> in_flight (t_pc t) = true))).

(** A send to the recipient a loop of [base] was working on *)
Definition in_flight_send (base : list Job) (o : Output) : Prop :=
  exists k c i p n t,
    o = SendCall k c i p n
    /\ base !! k = Some (Loop t)
    /\ t_i t = i
    /\ in_flight (t_pc t) = true.

(** The state of a paused campaign [id], [sends0] being the sends made
    for it before the pause *)
Definition paused_inv (id : string) (base : list Job) (sends0 : list Output)
    (st : State) : Prop :=
  JsMap.get id (activeCampaigns st) = None
  /\ held id base (jobs st)
  /\ exists news, campaign_sends id (out st) = (sends0 ++ news)%list
                  /\ Forall (in_flight_send base) news.

(** Campaign [id] is in the paused pool, flagged paused, after each of
    the transitions [ls] *)
Fixpoint remains_paused (id : string) (ls : list Label) (st : State) : bool :=
  match ls with
  | [] => true
  | l :: ls' =>
      match JsMap.get id (pausedCampaigns (step st l)) with
      | Some c => isPaused c && remains_paused id ls' (step st l)
      | None => false
      end
  end.

(** What the loop's [catch] block writes for the recipient at [i]: the
    entry pushed to [results] and the progress event *)
Definition failure_entry (err : string) (t : Task) : Result :=
  mkResult (phoneNumber_of t) (fst (classify err)) (Some (snd (classify err))).

Definition failure_event (err : string) (t : Task) : Output :=
  Emit (message_sent (phoneNumber_of t) (fst (classify err)) (Some (snd (classify err)))
          (progress_of t) (total_of t) (t_campaignId t)).

(** The pause check of the loop lets it through: it works for no
    campaign, or for one of the active pool that is not flagged paused *)
Definition running (t : Task) (st : State) : Prop :=
  match campaign_of t with
  | None => True
  | Some id => exists c, JsMap.get id (activeCampaigns st) = Some c /\ isPaused c = false
  end.

(** What a loop has written is kept: [results] and the outputs only
    grow, and every further result is a failure *)
Definition keeps (t : Task) (st : State) (r : Task * State) : Prop :=
  (exists more, t_results (fst r) = (t_results t ++ more)%list
                /\ t_failureCount (fst r) = t_failureCount t + length more)
  /\ t_successCount (fst r) = t_successCount t
  /\ exists later, out (snd r) = (out st ++ later)%list.

(** The record the [catch] block makes of a failure [err] of the
    recipient a loop [t] is at, between the states [st1] and [st2] *)
Definition recorded (err : string) (t : Task) (st1 : State) (t2 : Task) (st2 : State)
  : Prop :=
  t_results t2 = (t_results t ++ [failure_entry err t])%list
  /\ t_failureCount t2 = S (t_failureCount t)
  /\ t_successCount t2 = t_successCount t
  /\ t_i t2 = t_i t
  /\ out st2 = (out st1 ++ [failure_event err t])%list
  /\ (forall id c, campaign_of t = Some id ->
         JsMap.get id (activeCampaigns st1) = Some c ->
         exists c', JsMap.get id (activeCampaigns st2) = Some c'
                    /\ failedCount c' = S (failedCount c)
                    /\ sentCount c' = sentCount c
                    /\ phoneNumbers c' = phoneNumbers c
                    /\ isPaused c' = isPaused c)
  /\ (forall id, campaign_of t <> Some id ->
         JsMap.get id (activeCampaigns st2) = JsMap.get id (activeCampaigns st1))
  /\ pausedCampaigns st2 = pausedCampaigns st1.

(** The failure counter of the session is below the maximum *)
Definition low_failures (st : State) : Prop :=
  connectionFailureCount st < MAX_CONNECTION_FAILURES.

(** What is kept of a stored campaign: what was submitted stays as it
    is and the counters do not go down *)
Definition steady (c c' : Campaign) : Prop :=
  campaignId c' = campaignId c
  /\ phoneNumbers c' = phoneNumbers c
  /\ message c' = message c
  /\ mediaFile c' = mediaFile c
  /\ fileType c' = fileType c
  /\ delayRange c' = delayRange c
  /\ createdAt c' = createdAt c
  /\ startedAt c' = startedAt c
  /\ sentCount c <= sentCount c'
  /\ failedCount c <= failedCount c'.

(** Campaign [id] is stored as [c], in the active or in the paused pool *)
Definition known (id : string) (st : State) (c : Campaign) : Prop :=
  JsMap.get id (activeCampaigns st) = Some c
  \/ JsMap.get id (pausedCampaigns st) = Some c.

(** The label is a submission under campaign id [id] *)
Definition submits (id : string) (l : Label) : bool :=
  match l with
  | Upload r => match u_campaignId r with Some c => String.eqb c id | None => false end
  | _ => false
  end.

(** What the code that runs between requests (the loops, the timers, the
    interval callbacks, the session's listeners) does to the pools and to
    the failure counter: the paused pool is left alone, an entry of the
    active pool was one before and has kept its pause flag, and the
    counter stays below the maximum *)
Definition kept (st st' : State) : Prop :=
  pausedCampaigns st' = pausedCampaigns st
  /\ (forall id c', JsMap.get id (activeCampaigns st') = Some c' ->
        exists c, JsMap.get id (activeCampaigns st) = Some c
                  /\ steady c c' /\ isPaused c' = isPaused c)
  /\ (low_failures st -> low_failures st').

(** A stored campaign as the upload handler makes it *)
Definition campaign_ok (id : string) (paused : bool) (c : Campaign) : Prop :=
  isPaused c = paused
  /\ campaignId c = id
  /\ Forall wf_recipient (phoneNumbers c).

Definition stored_ok (st : State) : Prop :=
  (forall id c, JsMap.get id (activeCampaigns st) = Some c -> campaign_ok id false c)
  /\ (forall id c, JsMap.get id (pausedCampaigns st) = Some c -> campaign_ok id true c).

(** A loop at the top of an iteration: one entry of [results] for each
    recipient behind it, in the order of the list, counted as a success
    or as a failure *)
Definition at_top (t : Task) : Prop :=
  Forall wf_recipient (t_phoneNumbers t)
  /\ t_successCount t + t_failureCount t = length (t_results t)
  /\ List.map r_number (t_results t) = take (length (t_results t)) (t_phoneNumbers t)
  /\ length (t_results t) = t_i t
  /\ t_i t <= length (t_phoneNumbers t).

(** The same at the suspension points: inside an iteration the loop is
    at a recipient of its list; during the pacing delay the recipient it
    is at has its entry already; past the [for] loop every recipient has
    one and the summary is made of the counters *)
Definition loop_inv (t : Task) : Prop :=
  Forall wf_recipient (t_phoneNumbers t)
  /\ t_successCount t + t_failureCount t = length (t_results t)
  /\ List.map r_number (t_results t) = take (length (t_results t)) (t_phoneNumbers t)
  /\ match t_pc t with
     | AwaitHumanDelay =>
         length (t_results t) = S (t_i t) /\ S (t_i t) < length (t_phoneNumbers t)
     | AwaitCloseBrowser s | AwaitHandlerClose _ s | Returned (Some s) =>
         length (t_results t) = t_i t /\ t_i t = length (t_phoneNumbers t)
         /\ s = mkSummary (t_successCount t) (t_failureCount t) (t_results t)
     | Returned None =>
         length (t_results t) = t_i t /\ t_i t <= length (t_phoneNumbers t)
     | _ => length (t_results t) = t_i t /\ t_i t < length (t_phoneNumbers t)
     end.

(** A send is made by a loop to the recipient of its list at the index
    it gives, a well-formed one, on behalf of the loop's campaign *)
Definition send_ok (js : list Job) (o : Output) : Prop :=
  match o with
  | SendCall k cid i number n =>
      exists t, js !! k = Some (Loop t)
                /\ t_phoneNumbers t !! i = Some number
                /\ t_campaignId t = cid
                /\ wf_recipient number
  | _ => True
  end.

Definition loops_ok (st : State) : Prop :=
  (forall k t, jobs st !! k = Some (Loop t) -> loop_inv t)
  /\ Forall (send_ok (jobs st)) (List.filter is_send (out st)).

(** [validateConnection] throws [msg] before it looks at the session:
    there is no session object, or it is not ready and authenticated *)
Definition session_down (st : State) (msg : string) : Prop :=
  (client st = None /\ msg = "WhatsApp client is not initialized")
  \/ (client st <> None
      /\ (isClientReady st = false \/ isClientAuthenticated st = false)
      /\ msg = "WhatsApp client is not ready or authenticated").

(** An entry of the active pool that [checkStuckCampaigns] restarts at
    time [now] *)
Definition is_stale (now : Z) (entry : string * Campaign) : bool :=
  negb (isPaused (snd entry))
  && (stuckThreshold <? now - lastActivity (snd entry))%Z.


End Server.

(** ** The dashboard's campaign queue (browser script) *)

Module Dashboard.

(** A campaign card.  The objects are shared between [campaigns],
    [campaignQueue] and [activeCampaign]; the model keeps them in
    [campaigns] and refers to them by [id] elsewhere. *)
Record Campaign := mkCampaign {
  id : string;
  name : string;
  status : string;
  progress : nat;
  sent : nat;
  failed : nat;
  currentAction : string;
  startedAt : option Z;
  completedAt : option Z
}.

Record State := mkState {
  campaignCounter : nat;
  campaigns : list Campaign;
  activeCampaign : option string;
  campaignQueue : list string
}.

Definition init : State := mkState 0 [] None [].

Definition decimal (n : nat) : string := NilEmpty.string_of_uint (Nat.to_uint n).

(** Mutation of the object with id [i], wherever it is referred to *)
Definition mutate (i : string) (f : Campaign -> Campaign) (cs : list Campaign)
  : list Campaign :=
  List.map (fun c => if String.eqb (id c) i then f c else c) cs.

(** [createCampaign(type, message, excelFileName)] *)
Definition createCampaign (st : State) : Campaign * State :=
  let n := S (campaignCounter st) in
  let campaign := mkCampaign ("campaign_" ++ decimal n) ("Campaign " ++ decimal n)
                    "pending" 0 0 0 "Waiting in queue..." None None in
  (campaign, mkState n (campaigns st ++ [campaign]) (activeCampaign st)
               (campaignQueue st)).

(** [startNextCampaign()] *)
Definition startNextCampaign (now : Z) (st : State) : State :=
  match campaignQueue st, activeCampaign st with
  | nextCampaign :: queue, None =>
      mkState (campaignCounter st)
        (mutate nextCampaign
           (fun c => mkCampaign (id c) (name c) "active" (progress c) (sent c)
                       (failed c) (currentAction c) (Some now) (completedAt c))
           (campaigns st))
        (Some nextCampaign) queue
  | _, _ => st
  end.

(** [addCampaignToQueue(campaign)] *)
Definition addCampaignToQueue (now : Z) (campaign : string) (st : State) : State :=
  let st1 := mkState (campaignCounter st) (campaigns st) (activeCampaign st)
               (campaignQueue st ++ [campaign]) in
  match activeCampaign st1 with
  | None => startNextCampaign now st1
  | Some _ => st1
  end.

(** [completeCampaign(campaignId, result)] *)
Definition completeCampaign (now : Z) (campaignId : string) (success failures : nat)
    (st : State) : State :=
  mkState (campaignCounter st)
    (mutate campaignId
       (fun c => mkCampaign (id c) (name c) "completed" 100 success failures
                   "Completed" (startedAt c) (Some now))
       (campaigns st))
    None (campaignQueue st).

(** The [bulk_send_complete] listener *)
Definition on_bulk_send_complete (now : Z) (campaignId : option string)
    (success failures : nat) (st : State) : State :=
  match activeCampaign st, campaignId with
  | Some a, Some c =>
      if String.eqb c a
      then startNextCampaign now (completeCampaign now a success failures st)
      else st
  | _, _ => st
  end.

(** [array.splice(array.findIndex(p), 1)], when an element matches *)
Fixpoint remove_first {A : Type} (p : A -> bool) (l : list A) : list A :=
  match l with
  | [] => []
  | x :: l' => if p x then l' else x :: remove_first p l'
  end.

(** [removeCampaignFromQueue(campaignId)] *)
Definition removeCampaignFromQueue (campaignId : string) (st : State) : State :=
  mkState (campaignCounter st)
    (remove_first (fun c => String.eqb (id c) campaignId) (campaigns st))
    (activeCampaign st)
    (remove_first (fun c => String.eqb c campaignId) (campaignQueue st)).

(** [campaigns.find(c => c.id === campaignId)] *)
Definition find_campaign (campaignId : string) (st : State) : option Campaign :=
  List.find (fun c => String.eqb (id c) campaignId) (campaigns st).

(** [cancelCampaign(campaignId)] *)
Definition cancelCampaign (campaignId : string) (st : State) : State :=
  match find_campaign campaignId st with
  | Some campaign =>
      if String.eqb (status campaign) "pending"
      then removeCampaignFromQueue campaignId st
      else st
  | None => st
  end.

(** [updateCampaignToPaused(campaignId)], run on a successful pause
    response *)
Definition updateCampaignToPaused (now : Z) (campaignId : string) (st : State) : State :=
  match find_campaign campaignId st with
  | Some _ =>
      let cs := mutate campaignId
                  (fun c => mkCampaign (id c) (name c) "paused" (progress c) (sent c)
                              (failed c) "Paused" (startedAt c) (completedAt c))
                  (campaigns st) in
      match activeCampaign st with
      | Some a =>
          if String.eqb a campaignId
          then startNextCampaign now (mkState (campaignCounter st) cs None (campaignQueue st))
          else mkState (campaignCounter st) cs (activeCampaign st) (campaignQueue st)
      | None => mkState (campaignCounter st) cs (activeCampaign st) (campaignQueue st)
      end
  | None => st
  end.

(** What the dashboard's scheduler reacts to.  [updateCampaignToActive]
    is left out: it runs on a successful resume response only. *)
Inductive Event :=
| Submitted (now : Z)
| SubmitFailed (campaignId : string)
| Cancelled (campaignId : string)
| Paused (now : Z) (campaignId : string)
| Completed (now : Z) (campaignId : option string) (success failures : nat).

(** The submit handlers up to the request: a new card, queued at once *)
Definition submit (now : Z) (st : State) : State :=
  let '(campaign, st1) := createCampaign st in
  addCampaignToQueue now (id campaign) st1.

Definition step (st : State) (e : Event) : State :=
  match e with
  | Submitted now => submit now st
  | SubmitFailed campaignId => removeCampaignFromQueue campaignId st
  | Cancelled campaignId => cancelCampaign campaignId st
  | Paused now campaignId => updateCampaignToPaused now campaignId st
  | Completed now campaignId success failures =>
      on_bulk_send_complete now campaignId success failures st
  end.

Definition run (es : list Event) (st : State) : State := fold_left step es st.

(** The id given to the [n]-th card *)
Definition card_id (n : nat) : string := "campaign_" ++ decimal n.

(** [updateCampaignToActive(campaignId)], run on a successful resume
    response *)
Definition updateCampaignToActive (campaignId : string) (st : State) : State :=
  match find_campaign campaignId st with
  | Some _ =>
      mkState (campaignCounter st)
        (mutate campaignId
           (fun c => mkCampaign (id c) (name c) "active" (progress c) (sent c)
                       (failed c) "Resuming..." (startedAt c) (completedAt c))
           (campaigns st))
        (match activeCampaign st with
         | Some a => Some a
         | None => Some campaignId
         end)
        (campaignQueue st)
  | None => st
  end.

(** Every call that writes [activeCampaign], [campaignQueue] or the list
    of cards: the events of [step], and a successful resume *)
Inductive Action :=
| Scheduled (e : Event)
| Resumed (campaignId : string).

Definition act (st : State) (a : Action) : State :=
  match a with
  | Scheduled e => step st e
  | Resumed campaignId => updateCampaignToActive campaignId st
  end.

Definition play (actions : list Action) (st : State) : State :=
  fold_left act actions st.

(** Strictly increasing numbers above [lo] *)
Fixpoint ascending (lo : nat) (ns : list nat) : Prop :=
  match ns with
  | [] => True
  | n :: ns' => lo < n /\ ascending n ns'
  end.

(** What the queue functions maintain: nothing waits while no campaign
    is active; the queue holds cards in the order of their numbers; ids
    are drawn from the counter; the active campaign is not queued *)
Definition queue_inv (st : State) : Prop :=
  (activeCampaign st = None -> campaignQueue st = [])
  /\ (exists ns, campaignQueue st = List.map card_id ns
                 /\ ascending 0 ns
                 /\ List.Forall (fun n => n <= campaignCounter st) ns)
  /\ (forall c, In c (campaigns st) ->
        exists n, n <= campaignCounter st /\ id c = card_id n)
  /\ (forall a, activeCampaign st = Some a ->
        (exists m, m <= campaignCounter st /\ a = card_id m)
        /\ ~ In a (campaignQueue st)).


End Dashboard.

(** ** Executions used in the statements *)

Module Scenario.
Import Server.

Definition newline : string := String (ascii_of_nat 10) EmptyString.

(** The server comes up: [initializeWhatsAppClient] at start, the
    browser opens its page and the session authenticates, the
    initialisation promise settles, the [ready] event arrives. *)
Definition boot : list Label :=
  [Startup; SessionOp (Some (mkClient true true)) false true; InitSettled; ClientReady].

(** Campaign [id] with the given recipient lines, default delay range *)
Definition submission (id : string) (numbers : list string) : UploadReq :=
  mkUploadReq (Some "hello") (Some "text") (Some id) None
    (Some (String.concat newline numbers)) (Some (mkFiles None None)).

Definition connected : Outcome := Resolved "CONNECTED".
Definition done : Outcome := Resolved "".

(** Campaign [c1], two recipients: the loop sends to the first and
    starts its pacing sleep (30 to 60 minutes with the default range) *)
Definition first_sent : list Label :=
  boot ++ [Upload (submission "c1" ["9876543210"; "9876543211"]);
           Advance 2000; FireTimer 0;
           Settle 0 connected; Advance 8000; Settle 0 done].

(** Five minutes into the pacing sleep the health check finds the
    campaign idle and restarts it: a second loop sends to the first
    recipient again and starts its own pacing sleep.  Five minutes
    later the same happens with a third loop. *)
Definition supervised : list Label :=
  first_sent ++
    [Advance 301000; HealthCheckTick; Advance 2000; FireTimer 1;
     Settle 1 connected; Advance 8000; Settle 1 done;
     Advance 301000; HealthCheckTick; Advance 2000; FireTimer 2;
     Settle 2 connected; Advance 8000; Settle 2 done].

(** The third loop wakes up, sends to the second recipient and
    completes the campaign *)
Definition supervised_done : list Label :=
  supervised ++
    [Advance 1800000; Settle 2 done; Settle 2 connected; Advance 5000;
     Settle 2 done; Advance 8000; Settle 2 done].

(** Pause after the first recipient; the loop wakes up from its pacing
    sleep and stops; resume; five minutes later the health check (which
    first probes the session, idle for more than ten minutes) restarts
    the campaign *)
Definition paused_at_1 : list Label :=
  first_sent ++ [Advance 60000; Pause (Some "c1")].

Definition resumed : list Label :=
  paused_at_1 ++ [Advance 1800000; Settle 0 done; Advance 60000; Resume (Some "c1")].

Definition resumed_restarted : list Label :=
  resumed ++ [Advance 301000; HealthCheckTick; Settle 1 connected;
              Advance 2000; FireTimer 1;
              Settle 2 connected; Advance 8000; Settle 2 done].

(** Two campaigns submitted one after the other: the loop of the first
    is started, then the loop of the second *)
Definition one_running : list Label :=
  boot ++ [Upload (submission "c1" ["9876543210"; "9876543211"]);
           Advance 1000;
           Upload (submission "c2" ["9876543212"; "9876543213"]);
           Advance 1000; FireTimer 0].

Definition two_campaigns : list Label := one_running ++ [Advance 1000; FireTimer 1].

(** A send that does not settle: two health checks, thirty seconds
    apart, both find the campaign idle *)
Definition wedged : list Label :=
  boot ++ [Upload (submission "c1" ["9876543210"; "9876543211"]);
           Advance 2000; FireTimer 0; Settle 0 connected;
           Advance 301000; HealthCheckTick].

Definition wedged_again : list Label := wedged ++ [Advance 30000; HealthCheckTick].

(** Send errors: one that the loop's [catch] block puts in the category
    [failed], and one that it puts in the category [connection] *)
Definition generic_error : string := "Evaluation failed: TypeError".

Definition sending_first : list Label :=
  boot ++ [Upload (submission "c1" ["9876543210"]);
           Advance 2000; FireTimer 0; Settle 0 connected].


(** Three keep-alive checks in a row fail while campaign [c1] is active
    and campaign [c2] is paused; the third one is still pending *)
Definition keepalive_failing : list Label :=
  two_campaigns ++
    [Pause (Some "c2");
     Advance 120000; KeepAliveTick; Settle 2 (Rejected "Protocol error");
     Advance 120000; KeepAliveTick; Settle 3 (Rejected "Protocol error");
     Advance 120000; KeepAliveTick].

(** What follows a pause of campaign [c1] requested while its first send
    is pending: the restart queued by the health check runs, the send
    succeeds, the pacing sleep ends *)
Definition after_pause : list Label :=
  [Advance 2000; FireTimer 1; Advance 6000; Settle 0 done;
   Advance 1800000; Settle 0 done].

(** A loop whose send has just failed with [msg] waits to retry *)
Definition retry_follows (st : State) (k : nat) (msg : string) : Prop :=
  exists t', jobs (step st (Settle k (Rejected msg))) !! k = Some (Loop t')
             /\ t_pc t' = AwaitRetryDelay.

(** Number of [campaign_stuck] events emitted for campaign [id] *)
Definition is_stuck_event (id : string) (o : Output) : bool :=
  match o with
  | Emit (campaign_stuck id' _ _) => String.eqb id id'
  | _ => false
  end.

Definition stuck_events (id : string) (st : State) : nat :=
  length (List.filter (is_stuck_event id) (out st)).

(** Restart timers queued for campaign [id] and not yet run *)
Definition is_restart_timer (id : string) (a : option TimerAction) : bool :=
  match a with
  | Some (TContinueCampaign id') => String.eqb id id'
  | _ => false
  end.

Definition pending_restarts (id : string) (st : State) : nat :=
  length (List.filter (is_restart_timer id) (timers st)).

(** Sends made for campaign [id] to the recipient at loop index [i] *)
Definition sends_to (id : string) (i : nat) (st : State) : nat :=
  length (List.filter (is_send_to id i) (out st)).

(** [sentCount + failedCount] and the number of recipients of an active
    campaign *)
Definition processed (id : string) (st : State) : option (nat * nat) :=
  match JsMap.get id (activeCampaigns st) with
  | Some c => Some (sentCount c + failedCount c, length (phoneNumbers c))
  | None => None
  end.

End Scenario.

(** ** Properties *)

Import Server.

(** *** Maps *)

Section JsMapFacts.
Context {V : Type}.
Implicit Types (m : JsMap.t V) (k : string) (v : V).

Lemma get_set_eq m k v : JsMap.get k (JsMap.set k v m) = Some v.
Proof.
  induction m as [|[k' v'] m IH]; simpl.
  - now rewrite String.eqb_refl.
  - destruct (String.eqb k k') eqn:E; simpl; rewrite E; auto.
Qed.

Lemma get_set_ne m k k' v : k <> k' -> JsMap.get k' (JsMap.set k v m) = JsMap.get k' m.
Proof.
  intros Hne. induction m as [|[k0 v0] m IH]; simpl.
  - destruct (String.eqb k' k) eqn:E; auto.
    apply String.eqb_eq in E. congruence.
  - destruct (String.eqb k k0) eqn:E; simpl.
    + apply String.eqb_eq in E. subst k0.
      destruct (String.eqb k' k) eqn:E'; auto.
      apply String.eqb_eq in E'. congruence.
    + now rewrite IH.
Qed.

Lemma get_delete_eq m k : JsMap.get k (JsMap.delete k m) = None.
Proof.
  induction m as [|[k' v'] m IH]; simpl; auto.
  destruct (String.eqb k k') eqn:E; simpl; auto. now rewrite E.
Qed.

Lemma get_delete_ne m k k' : k <> k' -> JsMap.get k' (JsMap.delete k m) = JsMap.get k' m.
Proof.
  intros Hne. induction m as [|[k0 v0] m IH]; simpl; auto.
  destruct (String.eqb k k0) eqn:E; simpl.
  - apply String.eqb_eq in E. subst k0.
    destruct (String.eqb k' k) eqn:E'; auto.
    apply String.eqb_eq in E'. congruence.
  - now rewrite IH.
Qed.

Lemma get_delete_none m k k' : JsMap.get k' m = None -> JsMap.get k' (JsMap.delete k m) = None.
Proof.
  intros H. destruct (String.eqb_spec k k') as [->|Hne].
  - apply get_delete_eq.
  - now rewrite get_delete_ne.
Qed.

Lemma get_update_eq m k (f : V -> V) : JsMap.get k (JsMap.update k f m) = f <$> JsMap.get k m.
Proof.
  unfold JsMap.update. destruct (JsMap.get k m) eqn:E; simpl.
  - apply get_set_eq.
  - exact E.
Qed.

Lemma get_update_ne m k k' (f : V -> V) :
  k <> k' -> JsMap.get k' (JsMap.update k f m) = JsMap.get k' m.
Proof.
  intros Hne. unfold JsMap.update. destruct (JsMap.get k m); auto.
  now apply get_set_ne.
Qed.

Lemma get_update_none m k k' (f : V -> V) :
  JsMap.get k' m = None -> JsMap.get k' (JsMap.update k f m) = None.
Proof.
  intros H. destruct (String.eqb_spec k k') as [->|Hne].
  - rewrite get_update_eq, H. reflexivity.
  - now rewrite get_update_ne.
Qed.
End JsMapFacts.

(** *** The validator *)

(** C6: the validator on the inputs of the specification.  A bare
    ten-digit number gets the prefix [91] and the suffix [@c.us], a number
    written with [+91] loses the [+], [abc] and [12345] are rejected at
    every row, and [Phone Number] is rejected in the first row. *)
Theorem C6_validator_examples (rowIndex : nat) :
  validateAndFormatPhoneNumber "9876543210" rowIndex = Some "919876543210@c.us"
  /\ validateAndFormatPhoneNumber "+919876543210" rowIndex = Some "919876543210@c.us"
  /\ validateAndFormatPhoneNumber "abc" rowIndex = None
  /\ validateAndFormatPhoneNumber "12345" rowIndex = None
  /\ validateAndFormatPhoneNumber "Phone Number" 0 = None.
Proof. destruct rowIndex; repeat split; reflexivity. Qed.

(** *** The resume handler *)

(** C3: a resume request for a campaign of the paused pool clears its
    pause flag and moves it to the active pool, then fails on the
    undeclared [getPendingPhoneNumbers]: the answer is a 500, the move
    stays, and no delivery loop and no timer is started. *)
Theorem C3_resume_fails_after_move (st : State) (id : string) (c : Campaign)
    (Hid : truthy (Some id) = true)
    (Hpaused : JsMap.get id (pausedCampaigns st) = Some c) :
  let st' := step st (Resume (Some id)) in
  JsMap.get id (activeCampaigns st') = Some (mark_resumed (now st) c)
  /\ isPaused (mark_resumed (now st) c) = false
  /\ JsMap.get id (pausedCampaigns st') = None
  /\ out st' = (out st ++ [Respond 500
       (body_error "Failed to resume campaign: getPendingPhoneNumbers is not defined")])%list
  /\ jobs st' = jobs st
  /\ timers st' = timers st
  /\ pausedCampaigns st' <> pausedCampaigns st.
Proof.
  simpl. unfold resume_campaign. rewrite Hid. simpl. rewrite Hpaused. simpl.
  repeat split.
  - apply get_set_eq.
  - apply get_delete_eq.
  - intros Heq. pose proof (get_delete_eq (pausedCampaigns st) id) as Hd.
    rewrite Heq, Hpaused in Hd. discriminate.
Qed.

Import Scenario.

(** C3 applied after the pause of campaign [c1] *)
Lemma C3_resume_witness :
  truthy (Some "c1") = true
  /\ (exists c, JsMap.get "c1" (pausedCampaigns (run paused_at_1 init)) = Some c)
  /\ JsMap.get "c1" (pausedCampaigns (step (run paused_at_1 init) (Resume (Some "c1")))) = None.
Proof.
  split; [reflexivity|].
  destruct (JsMap.get "c1" (pausedCampaigns (run paused_at_1 init))) as [c|] eqn:E;
    [|vm_compute in E; discriminate E].
  split; [exists c; reflexivity|].
  apply (C3_resume_fails_after_move (run paused_at_1 init) "c1" c); [reflexivity|exact E].
Defined.

(** *** Forced reconnection *)

Lemma forceReconnection_begin_frame (st : State) :
  activeCampaigns (forceReconnection_begin st) = activeCampaigns st
  /\ pausedCampaigns (forceReconnection_begin st) = pausedCampaigns st
  /\ isClientReady (forceReconnection_begin st) = false
  /\ isClientAuthenticated (forceReconnection_begin st) = false
  /\ connectionFailureCount (forceReconnection_begin st) = 0
  /\ client (forceReconnection_begin st) = client st.
Proof. repeat split. Qed.

Lemma forceReconnection_end_frame (st : State) :
  activeCampaigns (forceReconnection_end st) = activeCampaigns st
  /\ pausedCampaigns (forceReconnection_end st) = pausedCampaigns st
  /\ isClientReady (forceReconnection_end st) = isClientReady st
  /\ isClientAuthenticated (forceReconnection_end st) = isClientAuthenticated st
  /\ client (forceReconnection_end st) = None
  /\ timers (forceReconnection_end st) = (timers st ++ [Some TInitialize])%list.
Proof. repeat split. Qed.

(** C10: when a failed keep-alive check brings the failure counter to the
    maximum, forced reconnection clears the readiness flags and, once the
    session object is destroyed, drops it and schedules a new
    initialisation; the active and the paused pool are the same maps, with
    the same campaign objects, before and after. *)
Theorem C10_forced_reconnection_keeps_campaigns
    (st : State) (k : nat) (o o' : Outcome)
    (Hjob : jobs st !! k = Some (Monitor KeepAliveGetState))
    (Hfail : o <> Resolved "CONNECTED")
    (Hmax : MAX_CONNECTION_FAILURES <= S (connectionFailureCount st)) :
  let st1 := step st (Settle k o) in
  let st2 := step st1 (Settle k o') in
  (isClientReady st1 = false /\ isClientAuthenticated st1 = false
   /\ activeCampaigns st1 = activeCampaigns st
   /\ pausedCampaigns st1 = pausedCampaigns st)
  /\ (isClientReady st2 = false /\ isClientAuthenticated st2 = false
      /\ client st2 = None
      /\ In (Some TInitialize) (timers st2)
      /\ activeCampaigns st2 = activeCampaigns st
      /\ pausedCampaigns st2 = pausedCampaigns st).
Proof.
  assert (Hk : k < length (jobs st)) by (apply lookup_lt_is_Some; eauto).
  assert (Hcase : step st (Settle k o)
            = match client st with
              | Some _ => set_jobs (<[k := Monitor KeepAliveDestroy]> (jobs st))
                            (forceReconnection_begin
                               (set_failures (S (connectionFailureCount st)) st))
              | None => set_jobs (<[k := Monitor MonitorDone]> (jobs st))
                          (forceReconnection_noclient
                             (forceReconnection_begin
                                (set_failures (S (connectionFailureCount st)) st)))
              end).
  { unfold MAX_CONNECTION_FAILURES in Hmax.
    destruct (connectionFailureCount st) as [|[|n]] eqn:Hn; [lia|lia|].
    simpl. unfold settle. rewrite Hjob. simpl. rewrite Hn.
    destruct o as [state|msg].
    - destruct (String.eqb_spec state "CONNECTED") as [->|Hne]; [congruence|].
      simpl. destruct (client st); reflexivity.
    - simpl. destruct (client st); reflexivity. }
  cbv zeta. rewrite Hcase. destruct (client st) as [c|] eqn:Hc.
  - split; [repeat split|].
    simpl. unfold settle. simpl. rewrite list_lookup_insert_eq by exact Hk. simpl.
    repeat split. apply in_or_app. right. left. reflexivity.
  - split; [repeat split|].
    simpl. unfold settle. simpl. rewrite list_lookup_insert_eq by exact Hk. simpl.
    repeat split; [exact Hc|]. apply in_or_app. right. left. reflexivity.
Qed.

(** C10 applied to the third failed keep-alive check in a row *)
Lemma C10_forced_reconnection_witness :
  let st := run keepalive_failing init in
  jobs st !! 4 = Some (Monitor KeepAliveGetState)
  /\ Rejected "Protocol error" <> Resolved "CONNECTED"
  /\ MAX_CONNECTION_FAILURES <= S (connectionFailureCount st)
  /\ activeCampaigns (step (step st (Settle 4 (Rejected "Protocol error"))) (Settle 4 done))
     = activeCampaigns st
  /\ pausedCampaigns (step (step st (Settle 4 (Rejected "Protocol error"))) (Settle 4 done))
     = pausedCampaigns st.
Proof.
  cbv zeta.
  assert (H1 : jobs (run keepalive_failing init) !! 4 = Some (Monitor KeepAliveGetState))
    by (vm_compute; reflexivity).
  assert (H2 : Rejected "Protocol error" <> Resolved "CONNECTED") by discriminate.
  assert (H3 : MAX_CONNECTION_FAILURES <= S (connectionFailureCount (run keepalive_failing init)))
    by (vm_compute; lia).
  pose proof (C10_forced_reconnection_keeps_campaigns _ 4 _ done H1 H2 H3) as H.
  cbv zeta in H. destruct H as (_ & _ & _ & _ & _ & Ha & Hp).
  exact (conj H1 (conj H2 (conj H3 (conj Ha Hp)))).
Defined.

(** *** Restarts *)

(** Closed statements about the executions of [Scenario] are decided by
    running the model. *)
Ltac by_evaluation :=
  repeat match goal with |- _ /\ _ => split end;
  vm_compute;
  first [reflexivity | repeat first [left; reflexivity | right]].

(** C1, the code on the execution [supervised]: campaign [c1] has two
    recipients; the health check restarts it twice during pacing sleeps
    and each restart sends to the first recipient again, so the counters
    add up to 3; when the last loop completes the campaign its summary
    reports 4 sent out of 2. *)
Theorem C1_restart_counts_recipients_again :
  processed "c1" (run first_sent init) = Some (1, 2)
  /\ processed "c1" (run supervised init) = Some (3, 2)
  /\ In (Emit (bulk_send_complete 2 4 0 (Some (0, 0, 0)) (Some "c1")))
        (out (run supervised_done init)).
Proof. by_evaluation. Qed.

(** C2, the code on the execution [resumed_restarted]: campaign [c1] is
    paused after its first recipient and resumed; the loop that the
    health check then starts sends to the recipient at index 0 a second
    time and counts it a second time, and has not reached index 1. *)
Theorem C2_resume_restarts_from_first_recipient :
  processed "c1" (run resumed init) = Some (1, 2)
  /\ sends_to "c1" 0 (run resumed init) = 1
  /\ sends_to "c1" 0 (run resumed_restarted init) = 2
  /\ sends_to "c1" 1 (run resumed_restarted init) = 0
  /\ processed "c1" (run resumed_restarted init) = Some (2, 2).
Proof. by_evaluation. Qed.

(** C8, the code on the executions [wedged] and [wedged_again]: two
    health checks thirty seconds apart find campaign [c1] idle, nothing
    having changed in between, and each of them emits [campaign_stuck]
    and queues a restart. *)
Theorem C8_every_check_restarts_a_stale_campaign :
  activeCampaigns (run wedged_again init) = activeCampaigns (run wedged init)
  /\ stuck_events "c1" (run wedged init) = 1
  /\ pending_restarts "c1" (run wedged init) = 1
  /\ stuck_events "c1" (run wedged_again init) = 2
  /\ pending_restarts "c1" (run wedged_again init) = 2.
Proof. by_evaluation. Qed.

(** C4, the code on two submissions made one second apart from the
    dashboard: the dashboard starts the first card and keeps the second
    in its queue with status [pending], but it has posted both, and the
    server, which keeps no queue, starts a delivery loop for each: two
    seconds after the second submission the loops of both campaigns are
    iterating side by side, each waiting for its first send to be
    validated. *)
Theorem C4_second_submission_starts_a_second_loop :
  let d := Dashboard.run [Dashboard.Submitted 0; Dashboard.Submitted 1000]
             Dashboard.init in
  let st := run (boot ++ [Upload (submission "campaign_1" ["9876543210"; "9876543211"]);
                          Advance 1000;
                          Upload (submission "campaign_2" ["9876543212"; "9876543213"]);
                          Advance 1000; FireTimer 0; Advance 1000; FireTimer 1]) init in
  Dashboard.activeCampaign d = Some "campaign_1"
  /\ Dashboard.campaignQueue d = ["campaign_2"]
  /\ List.map Dashboard.status (Dashboard.campaigns d) = ["active"; "pending"]
  /\ executing st = ["campaign_1"; "campaign_2"]
  /\ List.map executing_job (jobs st) = [Some "campaign_1"; Some "campaign_2"]
  /\ executing (run two_campaigns init) = ["c1"; "c2"].
Proof. cbv zeta. by_evaluation. Qed.


(** A send error of the category [failed] is followed by a retry as
    well, like one of the category [connection] *)
Lemma general_failure_retried :
  ~ (forall ls k t msg,
       jobs (run ls init) !! k = Some (Loop t) -> t_pc t = AwaitSend ->
       retry_follows (run ls init) k msg -> fst (classify msg) = "connection").
Proof.
  intros H.
  pose (ls := sending_first).
  destruct (jobs (run ls init) !! 0) as [[t|pc]|] eqn:Hjob;
    [|vm_compute in Hjob; discriminate Hjob..].
  assert (Hpc : t_pc t = AwaitSend).
  { vm_compute in Hjob. injection Hjob as <-. reflexivity. }
  assert (Hr : fst (classify generic_error) = "connection").
  { apply (H ls 0 t generic_error Hjob Hpc).
    unfold retry_follows.
    destruct (jobs (step (run ls init) (Settle 0 (Rejected generic_error))) !! 0)
      as [[t'|pc']|] eqn:Hjob'; [|vm_compute in Hjob'; discriminate Hjob'..].
    exists t'. split; [reflexivity|].
    vm_compute in Hjob'. injection Hjob' as <-. reflexivity. }
  vm_compute in Hr. discriminate Hr.
Qed.

(** *** The dashboard queue *)

Section DashboardFacts.
Import Dashboard.

Lemma card_id_inj (n m : nat) : card_id n = card_id m -> n = m.
Proof.
  unfold card_id, decimal. intros H. simpl in H.
  injection H as H.
  apply Unsigned.to_uint_inj.
  pose proof (NilEmpty.usu (Nat.to_uint n)) as Hn.
  pose proof (NilEmpty.usu (Nat.to_uint m)) as Hm.
  rewrite H in Hn. congruence.
Qed.

Lemma in_mutate (i : string) (f : Campaign -> Campaign) (cs : list Campaign) (c' : Campaign) :
  In c' (mutate i f cs) ->
  exists c, In c cs /\ c' = if String.eqb (id c) i then f c else c.
Proof. unfold mutate. rewrite in_map_iff. intros (c & <- & Hin). eauto. Qed.

Lemma in_remove_first {A : Type} (p : A -> bool) (l : list A) (x : A) :
  In x (remove_first p l) -> In x l.
Proof.
  induction l as [|y l IH]; simpl; auto.
  destruct (p y); simpl; intuition.
Qed.

End DashboardFacts.

(** *** Frames of the delivery loop *)

Lemma untouched_refl (st : State) : untouched st st.
Proof. repeat split. Qed.

Lemma untouched_trans (st1 st2 st3 : State) :
  untouched st1 st2 -> untouched st2 st3 -> untouched st1 st3.
Proof.
  intros (A1 & P1 & J1 & N1 & O1) (A2 & P2 & J2 & N2 & O2).
  repeat split; try congruence. intros p Hp. rewrite O2, O1; auto.
Qed.

Lemma filter_output (p : Output -> bool) (o : Output) (st : State) :
  List.filter p (out (output o st)) = (List.filter p (out st) ++ List.filter p [o])%list.
Proof. simpl. apply List.filter_app. Qed.

Lemma filter_quiet (p : Output -> bool) (o : Output) (st : State) :
  on_sends p -> is_send o = false ->
  List.filter p (out (output o st)) = List.filter p (out st).
Proof.
  intros Hp Ho. rewrite filter_output. simpl. rewrite (Hp o Ho).
  apply List.app_nil_r.
Qed.

Lemma untouched_output (o : Output) (st : State) :
  is_send o = false -> untouched st (output o st).
Proof. intros Ho. repeat split. intros p Hp. now apply filter_quiet. Qed.

Lemma untouched_unlink (path : option string) (st : State) :
  untouched st (unlink path st).
Proof. destruct path; [now apply untouched_output|apply untouched_refl]. Qed.

Lemma untouched_forceReconnection_begin (st : State) :
  untouched st (forceReconnection_begin st).
Proof.
  repeat split. intros p Hp. unfold forceReconnection_begin, emit.
  rewrite filter_quiet by auto. reflexivity.
Qed.

Lemma untouched_forceReconnection_end (st : State) :
  untouched st (forceReconnection_end st).
Proof. repeat split. Qed.

Lemma untouched_validateConnection_catch (err : string) (st : State) :
  untouched st (state_of (validateConnection_catch err st)).
Proof.
  unfold validateConnection_catch.
  destruct (MAX_CONNECTION_FAILURES <=? _); [|repeat split].
  destruct (client _); simpl state_of.
  - eapply untouched_trans; [|apply untouched_forceReconnection_begin]. repeat split.
  - eapply untouched_trans; [|repeat split].
    eapply untouched_trans; [|apply untouched_forceReconnection_begin]. repeat split.
Qed.

Lemma untouched_validateConnection_begin (st : State) :
  untouched st (state_of (validateConnection_begin st)).
Proof.
  unfold validateConnection_begin. destruct (client st) as [c|]; [|apply untouched_refl].
  destruct (negb _ || negb _); [apply untouched_refl|].
  destruct (negb (pupPage c)); [|apply untouched_refl].
  apply untouched_validateConnection_catch.
Qed.

Lemma untouched_validateConnection_settle (o : Outcome) (st : State) :
  untouched st (state_of (validateConnection_settle o st)).
Proof.
  destruct o as [state|msg]; simpl.
  - destruct (String.eqb state "CONNECTED"); [repeat split|].
    apply untouched_validateConnection_catch.
  - apply untouched_validateConnection_catch.
Qed.

Lemma validateConnection_begin_not_ok (st st' : State) :
  validateConnection_begin st <> VOk st'.
Proof.
  unfold validateConnection_begin, validateConnection_catch.
  destruct (client st) as [c|]; [|discriminate].
  destruct (negb _ || negb _); [discriminate|].
  destruct (negb (pupPage c)); [|discriminate].
  destruct (MAX_CONNECTION_FAILURES <=? _); [|discriminate].
  destruct (client _); discriminate.
Qed.

Lemma same_call_refl (t : Task) : same_call t t.
Proof. repeat split. Qed.

Lemma same_call_trans (t1 t2 t3 : Task) :
  same_call t1 t2 -> same_call t2 t3 -> same_call t1 t3.
Proof. unfold same_call. intuition congruence. Qed.

Lemma same_call_campaign (t t' : Task) : same_call t t' -> campaign_of t' = campaign_of t.
Proof. intros (_ & _ & H & _). unfold campaign_of. now rewrite H. Qed.

Lemma advances_refl (t : Task) (st : State) : advances t st (t, st).
Proof. repeat split; auto. Qed.

Lemma advances_trans (t t1 : Task) (st st1 : State) (r2 : Task * State) :
  advances t st (t1, st1) -> advances t1 st1 r2 -> advances t st r2.
Proof.
  intros (C1 & I1 & P1 & J1 & N1 & A1 & B1 & O1) (C2 & I2 & P2 & J2 & N2 & A2 & B2 & O2).
  simpl in *.
  split; [eapply same_call_trans; eauto|].
  split; [lia|].
  repeat split; try congruence.
  - intros id H. auto.
  - intros id H. rewrite B2, B1; auto. now rewrite (same_call_campaign _ _ C1).
  - intros p Hp. rewrite O2, O1; auto.
Qed.

(** A change of the session state only, seen from a loop *)
Lemma advances_untouched (t t' : Task) (st st' : State) :
  same_call t t' -> t_i t <= t_i t' -> untouched st st' -> advances t st (t', st').
Proof.
  intros Hc Hi (A & P & J & N & O). repeat split; simpl; try apply Hc; auto; intros; congruence.
Qed.

Lemma untouched_with_campaign_out (t : Task) (f : Campaign -> Campaign) (st : State) :
  out (with_campaign t f st) = out st.
Proof. unfold with_campaign. destruct (campaign_of t); reflexivity. Qed.

Lemma advances_with_campaign (t t' : Task) (f : Campaign -> Campaign) (st : State) :
  same_call t t' -> t_i t <= t_i t' -> advances t st (t', with_campaign t f st).
Proof.
  intros Hc Hi. unfold with_campaign.
  destruct (campaign_of t) as [id|] eqn:E; [|apply advances_untouched; auto using untouched_refl].
  repeat split; simpl; try apply Hc; auto.
  - intros id' H. now apply get_update_none.
  - intros id' H. apply get_update_ne. congruence.
Qed.

Lemma advances_output (t t' : Task) (st st' : State) (o : Output) :
  is_send o = false -> advances t st (t', st') -> advances t st (t', output o st').
Proof.
  intros Ho H. eapply advances_trans; [exact H|].
  apply advances_untouched; [apply same_call_refl|lia|now apply untouched_output].
Qed.

Lemma advances_catch_block (err : string) (t : Task) (st : State) :
  advances t st (catch_block err t st) /\ t_i (fst (catch_block err t st)) = t_i t.
Proof.
  unfold catch_block. destruct (classify err) as [category msg]. split; [|reflexivity].
  apply advances_output; [reflexivity|].
  apply advances_with_campaign; [repeat split|simpl; lia].
Qed.

Lemma advances_upload_resume (total : nat) (s : Summary) (t : Task) (st : State) :
  advances t st (upload_resume total s t st).
Proof.
  unfold upload_resume. destruct (closeChromeBrowser_waits _).
  - apply advances_output; [reflexivity|].
    apply advances_untouched; [repeat split|simpl; lia|apply untouched_refl].
  - unfold upload_finish, respond, unlink. apply advances_output; [reflexivity|].
    destruct (uploaded_media t); [apply advances_output; [reflexivity|]|];
      (apply advances_output; [reflexivity|];
       apply advances_untouched; [repeat split|simpl; lia|apply untouched_refl]).
Qed.

Lemma advances_returned (s : Summary) (t : Task) (st : State) :
  advances t st (returned s t st).
Proof.
  unfold returned. destruct (t_caller t).
  - apply advances_untouched; [repeat split|simpl; lia|apply untouched_refl].
  - apply advances_upload_resume.
Qed.

Lemma advances_complete (t : Task) (st : State) : advances t st (complete t st).
Proof.
  unfold complete. destruct (campaign_of t) as [id|] eqn:Ec; [|apply advances_returned].
  destruct (JsMap.get id (activeCampaigns st)) as [c|] eqn:Eg; [|apply advances_returned].
  set (st1 := set_active _ st).
  assert (H1 : advances t st (t, st1)).
  { repeat split; simpl; auto.
    - intros id' H. now apply get_delete_none.
    - intros id' H. apply get_delete_ne. congruence. }
  set (st2 := emit _ st1).
  assert (H2 : advances t st (t, st2)) by (apply advances_output; auto).
  set (st3 := match mediaFile c with Some (mkMedia (Some path) _) => _ | _ => st2 end).
  assert (H3 : advances t st (t, st3)).
  { unfold st3. destruct (mediaFile c) as [[[path|] fn]|]; auto.
    apply advances_output; auto. }
  destruct (closeChromeBrowser_waits st3).
  - eapply advances_trans; [exact H3|].
    apply advances_untouched; [repeat split|simpl; lia|apply untouched_refl].
  - eapply advances_trans; [exact H3|]. apply advances_returned.
Qed.

Lemma advances_between (between : State -> State) (t t' : Task) (st st' : State) :
  benign between -> advances t st (t', st') -> advances t st (t', between st').
Proof.
  intros Hb H. destruct (Hb st') as [->|(code & b & ->)]; [assumption|].
  now apply advances_output.
Qed.

Lemma benign_id : benign (fun s => s).
Proof. intros st. now left. Qed.

Lemma head_spec (t : Task) (st : State) :
  match head t st with
  | HStop st' => st' = st
  | HChecked v => advances t st (t, state_of v) /\ forall s, v <> VOk s
  end.
Proof.
  unfold head. destruct (campaign_of t) as [id|] eqn:Ec.
  - destruct (JsMap.get id (activeCampaigns st)) as [c|] eqn:Eg; [|reflexivity].
    destruct (isPaused c); [reflexivity|].
    split; [|intros s; apply validateConnection_begin_not_ok].
    set (st1 := set_active _ st).
    apply (advances_trans t t st st1).
    + repeat split; simpl; auto.
      * intros id' H. rewrite get_set_ne; auto. congruence.
      * intros id' H. apply get_set_ne. congruence.
    + apply advances_untouched; [apply same_call_refl|simpl; lia|].
      apply untouched_validateConnection_begin.
  - split; [|intros s; apply validateConnection_begin_not_ok].
    apply advances_untouched; [apply same_call_refl|lia|].
    apply untouched_validateConnection_begin.
Qed.

Lemma iterate_spec (rest : list string) :
  forall between k t st, benign between ->
    advances t st (iterate between k rest t st)
    /\ at_head (t_pc (fst (iterate between k rest t st))) = true.
Proof.
  induction rest as [|p rest IH]; intros between k t st Hb; simpl.
  - destruct (complete t st) as [t' st'] eqn:E. simpl. split.
    + apply advances_between; [exact Hb|].
      rewrite <- E. apply advances_complete.
    + assert (Hpc : at_head (t_pc (fst (complete t st))) = true).
      { unfold complete, returned, upload_resume.
        repeat match goal with
               | |- context [match ?x with _ => _ end] => destruct x
               end; reflexivity. }
      now rewrite E in Hpc.
  - pose proof (head_spec t st) as Hh.
    destruct (head t st) as [st'|[st'|err st'|st'|err st']].
    + subst st'. split; [|reflexivity].
      apply advances_between; [exact Hb|].
      apply advances_untouched; [repeat split|simpl; lia|apply untouched_refl].
    + destruct Hh as [_ Hh]. now destruct (Hh st').
    + destruct Hh as [Hh _]. simpl in Hh.
      pose proof (advances_catch_block err t (between st')) as [Hc Hi].
      destruct (catch_block err t (between st')) as [t1 st1] eqn:E.
      specialize (IH (fun s => s) k (next_i t1) st1 benign_id) as [IH1 IH2].
      split; [|exact IH2].
      eapply advances_trans; [apply advances_between; eauto|].
      eapply advances_trans; [exact Hc|].
      eapply advances_trans; [|exact IH1].
      apply advances_untouched; [repeat split|simpl; lia|apply untouched_refl].
    + destruct Hh as [Hh _]. simpl in Hh. split; [|reflexivity].
      apply advances_between; [exact Hb|].
      eapply advances_trans; [exact Hh|].
      apply advances_untouched; [repeat split|simpl; lia|apply untouched_refl].
    + destruct Hh as [Hh _]. simpl in Hh. split; [|reflexivity].
      apply advances_between; [exact Hb|].
      eapply advances_trans; [exact Hh|].
      apply advances_untouched; [repeat split|simpl; lia|apply untouched_refl].
Qed.

Lemma loop_head_spec (between : State -> State) (k : nat) (t : Task) (st : State) :
  benign between ->
  advances t st (loop_head between k t st)
  /\ at_head (t_pc (fst (loop_head between k t st))) = true.
Proof. intros Hb. now apply iterate_spec. Qed.

Lemma next_iteration_spec (k : nat) (t : Task) (st : State) :
  advances t st (next_iteration k t st)
  /\ t_i t < t_i (fst (next_iteration k t st))
  /\ at_head (t_pc (fst (next_iteration k t st))) = true.
Proof.
  unfold next_iteration.
  destruct (loop_head_spec (fun s => s) k (next_i t) st benign_id) as [H1 H2].
  split; [|split; [|exact H2]].
  - eapply advances_trans; [|exact H1].
    apply advances_untouched; [repeat split|simpl; lia|apply untouched_refl].
  - destruct H1 as (_ & Hi & _). simpl in Hi. lia.
Qed.


(** A loop whose campaign is not in the active pool stops at the top of
    the next iteration *)
Lemma iterate_absent (between : State -> State) (k : nat) (rest : list string)
    (t : Task) (st : State) (id : string) :
  campaign_of t = Some id -> JsMap.get id (activeCampaigns st) = None ->
  iterating (t_pc (fst (iterate between k rest t st))) = false.
Proof.
  intros Hc Hg. destruct rest as [|p rest]; simpl.
  - unfold complete. rewrite Hc, Hg. unfold returned, upload_resume.
    destruct (t_caller t); [reflexivity|].
    destruct (closeChromeBrowser_waits _); reflexivity.
  - unfold head. rewrite Hc, Hg. reflexivity.
Qed.

Lemma next_iteration_absent (k : nat) (t : Task) (st : State) (id : string) :
  campaign_of t = Some id -> JsMap.get id (activeCampaigns st) = None ->
  iterating (t_pc (fst (next_iteration k t st))) = false.
Proof. intros Hc Hg. unfold next_iteration, loop_head. now apply (iterate_absent _ _ _ _ _ id). Qed.

Lemma failed_absent (k : nat) (err : string) (t : Task) (st : State) (id : string) :
  campaign_of t = Some id -> JsMap.get id (activeCampaigns st) = None ->
  iterating (t_pc (fst (failed k err t st))) = false.
Proof.
  intros Hc Hg. unfold failed.
  pose proof (advances_catch_block err t st) as [(Hs & _ & _ & _ & _ & Hn & _) _].
  destruct (catch_block err t st) as [t1 st1]. simpl in *.
  apply (next_iteration_absent _ _ _ id); auto.
  now rewrite (same_call_campaign _ _ Hs).
Qed.

Lemma at_head_not_sending (t : Task) : at_head (t_pc t) = true -> sending t = false.
Proof. unfold sending. destruct (t_pc t) as [[]|[]| | | | | | |]; simpl; congruence. Qed.

Lemma next_iteration_moves (k : nat) (t t1 : Task) (st st1 : State) :
  advances t st (t1, st1) -> t_i t1 = t_i t ->
  let r := next_iteration k t1 st1 in
  advances t st r /\ sending (fst r) = false /\ (moved t st r \/ stayed t r).
Proof.
  intros Ha Hi r. destruct (next_iteration_spec k t1 st1) as (H1 & H2 & H3).
  split; [eapply advances_trans; eauto|].
  split; [now apply at_head_not_sending|]. left.
  split; [unfold r; lia|]. split; [exact H3|].
  intros id Hc Hg. destruct Ha as (Hs & _ & _ & _ & _ & Hn & _). simpl in *.
  apply (next_iteration_absent _ _ _ id); auto.
  now rewrite (same_call_campaign _ _ Hs).
Qed.

Lemma failed_moves (k : nat) (err : string) (t : Task) (st st1 : State) :
  untouched st st1 ->
  let r := failed k err t st1 in
  advances t st r /\ sending (fst r) = false /\ (moved t st r \/ stayed t r).
Proof.
  intros Hu r. unfold r, failed.
  pose proof (advances_catch_block err t st1) as [Hc Hi].
  destruct (catch_block err t st1) as [t2 st2]. simpl in Hi.
  apply next_iteration_moves; [|exact Hi].
  eapply advances_trans; [|exact Hc].
  apply advances_untouched; [apply same_call_refl|lia|exact Hu].
Qed.

Lemma begin_send_sending (k : nat) (t : Task) (st : State) :
  sending (fst (begin_send k t st)) = true.
Proof. reflexivity. Qed.

Lemma validateConnection_settle_not_getState (o : Outcome) (st st' : State) :
  validateConnection_settle o st <> VGetState st'.
Proof.
  assert (H : forall err, validateConnection_catch err st <> VGetState st').
  { intros err. unfold validateConnection_catch.
    destruct (MAX_CONNECTION_FAILURES <=? _); [|discriminate].
    destruct (client _); discriminate. }
  destruct o as [state|msg]; simpl; [|apply H].
  destruct (String.eqb state "CONNECTED"); [discriminate|apply H].
Qed.

Lemma untouched_closeChromeBrowser_end (o : Outcome) (st : State) :
  untouched st (closeChromeBrowser_end o st).
Proof.
  unfold closeChromeBrowser_end. destruct o; [|apply untouched_refl].
  destruct (client st); repeat split.
Qed.

(** What a settlement does to a loop *)
Lemma resume_settled (k : nat) (o : Outcome) (t : Task) (st : State) :
  settled k t st (resume k o t st).
Proof.
  unfold resume, try_resume.
  destruct (t_pc t) as [site|site err| | | | |s|total s|r] eqn:Epc.
  - (* validateConnection settles *)
    pose proof (untouched_validateConnection_settle o st) as Hu.
    pose proof (validateConnection_settle_not_getState o st) as Hno.
    destruct (validateConnection_settle o st) as [st1|err st1|st1|err st1];
      simpl in Hu; simpl after_validation; cbv iota.
    + destruct site; simpl validated.
      * destruct ((0 <? t_i t) || (0 <? t_startIndex t)).
        -- left. split; [|split; [reflexivity|]].
           ++ apply advances_output; [reflexivity|].
              apply advances_untouched; [repeat split|simpl; lia|exact Hu].
           ++ right. unfold stayed. simpl. rewrite Epc. repeat split.
        -- right. exists (with_sendAttempts 0 t), st1.
           split; [apply advances_untouched; [repeat split|simpl; lia|exact Hu]|].
           repeat split. left. auto.
      * right. exists t, st1.
        split; [apply advances_untouched; [repeat split|simpl; lia|exact Hu]|].
        repeat split. right. auto.
    + left. now apply failed_moves.
    + now destruct (Hno st1).
    + left. split; [|split; [reflexivity|]].
      * apply advances_untouched; [repeat split|simpl; lia|exact Hu].
      * right. unfold stayed. simpl. rewrite Epc. destruct site; repeat split.
  - left. apply failed_moves. apply untouched_forceReconnection_end.
  - right. exists (with_sendAttempts 0 t), st.
    split; [apply advances_untouched; [repeat split|simpl; lia|apply untouched_refl]|].
    repeat split. left. auto.
  - destruct o as [v|msg].
    + unfold sent.
      set (t1 := push_sent _ t). set (st2 := emit (message_sent _ _ _ _ _ _) _).
      assert (H2 : advances t st (t1, st2)).
      { apply advances_output; [reflexivity|].
        apply advances_with_campaign; [repeat split|simpl; lia]. }
      destruct (S (t_i t) <? length (t_phoneNumbers t)).
      * left. split; [|split; [reflexivity|]].
        -- apply advances_output; [reflexivity|].
           eapply advances_trans; [exact H2|].
           apply advances_untouched; [repeat split|simpl; lia|apply untouched_refl].
        -- right. unfold stayed. simpl. rewrite Epc. repeat split.
      * left. now apply next_iteration_moves.
    + unfold send_failed. destruct (isNumberUnavailableError msg).
      * left. apply failed_moves. apply untouched_refl.
      * destruct (t_sendAttempts t <? maxAttempts) eqn:En.
        -- left. split; [|split; [reflexivity|]].
           ++ apply advances_untouched; [repeat split|simpl; lia|apply untouched_refl].
           ++ right. unfold stayed. simpl. rewrite Epc. repeat split.
              now apply Nat.ltb_lt.
        -- left. apply failed_moves. apply untouched_refl.
  - pose proof (untouched_validateConnection_begin st) as Hu.
    pose proof (validateConnection_begin_not_ok st) as Hno.
    destruct (validateConnection_begin st) as [st1|err st1|st1|err st1];
      simpl in Hu; simpl after_validation; cbv iota.
    + now destruct (Hno st1).
    + left. now apply failed_moves.
    + left. split; [|split; [reflexivity|]].
      * apply advances_untouched; [repeat split|simpl; lia|exact Hu].
      * right. unfold stayed. simpl. rewrite Epc. repeat split.
    + left. split; [|split; [reflexivity|]].
      * apply advances_untouched; [repeat split|simpl; lia|exact Hu].
      * right. unfold stayed. simpl. rewrite Epc. repeat split.
  - left. apply next_iteration_moves; [apply advances_refl|reflexivity].
  - left. pose proof (untouched_closeChromeBrowser_end o st) as Hu.
    split; [|split].
    + eapply advances_trans; [|apply advances_returned].
      apply advances_untouched; [apply same_call_refl|lia|exact Hu].
    + unfold returned, upload_resume. destruct (t_caller t); [reflexivity|].
      destruct (closeChromeBrowser_waits _); reflexivity.
    + right. unfold stayed. rewrite Epc. unfold returned, upload_resume.
      destruct (t_caller t); [repeat split|].
      destruct (closeChromeBrowser_waits _); repeat split.
  - left. pose proof (untouched_closeChromeBrowser_end o st) as Hu.
    split; [|split; [reflexivity|]].
    + unfold upload_finish, respond. apply advances_output; [reflexivity|].
      apply advances_untouched; [repeat split|simpl; lia|].
      eapply untouched_trans; [exact Hu|apply untouched_unlink].
    + right. unfold stayed. simpl. rewrite Epc. repeat split.
  - left. split; [apply advances_refl|]. split.
    + unfold sending. simpl. now rewrite Epc.
    + right. unfold stayed. simpl. rewrite Epc. repeat split.
Qed.

(** *** The shape of a transition *)

Lemma calm_refl (l : Label) (st : State) : calm l st st.
Proof. split; auto. Qed.

Lemma calm_trans (l : Label) (st1 st2 st3 : State) :
  calm l st1 st2 -> calm l st2 st3 -> calm l st1 st3.
Proof.
  intros [O1 A1] [O2 A2]. split.
  - intros p Hp. rewrite O2, O1; auto.
  - intros id Hl Hg. auto.
Qed.

Lemma calm_untouched (l : Label) (st st' : State) : untouched st st' -> calm l st st'.
Proof. intros (A & _ & _ & _ & O). split; [exact O|]. intros id _ Hg. congruence. Qed.

Lemma calm_output (l : Label) (st st' : State) (o : Output) :
  is_send o = false -> calm l st st' -> calm l st (output o st').
Proof.
  intros Ho H. eapply calm_trans; [exact H|].
  apply calm_untouched. now apply untouched_output.
Qed.

Lemma calm_between (l : Label) (between : State -> State) (st st' : State) :
  benign between -> calm l st st' -> calm l st (between st').
Proof.
  intros Hb H. destruct (Hb st') as [->|(code & b & ->)]; [assumption|].
  now apply calm_output.
Qed.

Lemma benign_jobs (between : State -> State) (st : State) :
  benign between -> jobs (between st) = jobs st.
Proof. intros Hb. destruct (Hb st) as [->|(code & b & ->)]; reflexivity. Qed.

Lemma spawn_shape (l : Label) (st0 st : State) (phones : list string) (msg : string)
    (cid : option string) (start : nat) (delay : string) (media : option Media)
    (caller : Caller) (between : State -> State) :
  calm l st0 st -> jobs st = jobs st0 -> benign between ->
  (forall id, (if truthy cid then cid else None) = Some id ->
              JsMap.get id (activeCampaigns st) <> None) ->
  step_shape st0 l (spawn phones msg cid start delay media caller between st).
Proof.
  intros Hc Hj Hb Hcid. unfold spawn.
  set (t0 := mkTask _ _ _ _ _ _ _ _ _ _ _ _ _).
  destruct (loop_head_spec between (length (jobs st)) t0 st Hb) as [Ha _].
  destruct (loop_head between (length (jobs st)) t0 st) as [t' st'] eqn:E.
  destruct Ha as (_ & _ & _ & Hjobs & _). simpl in Hjobs.
  rewrite Hjobs, Hj. rewrite Hj in E.
  eapply shape_spawn; eauto; [reflexivity|exact Hcid].
Qed.

Lemma continueCampaign_shape (l : Label) (st0 st : State) (id : string)
    (between : State -> State) :
  calm l st0 st -> jobs st = jobs st0 -> benign between ->
  step_shape st0 l (continueCampaign id between st).
Proof.
  intros Hc Hj Hb. unfold continueCampaign.
  destruct (JsMap.get id (activeCampaigns st)) as [c|] eqn:Eg.
  2:{ apply shape_env; [now apply calm_between|]. now rewrite benign_jobs. }
  destruct (isPaused c).
  { apply shape_env; [now apply calm_between|]. now rewrite benign_jobs. }
  destruct (negb _ || negb _).
  { apply shape_env; [|now rewrite benign_jobs].
    apply calm_between; [assumption|].
    eapply calm_trans; [exact Hc|]. apply calm_untouched. repeat split. }
  apply spawn_shape; auto.
  - now apply calm_output.
  - intros id' H. simpl in H. destruct (negb (String.eqb id "")); [|discriminate].
    injection H as <-. simpl. congruence.
Qed.

Lemma calm_fold_timers (l : Label) (f : State -> string * Campaign -> State)
    (entries : list (string * Campaign)) (st : State) :
  (forall s e, calm l s (f s e) /\ jobs (f s e) = jobs s) ->
  calm l st (fold_left f entries st) /\ jobs (fold_left f entries st) = jobs st.
Proof.
  intros Hf. revert st. induction entries as [|e entries IH]; intros st; simpl.
  - split; [apply calm_refl|reflexivity].
  - destruct (IH (f st e)) as [H1 H2]. destruct (Hf st e) as [H3 H4].
    split; [eapply calm_trans; eauto|congruence].
Qed.

Lemma calm_checkStuckCampaigns (l : Label) (st : State) :
  calm l st (checkStuckCampaigns st) /\ jobs (checkStuckCampaigns st) = jobs st.
Proof.
  unfold checkStuckCampaigns. apply calm_fold_timers.
  intros s [id c]. unfold check_stuck_one.
  destruct (isPaused c); [split; [apply calm_refl|reflexivity]|].
  destruct (_ <? _)%Z; [|split; [apply calm_refl|reflexivity]].
  split; [|reflexivity].
  apply calm_untouched.
  match goal with
  | |- untouched ?s (setTimeout _ ?s1) =>
      apply (untouched_trans s s1); [apply untouched_output; reflexivity|repeat split]
  end.
Qed.

Lemma calm_initialize (l : Label) (st : State) :
  calm l st (initializeWhatsAppClient st)
  /\ jobs (initializeWhatsAppClient st) = jobs st.
Proof.
  unfold initializeWhatsAppClient. destruct (isInitializing st).
  - split; [apply calm_refl|reflexivity].
  - split; [apply calm_untouched; repeat split|reflexivity].
Qed.

Lemma resume_jobs (k : nat) (o : Outcome) (t : Task) (st : State) :
  jobs (snd (resume k o t st)) = jobs st.
Proof.
  destruct (resume_settled k o t st) as [[(_ & _ & _ & Hj & _) _]|(t1 & st1 & Ha & _ & -> & _)].
  - exact Hj.
  - destruct Ha as (_ & _ & _ & Hj & _). exact Hj.
Qed.

Lemma calm_forceReconnection (l : Label) (st : State) :
  calm l st (forceReconnection_begin st)
  /\ calm l st (forceReconnection_end (forceReconnection_begin st))
  /\ calm l st (forceReconnection_noclient (forceReconnection_begin st))
  /\ calm l st (forceReconnection_end st).
Proof.
  assert (H : calm l st (forceReconnection_begin st))
    by (apply calm_untouched, untouched_forceReconnection_begin).
  split; [exact H|].
  split; [eapply calm_trans; [exact H|apply calm_untouched; repeat split]|].
  split; [eapply calm_trans; [exact H|apply calm_untouched; repeat split]|].
  apply calm_untouched, untouched_forceReconnection_end.
Qed.

Lemma resume_monitor_calm (l : Label) (pc : MonitorPc) (o : Outcome) (st : State) :
  calm l st (snd (resume_monitor pc o st))
  /\ jobs (snd (resume_monitor pc o st)) = jobs st.
Proof.
  destruct (calm_forceReconnection l st) as (Hb & He & Hn & Hend).
  destruct pc; simpl.
  - assert (Hf : let st1 := set_failures (S (connectionFailureCount st)) st in
                 forall r : MonitorPc * State,
                   r = (if MAX_CONNECTION_FAILURES <=? connectionFailureCount st1
                        then let st2 := forceReconnection_begin st1 in
                             match client st2 with
                             | Some _ => (KeepAliveDestroy, st2)
                             | None => (MonitorDone, forceReconnection_noclient st2)
                             end
                        else (MonitorDone, st1)) ->
                   calm l st (snd r) /\ jobs (snd r) = jobs st).
    { intros st1 r ->.
      assert (H1 : calm l st st1) by (apply calm_untouched; repeat split).
      destruct (MAX_CONNECTION_FAILURES <=? _); [|split; [exact H1|reflexivity]].
      destruct (calm_forceReconnection l st1) as (Hb1 & _ & Hn1 & _).
      cbv zeta.
      destruct (client (forceReconnection_begin st1)); simpl.
      - split; [exact (calm_trans _ _ _ _ H1 Hb1)|reflexivity].
      - split; [exact (calm_trans _ _ _ _ H1 Hn1)|reflexivity]. }
    destruct o as [state|msg].
    + destruct (String.eqb state "CONNECTED").
      * split; [apply calm_untouched; repeat split|reflexivity].
      * apply Hf. reflexivity.
    + apply Hf. reflexivity.
  - split; [exact Hend|reflexivity].
  - destruct o as [state|msg]; simpl.
    + destruct (calm_checkStuckCampaigns l (connection_ok st)) as [H1 H2].
      split; [|exact H2].
      eapply calm_trans; [|exact H1]. apply calm_untouched. repeat split.
    + destruct (client st); simpl.
      * split; [exact Hb|reflexivity].
      * destruct (calm_checkStuckCampaigns l
                    (forceReconnection_noclient (forceReconnection_begin st))) as [H1 H2].
        split; [exact (calm_trans _ _ _ _ Hn H1)|exact H2].
  - destruct (calm_checkStuckCampaigns l (forceReconnection_end st)) as [H1 H2].
    split; [exact (calm_trans _ _ _ _ Hend H1)|exact H2].
  - split; [apply calm_refl|reflexivity].
Qed.

Lemma calm_respond (l : Label) (st : State) (code : nat) (b : Body) :
  calm l st (respond code b st).
Proof. apply calm_output; [reflexivity|apply calm_refl]. Qed.

Lemma benign_respond (f : State -> nat * Body) : benign (fun s => respond (fst (f s)) (snd (f s)) s).
Proof. intros st. right. eauto. Qed.

Lemma unlink_all_out (paths : list string) (st : State) :
  unlink_all paths st
  = mkState (client st) (isClientReady st) (isClientAuthenticated st)
      (isInitializing st) (activeCampaigns st) (pausedCampaigns st)
      (keepAliveInterval st) (connectionHealthCheckInterval st)
      (campaignHealthInterval st) (lastSuccessfulConnection st)
      (connectionFailureCount st) (now st) (jobs st) (timers st)
      (out st ++ List.map Unlink paths).
Proof.
  revert st. induction paths as [|p paths IH]; intros st; simpl.
  - rewrite List.app_nil_r. now destruct st.
  - unfold unlink_all in IH. rewrite IH. simpl. now rewrite <- List.app_assoc.
Qed.

Lemma untouched_unlink_all (paths : list string) (st : State) :
  untouched st (unlink_all paths st).
Proof.
  revert st. induction paths as [|p paths IH]; intros st; simpl; [apply untouched_refl|].
  eapply untouched_trans; [|apply IH]. now apply untouched_output.
Qed.

(** The outcomes of an upload: it is refused, or fails, and only
    uploaded files are deleted and the request answered; or the campaign
    is stored and its start scheduled; or, without a campaign id, the
    loop is started by the handler *)
Lemma upload_cases (r : UploadReq) (st : State) :
  (exists paths code msg,
     (code = 400 \/ code = 500)
     /\ upload_and_send r st = respond code (body_error msg) (unlink_all paths st))
  \/ (exists id c phones media paths uploaded,
        u_campaignId r = Some id /\ truthy (Some id) = true
        /\ read_request r = Recipients phones media
        /\ c = mkCampaign id phones
                 (field_or (u_message r)
                    "Hello! This is a message from WhatsApp Bulk Sender.")
                 media (field_or (u_fileType r) "text")
                 (field_or (u_delayRange r) "1800-3600") 0 0 0 false
                 (now st) (now st) None None (now st)
        /\ upload_and_send r st
           = upload_finish (length phones) uploaded
               (setTimeout (TContinueCampaign id)
                  (emit (bulk_send_start (length phones) (Some id) None)
                     (set_active (JsMap.set id c (activeCampaigns st))
                        (unlink_all paths st)))))
  \/ (exists phones media paths uploaded,
        truthy (u_campaignId r) = false
        /\ read_request r = Recipients phones media
        /\ upload_and_send r st
           = spawn phones
               (field_or (u_message r)
                  "Hello! This is a message from WhatsApp Bulk Sender.")
               None 0 (field_or (u_delayRange r) "1800-3600") media
               (FromUploadHandler (length phones) uploaded) (fun s => s)
               (emit (bulk_send_start (length phones) None None)
                  (unlink_all paths st))).
Proof.
  unfold upload_and_send.
  destruct (negb (isClientReady st) && negb (isClientAuthenticated st));
    [left; exists [], 400; eexists; split; [now left|reflexivity]|].
  destruct (client st); [|left; exists [], 400; eexists; split; [now left|reflexivity]].
  destruct (read_request r) as [unlinked error|error|phones media] eqn:Er.
  - left. exists unlinked, 400, error. split; [now left|reflexivity].
  - left. unfold upload_catch. destruct (u_files r) as [files|].
    + destruct (excelFile files) as [x|], (mediaUpload files) as [m|]; simpl;
        [exists [excel_path x; upload_path m]|exists [excel_path x]
        |exists [upload_path m]|exists []];
        exists 500; eexists; (split; [now right|reflexivity]).
    + exists [], 500. eexists. split; [now right|reflexivity].
  - destruct (u_files r) as [files|] eqn:Ef;
      [|left; exists [], 500; eexists; split; [now right|];
        unfold upload_catch; rewrite Ef; reflexivity].
    destruct (truthy (u_campaignId r)) eqn:Et.
    + destruct (u_campaignId r) as [id|] eqn:Ei; [|discriminate Et].
      right; left. exists id. eexists. exists phones, media.
      destruct (excelFile files) as [x|]; [exists [excel_path x]|exists []];
        eexists; (split; [reflexivity|]; split; [exact Et|]; split; [reflexivity|];
                  split; reflexivity).
    + right; right. exists phones, media.
      destruct (excelFile files) as [x|]; [exists [excel_path x]|exists []];
        eexists; (split; [reflexivity|]; split; reflexivity).
Qed.

(** Every transition has one of the shapes *)
Lemma step_has_shape (st : State) (l : Label) : step_shape st l (step st l).
Proof.
  destruct l as [r|cid|cid|cid|k| | | |k o|ms| | | |reason|c rd au]; simpl.
  - (* upload *)
    destruct (upload_cases r st)
      as [(paths & code & msg & _ & ->)
         |[(id & c & phones & media & paths & uploaded & Eid & _ & _ & _ & ->)
          |(phones & media & paths & uploaded & _ & _ & ->)]].
    + apply shape_env.
      * apply calm_output; [reflexivity|]. apply calm_untouched, untouched_unlink_all.
      * simpl. now rewrite unlink_all_out.
    + apply shape_env; [|unfold upload_finish, unlink; rewrite unlink_all_out;
                         now destruct uploaded].
      unfold upload_finish. apply calm_output; [reflexivity|].
      eapply calm_trans; [|apply calm_untouched, untouched_unlink].
      eapply calm_trans; [apply calm_untouched, (untouched_unlink_all paths)|].
      split.
      * intros q Hq. simpl. rewrite List.filter_app. simpl.
        rewrite (Hq (Emit _)) by reflexivity. now rewrite List.app_nil_r.
      * intros id' Ha Hg. simpl in Ha. rewrite Eid in Ha. simpl.
        rewrite unlink_all_out in Hg. simpl in Hg.
        rewrite get_set_ne; auto. intros ->. now rewrite String.eqb_refl in Ha.
    + apply spawn_shape; auto using benign_id;
        try (intros id H; discriminate H).
      * apply calm_output; [reflexivity|].
        apply calm_untouched, untouched_unlink_all.
      * simpl. now rewrite unlink_all_out.
  - (* pause *)
    unfold pause. destruct (negb (truthy cid));
      [apply shape_env; [apply calm_respond|reflexivity]|].
    destruct (JsMap.get _ (activeCampaigns st));
      [|apply shape_env; [apply calm_respond|reflexivity]].
    apply shape_env; [|reflexivity]. split.
    + intros q Hq. simpl. rewrite List.filter_app. simpl.
      rewrite (Hq (Respond _ _)) by reflexivity. now rewrite List.app_nil_r.
    + intros id' _ Hg. simpl. now apply get_delete_none.
  - (* resume *)
    unfold resume_campaign. destruct (truthy cid) eqn:Et; simpl;
      [|apply shape_env; [apply calm_respond|reflexivity]].
    destruct cid as [id|]; [|discriminate Et]. simpl.
    destruct (JsMap.get id (pausedCampaigns st));
      [|apply shape_env; [apply calm_respond|reflexivity]].
    apply shape_env; [|reflexivity]. split.
    + intros q Hq. simpl. rewrite List.filter_app. simpl.
      rewrite (Hq (Respond _ _)) by reflexivity. now rewrite List.app_nil_r.
    + intros id' Ha Hg. simpl in *. rewrite get_set_ne; auto.
      intros ->. now rewrite String.eqb_refl in Ha.
  - (* restart *)
    unfold restart. destruct (negb (truthy cid));
      [apply shape_env; [apply calm_respond|reflexivity]|].
    destruct (JsMap.get (default "" cid) (activeCampaigns st)) as [c|] eqn:Eg;
      [|apply shape_env; [apply calm_respond|reflexivity]].
    apply continueCampaign_shape; [|reflexivity|].
    + split; [reflexivity|]. intros id' _ Hg. simpl.
      rewrite get_set_ne; auto. intros <-. congruence.
    + intros s. right. destruct (JsMap.get _ (activeCampaigns s)); eauto.
  - (* timer *)
    destruct (timers st !! k) as [[a|]|] eqn:Et;
      [|apply shape_env; [apply calm_refl|reflexivity]..].
    set (st1 := set_timers _ st).
    assert (H1 : calm (FireTimer k) st st1) by (apply calm_untouched; repeat split).
    destruct a as [id| |]; simpl.
    + apply continueCampaign_shape; auto using benign_id.
    + destruct (calm_initialize (FireTimer k) st1) as [H2 H3].
      apply shape_env; [exact (calm_trans _ _ _ _ H1 H2)|exact H3].
    + destruct (negb _ && negb _); [|apply shape_env; auto].
      destruct (calm_initialize (FireTimer k) st1) as [H2 H3].
      apply shape_env; [exact (calm_trans _ _ _ _ H1 H2)|exact H3].
  - unfold keepAliveTick. destruct (_ && _).
    + eapply shape_monitor_new; [|reflexivity]. split; auto.
    + apply shape_env; [apply calm_refl|reflexivity].
  - unfold healthCheckTick. destruct (connectionHealthCheckInterval st);
      [|apply shape_env; [apply calm_refl|reflexivity]].
    destruct (_ && _).
    + eapply shape_monitor_new; [|reflexivity]. split; auto.
    + destruct (calm_checkStuckCampaigns HealthCheckTick st). now apply shape_env.
  - unfold campaignHealthTick. destruct (campaignHealthInterval st);
      [|apply shape_env; [apply calm_refl|reflexivity]].
    assert (H : calm CampaignHealthTick st
                  (fold_left campaign_health_one (activeCampaigns st) st)
                /\ jobs (fold_left campaign_health_one (activeCampaigns st) st) = jobs st).
    { apply calm_fold_timers. intros s [id c]. unfold campaign_health_one.
      destruct (isPaused c); [split; [apply calm_refl|reflexivity]|].
      destruct (_ <? _)%Z; split; try reflexivity; try apply calm_refl.
      apply calm_untouched. repeat split. }
    destruct H. now apply shape_env.
  - (* settlement *)
    unfold settle. destruct (jobs st !! k) as [[t|pc]|] eqn:Ej.
    + pose proof (resume_jobs k o t st) as Hj.
      destruct (resume k o t st) as [t' st'] eqn:E. simpl in Hj. rewrite Hj.
      eapply shape_settle; eauto.
    + destruct (resume_monitor_calm (Settle k o) pc o st) as [H1 H2].
      destruct (resume_monitor pc o st) as [pc' st'] eqn:E. simpl in *.
      eapply shape_monitor; [| exact Ej |].
      * destruct H1 as [O A]. split; [exact O|exact A].
      * simpl. now rewrite H2.
    + apply shape_env; [apply calm_refl|reflexivity].
  - apply shape_env; [split; auto|reflexivity].
  - destruct (calm_initialize Startup st). now apply shape_env.
  - apply shape_env; [split; auto|reflexivity].
  - apply shape_env; [|reflexivity]. unfold on_ready, emit.
    apply calm_untouched.
    repeat split. intros q Hq. simpl. rewrite !List.filter_app. simpl.
    rewrite (Hq (Emit ready_event)), (Hq (Emit (status _ _ _))) by reflexivity.
    now rewrite !List.app_nil_r.
  - apply shape_env.
    + apply calm_untouched. unfold on_disconnected, emit.
      destruct (negb _ && negb _); repeat split; intros q Hq; simpl;
        rewrite !List.filter_app; simpl;
        rewrite (Hq (Emit (disconnected_event _))), (Hq (Emit (status _ _ _))) by reflexivity;
        now rewrite !List.app_nil_r.
    + unfold on_disconnected. destruct (negb _ && negb _); reflexivity.
  - apply shape_env; [split; auto|reflexivity].
Qed.

(** *** Counting attempts *)



















(** *** Pausing *)

Lemma on_sends_campaign (id : string) : on_sends (is_campaign_send id).
Proof. intros [e|code b|k' c i' n a|path]; simpl; congruence. Qed.

Lemma stays_in_flight (pc pc' : Pc) (n : nat) :
  stays pc n pc' -> in_flight pc' = true -> in_flight pc = true.
Proof.
  destruct pc as [[]|[] ?| | | | | | |], pc' as [[]|[] ?| | | | | | |];
    simpl; try contradiction; auto.
Qed.

Lemma stays_iterating (pc pc' : Pc) (n : nat) :
  stays pc n pc' -> iterating pc = false -> iterating pc' = false.
Proof.
  destruct pc as [[]|[] ?| | | | | | |], pc' as [[]|[] ?| | | | | | |];
    simpl; try contradiction; auto.
Qed.

Lemma held_same (id : string) (base js js' : list Job) :
  (forall k t', js' !! k = Some (Loop t') -> js !! k = Some (Loop t')) ->
  held id base js -> held id base js'.
Proof. intros H Hh k t' Hk Hc. apply (Hh k t'); auto. Qed.

Lemma paused_inv_calm (id : string) (base : list Job) (sends0 : list Output)
    (l : Label) (st st' : State) :
  activates id l = false -> calm l st st' ->
  (forall k t', jobs st' !! k = Some (Loop t') -> jobs st !! k = Some (Loop t')) ->
  paused_inv id base sends0 st -> paused_inv id base sends0 st'.
Proof.
  intros Hl [Ho Ha] Hj (Hg & Hh & news & Hn & Hf).
  split; [auto|]. split; [eapply held_same; eauto|].
  exists news. split; [|exact Hf].
  unfold campaign_sends. now rewrite (Ho _ (on_sends_campaign id)).
Qed.

Lemma paused_inv_step (id : string) (base : list Job) (sends0 : list Output)
    (st : State) (l : Label) :
  truthy (Some id) = true -> activates id l = false ->
  paused_inv id base sends0 st -> paused_inv id base sends0 (step st l).
Proof.
  intros Hid Hl Hinv.
  destruct (step_has_shape st l) as
    [st' Hc Hj|st' pc Hc Hj|st' k pc pc' Hc Hk Hj
    |st1 t0 t' st2 between Hc Hj H0 Hcid Hb Hloop|k o t t' st2 -> Hk Hr].
  - eapply paused_inv_calm; eauto. intros k t'. now rewrite Hj.
  - eapply paused_inv_calm; eauto. intros k t'. rewrite Hj.
    destruct (Nat.lt_ge_cases k (length (jobs st))) as [Hlt|Hge].
    + now rewrite lookup_app_l.
    + rewrite lookup_app_r by exact Hge.
      destruct (k - length (jobs st)) as [|n]; simpl; discriminate.
  - eapply paused_inv_calm; eauto. intros k0 t'. rewrite Hj.
    destruct (Nat.eq_dec k0 k) as [->|Hne].
    + rewrite list_lookup_insert_eq by (apply lookup_lt_is_Some; eauto). discriminate.
    + now rewrite list_lookup_insert_ne by congruence.
  - assert (H1 : paused_inv id base sends0 st1).
    { eapply paused_inv_calm; eauto. intros k t1. now rewrite Hj. }
    destruct H1 as (Hg & Hh & news & Hn & Hf).
    destruct (loop_head_spec between (length (jobs st)) t0 st1 Hb) as [Ha _].
    rewrite Hloop in Ha. destruct Ha as (Hs & _ & _ & _ & _ & Hnone & _ & Ho).
    simpl in *.
    split; [auto|]. split.
    + intros k t1 Hk Hc1. simpl in Hk.
      destruct (Nat.lt_ge_cases k (length (jobs st))) as [Hlt|Hge].
      * rewrite lookup_app_l in Hk by exact Hlt. apply (Hh k t1); auto. now rewrite Hj.
      * rewrite lookup_app_r in Hk by exact Hge.
        destruct (k - length (jobs st)) as [|n]; simpl in Hk; [|discriminate].
        injection Hk as <-. exfalso.
        rewrite (same_call_campaign _ _ Hs) in Hc1. now apply (Hcid id).
    + exists news. split; [|exact Hf].
      unfold campaign_sends. simpl. now rewrite (Ho _ (on_sends_campaign id)).
  - destruct Hinv as (Hg & Hh & news & Hn & Hf).
    assert (Hlt : k < length (jobs st)) by (apply lookup_lt_is_Some; eauto).
    assert (Hother : forall k0 t1,
              <[k := Loop t']> (jobs st) !! k0 = Some (Loop t1) -> k0 <> k ->
              jobs st !! k0 = Some (Loop t1)).
    { intros k0 t1 H Hne. now rewrite list_lookup_insert_ne in H by congruence. }
    destruct (resume_settled k o t st) as [(Ha & _ & Hm)|(t1 & st1 & Ha & Hi & Hr1 & Hn1)];
      rewrite Hr in *.
    + destruct Ha as (Hs & _ & _ & _ & _ & Hnone & _ & Ho). simpl in *.
      split; [auto|]. split.
      * intros k0 t1 Hk0 Hc1. simpl in Hk0. destruct (Nat.eq_dec k0 k) as [->|Hne];
          [|apply (Hh k0 t1); auto].
        rewrite list_lookup_insert_eq in Hk0 by exact Hlt. injection Hk0 as <-.
        rewrite (same_call_campaign _ _ Hs) in Hc1.
        destruct (Hh k t Hk Hc1) as (tb & Hb & Hcb & Hd).
        exists tb. split; [exact Hb|]. split; [exact Hcb|].
        destruct Hm as [(_ & _ & Habs)|(Hi & _ & Hst)]; simpl in *.
        -- left. now apply (Habs id).
        -- destruct Hd as [Hd|[Hd1 Hd2]].
           ++ left. eapply stays_iterating; eauto.
           ++ right. split; [congruence|]. intros Hf'. apply Hd2.
              eapply stays_in_flight; eauto.
      * exists news. split; [|exact Hf].
        unfold campaign_sends. simpl. now rewrite (Ho _ (on_sends_campaign id)).
    + injection Hr1 as -> ->.
      destruct Ha as (Hs & _ & _ & _ & _ & Hnone & _ & Ho). simpl in *.
      assert (Hfl : in_flight (t_pc t) = true /\ iterating (t_pc t) = true).
      { destruct Hn1 as [(_ & [Hp|Hp])|(_ & Hp)]; rewrite Hp; auto. }
      split; [auto|]. split.
      * intros k0 t2 Hk0 Hc2. simpl in Hk0. destruct (Nat.eq_dec k0 k) as [->|Hne];
          [|apply (Hh k0 t2); auto].
        rewrite list_lookup_insert_eq in Hk0 by exact Hlt. injection Hk0 as <-.
        assert (Hc1 : campaign_of t = Some id).
        { rewrite <- (same_call_campaign _ _ Hs). exact Hc2. }
        destruct (Hh k t Hk Hc1) as (tb & Hb & Hcb & Hd).
        exists tb. split; [exact Hb|]. split; [exact Hcb|].
        destruct Hd as [Hd|[Hd1 Hd2]]; [destruct Hfl; congruence|].
        right. simpl. split; [congruence|]. intros _. apply Hd2, Hfl.
      * unfold campaign_sends. simpl. rewrite List.filter_app.
        fold (campaign_sends id (out st1)).
        unfold campaign_sends at 1. rewrite (Ho _ (on_sends_campaign id)).
        fold (campaign_sends id (out st)). rewrite Hn. simpl.
        destruct (t_campaignId t1) as [c1|] eqn:Ec;
          [|exists news; split; [now rewrite List.app_nil_r|exact Hf]].
        destruct (String.eqb_spec id c1) as [<-|Hne];
          [|exists news; split; [now rewrite List.app_nil_r|exact Hf]].
        exists (news ++ [SendCall k (Some id) (t_i t1) (phoneNumber_of t1)
                           (S (t_sendAttempts t1))])%list.
        split; [now rewrite List.app_assoc|].
        apply Forall_app. split; [exact Hf|]. constructor; [|constructor].
        assert (Hc1 : campaign_of t = Some id).
        { rewrite <- (same_call_campaign _ _ Hs). unfold campaign_of. rewrite Ec.
          unfold truthy in *. now rewrite Hid. }
        destruct (Hh k t Hk Hc1) as (tb & Hb & Hcb & Hd).
        destruct Hd as [Hd|[Hd1 Hd2]]; [destruct Hfl; congruence|].
        exists k, (Some id), (t_i t1), (phoneNumber_of t1), (S (t_sendAttempts t1)), tb.
        split; [reflexivity|]. split; [exact Hb|]. split; [congruence|]. apply Hd2, Hfl.
Qed.

Lemma paused_inv_run (id : string) (base : list Job) (sends0 : list Output)
    (ls : list Label) :
  forall st, truthy (Some id) = true -> stays_paused id ls = true ->
    paused_inv id base sends0 st -> paused_inv id base sends0 (run ls st).
Proof.
  induction ls as [|l ls IH]; intros st Hid Hls Hinv; [exact Hinv|].
  simpl in Hls. apply andb_true_iff in Hls as [Hl Hls]. apply negb_true_iff in Hl.
  unfold run. simpl. apply IH; auto. now apply paused_inv_step.
Qed.

Lemma held_base (id : string) (js : list Job) : held id js js.
Proof.
  intros k t Hk Hc. exists t. split; [exact Hk|]. split; [exact Hc|].
  right. split; auto.
Qed.

(** The pause handler on a campaign of the active pool *)
Lemma pause_active (id : string) (c : Campaign) (st : State) :
  truthy (Some id) = true -> JsMap.get id (activeCampaigns st) = Some c ->
  step st (Pause (Some id)) =
    respond 200 (campaign_body "Campaign paused successfully" (mark_paused (now st) c))
      (set_active (JsMap.delete id (activeCampaigns st))
         (set_paused (JsMap.set id (mark_paused (now st) c) (pausedCampaigns st)) st)).
Proof.
  intros Hid Hact. simpl. unfold pause. rewrite Hid. simpl. rewrite Hact. reflexivity.
Qed.

(** C9 as stated fails: campaign [c1] is paused during the pacing sleep
    that follows its first recipient, and a campaign is then submitted
    under the same id.  The upload handler does not look at the paused
    pool: [c1] stays there, flagged paused, and is in the active pool
    again as well.  When the sleeping loop wakes up its pause check
    finds the new entry, and the loop sends to the second recipient. *)
Lemma C9_resubmission_wakes_paused_loop :
  ~ (forall ls0 id c ls,
       let st := run ls0 init in
       truthy (Some id) = true ->
       JsMap.get id (activeCampaigns st) = Some c ->
       remains_paused id ls (step st (Pause (Some id))) = true ->
       exists news,
         campaign_sends id (out (run ls (step st (Pause (Some id)))))
         = (campaign_sends id (out st) ++ news)%list
         /\ Forall (in_flight_send (jobs st)) news).
Proof.
  intros H.
  pose (ls := [Upload (submission "c1" ["9876543210"; "9876543211"]);
               Advance 1800000; Settle 0 done; Settle 0 connected;
               Advance 5000; Settle 0 done]).
  specialize (H first_sent "c1"). cbv zeta in H.
  destruct (JsMap.get "c1" (activeCampaigns (run first_sent init))) as [c|] eqn:Hact;
    [|vm_compute in Hact; discriminate Hact].
  assert (Hp : remains_paused "c1" ls (step (run first_sent init) (Pause (Some "c1")))
               = true) by (vm_compute; reflexivity).
  destruct (H c ls eq_refl eq_refl Hp) as (news & E & F).
  vm_compute in E. injection E as <-.
  apply List.Forall_inv in F. destruct F as (k & c0 & i & p & n & t & Eo & Hb & Hi & _).
  injection Eo as <- _ <- _ _. vm_compute in Hb. injection Hb as <-.
  discriminate Hi.
Qed.

(** C9, amended: a pause request on a campaign of the active pool moves
    it to the paused pool and touches no delivery loop: a loop that is
    past the pause check of a recipient keeps its suspension point, so
    the attempt in progress is not interrupted.  For as long as nothing brings the
    campaign back into the active pool (no submission under its id, no
    resume request), whatever else happens: the campaign stays out of the
    active pool; every loop of the campaign is one that was running at
    the pause and either has left its [for] loop or is still at the
    recipient it was at; and every send made for the campaign after the
    pause is made by such a loop to the recipient whose iteration was in
    progress when the pause came.  No later recipient is attempted. *)
Theorem C9_pause_stops_at_next_recipient (st : State) (id : string) (c : Campaign)
    (ls : list Label)
    (Hid : truthy (Some id) = true)
    (Hact : JsMap.get id (activeCampaigns st) = Some c)
    (Hls : stays_paused id ls = true) :
  let st0 := step st (Pause (Some id)) in
  let st' := run ls st0 in
  jobs st0 = jobs st
  /\ JsMap.get id (pausedCampaigns st0) = Some (mark_paused (now st) c)
  /\ JsMap.get id (activeCampaigns st') = None
  /\ held id (jobs st) (jobs st')
  /\ exists news,
       campaign_sends id (out st') = (campaign_sends id (out st) ++ news)%list
       /\ Forall (in_flight_send (jobs st)) news.
Proof.
  intros st0 st'. subst st0 st'. rewrite (pause_active id c st Hid Hact).
  set (st0 := respond _ _ _).
  assert (Hinv : paused_inv id (jobs st) (campaign_sends id (out st)) st0).
  { split; [apply get_delete_eq|]. split; [apply held_base|].
    exists []. split; [|constructor]. rewrite List.app_nil_r.
    unfold campaign_sends, st0. simpl. rewrite List.filter_app. simpl.
    apply List.app_nil_r. }
  split; [reflexivity|]. split; [apply get_set_eq|].
  exact (paused_inv_run id _ _ ls st0 Hid Hls Hinv).
Qed.

(** C9 applied to campaign [c1] paused while its first send is pending *)
Lemma C9_pause_witness :
  truthy (Some "c1") = true
  /\ (exists c, JsMap.get "c1" (activeCampaigns (run Scenario.wedged init)) = Some c)
  /\ stays_paused "c1" Scenario.after_pause = true
  /\ JsMap.get "c1"
       (activeCampaigns
          (run Scenario.after_pause (step (run Scenario.wedged init) (Pause (Some "c1")))))
     = None.
Proof.
  destruct (JsMap.get "c1" (activeCampaigns (run Scenario.wedged init))) as [c|] eqn:Hact;
    [|vm_compute in Hact; discriminate Hact].
  assert (Hid : truthy (Some "c1") = true) by reflexivity.
  assert (Hls : stays_paused "c1" Scenario.after_pause = true) by reflexivity.
  split; [exact Hid|]. split; [exists c; reflexivity|]. split; [exact Hls|].
  exact (proj1 (proj2 (proj2
    (C9_pause_stops_at_next_recipient (run Scenario.wedged init) "c1" c
       Scenario.after_pause Hid Hact Hls)))).
Defined.

(** *** Failures of a recipient *)

Ltac grows :=
  simpl; rewrite <- ?List.app_assoc;
  first [eexists; reflexivity | exists []; now rewrite List.app_nil_r].

Lemma keeps_refl (t : Task) (st : State) : keeps t st (t, st).
Proof.
  split; [exists []; simpl; split; [now rewrite List.app_nil_r|lia]|].
  split; [reflexivity|grows].
Qed.

Lemma keeps_trans (t t1 : Task) (st st1 : State) (r : Task * State) :
  keeps t st (t1, st1) -> keeps t1 st1 r -> keeps t st r.
Proof.
  intros ((m1 & R1 & F1) & S1 & l1 & O1) ((m2 & R2 & F2) & S2 & l2 & O2). simpl in *.
  split; [exists (m1 ++ m2)%list; split|].
  - rewrite R2, R1. now rewrite <- List.app_assoc.
  - rewrite F2, F1, List.length_app. lia.
  - split; [congruence|]. exists (l1 ++ l2)%list. rewrite O2, O1.
    now rewrite <- List.app_assoc.
Qed.

(** A stretch of a loop that pushes no result *)
Lemma keeps_quiet (t t' : Task) (st st' : State) :
  t_results t' = t_results t -> t_failureCount t' = t_failureCount t ->
  t_successCount t' = t_successCount t ->
  (exists later, out st' = (out st ++ later)%list) ->
  keeps t st (t', st').
Proof.
  intros R F S O. split; [exists []; simpl; split; [now rewrite List.app_nil_r|lia]|].
  split; assumption.
Qed.

Lemma keeps_output (t t' : Task) (st st' : State) (o : Output) :
  keeps t st (t', st') -> keeps t st (t', output o st').
Proof.
  intros H. eapply keeps_trans; [exact H|].
  apply keeps_quiet; auto. grows.
Qed.

Lemma keeps_between (between : State -> State) (t t' : Task) (st st' : State) :
  benign between -> keeps t st (t', st') -> keeps t st (t', between st').
Proof.
  intros Hb H. destruct (Hb st') as [->|(code & b & ->)]; [assumption|].
  now apply keeps_output.
Qed.

Lemma keeps_validateConnection_begin (t : Task) (st : State) :
  keeps t st (t, state_of (validateConnection_begin st)).
Proof.
  apply keeps_quiet; auto.
  unfold validateConnection_begin, validateConnection_catch.
  repeat match goal with
         | |- context [match ?x with _ => _ end] => destruct x
         end; grows.
Qed.

Lemma keeps_returned (s : Summary) (t : Task) (st : State) : keeps t st (returned s t st).
Proof.
  unfold returned, upload_resume, upload_finish, unlink.
  repeat match goal with
         | |- context [match ?x with _ => _ end] => destruct x
         end; apply keeps_quiet; auto; grows.
Qed.

Lemma keeps_complete (t : Task) (st : State) : keeps t st (complete t st).
Proof.
  unfold complete. destruct (campaign_of t) as [id|]; [|apply keeps_returned].
  destruct (JsMap.get id (activeCampaigns st)) as [c|]; [|apply keeps_returned].
  set (st3 := match mediaFile c with Some (mkMedia (Some path) _) => _ | _ => _ end).
  assert (H3 : keeps t st (t, st3)).
  { apply keeps_quiet; auto. unfold st3.
    destruct (mediaFile c) as [[[path|] fn]|]; grows. }
  destruct (closeChromeBrowser_waits st3).
  - eapply keeps_trans; [exact H3|]. apply keeps_quiet; auto. grows.
  - eapply keeps_trans; [exact H3|]. apply keeps_returned.
Qed.

Lemma keeps_catch_block (err : string) (t : Task) (st : State) :
  keeps t st (catch_block err t st).
Proof.
  unfold catch_block. destruct (classify err) as [category msg].
  split; [eexists; simpl; split; [reflexivity|simpl; lia]|].
  split; [reflexivity|]. simpl. rewrite untouched_with_campaign_out. eexists; reflexivity.
Qed.

Lemma keeps_head (t : Task) (st : State) :
  match head t st with
  | HStop st' => st' = st
  | HChecked v => keeps t st (t, state_of v)
  end.
Proof.
  unfold head. destruct (campaign_of t) as [id|].
  - destruct (JsMap.get id (activeCampaigns st)) as [c|]; [|reflexivity].
    destruct (isPaused c); [reflexivity|].
    set (st1 := set_active _ st).
    apply (keeps_trans t t st st1); [apply keeps_quiet; auto; grows|].
    apply keeps_validateConnection_begin.
  - apply keeps_validateConnection_begin.
Qed.

Lemma keeps_iterate (rest : list string) :
  forall between k t st, benign between -> keeps t st (iterate between k rest t st).
Proof.
  induction rest as [|p rest IH]; intros between k t st Hb; simpl.
  - destruct (complete t st) as [t' st'] eqn:E.
    apply keeps_between; [exact Hb|]. rewrite <- E. apply keeps_complete.
  - pose proof (keeps_head t st) as Hh. pose proof (head_spec t st) as Hs.
    destruct (head t st) as [st'|[st'|err st'|st'|err st']]; simpl in Hh.
    + subst st'. apply keeps_between; [exact Hb|]. apply keeps_quiet; auto. grows.
    + destruct Hs as [_ Hs]. now destruct (Hs st').
    + pose proof (keeps_catch_block err t (between st')) as Hc.
      destruct (catch_block err t (between st')) as [t1 st1].
      eapply keeps_trans; [apply keeps_between; eauto|].
      eapply keeps_trans; [exact Hc|].
      eapply keeps_trans; [|apply IH; apply benign_id].
      apply keeps_quiet; auto. grows.
    + apply keeps_between; [exact Hb|]. eapply keeps_trans; [exact Hh|].
      apply keeps_quiet; auto. grows.
    + apply keeps_between; [exact Hb|]. eapply keeps_trans; [exact Hh|].
      apply keeps_quiet; auto. grows.
Qed.

Lemma catch_block_recorded (err : string) (t : Task) (st1 : State) :
  recorded err t st1 (fst (catch_block err t st1)) (snd (catch_block err t st1)).
Proof.
  unfold recorded, catch_block, failure_entry, failure_event.
  destruct (classify err) as [category msg]. simpl.
  split; [reflexivity|]. split; [reflexivity|]. split; [reflexivity|].
  split; [reflexivity|]. split; [now rewrite untouched_with_campaign_out|].
  unfold with_campaign. split; [|split].
  - intros id c Hc Hg. rewrite Hc. simpl. rewrite get_update_eq, Hg. simpl.
    eexists. split; [reflexivity|]. simpl. auto.
  - intros id Hc. destruct (campaign_of t) as [id'|]; [|reflexivity].
    simpl. apply get_update_ne. congruence.
  - destruct (campaign_of t); reflexivity.
Qed.

Lemma running_catch_block (err : string) (t : Task) (st : State) :
  running t st ->
  running (next_i (fst (catch_block err t st))) (snd (catch_block err t st)).
Proof.
  pose proof (advances_catch_block err t st) as [(Hs & _) _].
  pose proof (catch_block_recorded err t st) as (_ & _ & _ & _ & _ & Hc & _).
  destruct (catch_block err t st) as [t2 st2]. simpl in *.
  unfold running.
  change (campaign_of (next_i t2)) with (campaign_of t2).
  rewrite (same_call_campaign _ _ Hs).
  destruct (campaign_of t) as [id|] eqn:Ec; [|auto].
  intros (c & Hg & Hp).
  destruct (Hc id c eq_refl Hg) as (c' & Hg' & _ & _ & _ & Hp').
  exists c'. split; [exact Hg'|congruence].
Qed.

(** Past the end of an iteration the loop takes up the next recipient
    if there is one and the pause check lets it through, and leaves the
    [for] loop if there is none *)
Lemma next_iteration_takes_up (k : nat) (t : Task) (st : State) :
  let r := next_iteration k t st in
  match t_phoneNumbers t !! S (t_i t) with
  | Some _ =>
      running (next_i t) st ->
      (t_i (fst r) = S (t_i t) /\ in_flight (t_pc (fst r)) = true)
      \/ S (t_i t) < t_i (fst r)
  | None => iterating (t_pc (fst r)) = false
  end.
Proof.
  intros r. unfold r, next_iteration, loop_head.
  change (t_i (next_i t)) with (S (t_i t)).
  change (t_phoneNumbers (next_i t)) with (t_phoneNumbers t).
  destruct (t_phoneNumbers t !! S (t_i t)) as [p|] eqn:E.
  - rewrite (drop_S _ _ _ E). intros Hrun. cbn [iterate].
    pose proof (head_spec (next_i t) st) as Hs.
    assert (Hh : forall st', head (next_i t) st <> HStop st').
    { intros st'. unfold head. unfold running in Hrun.
      destruct (campaign_of (next_i t)) as [id|]; [|discriminate].
      destruct Hrun as (c & -> & ->). discriminate. }
    destruct (head (next_i t) st) as [st'|[st'|err st'|st'|err st']].
    + now destruct (Hh st').
    + destruct Hs as [_ Hs]. now destruct (Hs st').
    + right.
      pose proof (advances_catch_block err (next_i t) st') as [_ Hi].
      destruct (catch_block err (next_i t) st') as [t1 st1]. simpl in Hi.
      destruct (iterate_spec (drop (S (S (t_i t))) (t_phoneNumbers t))
                  (fun s => s) k (next_i t1) st1 benign_id) as [(_ & Hle & _) _].
      simpl in Hle. lia.
    + left. split; reflexivity.
    + left. split; reflexivity.
  - apply lookup_ge_None in E. rewrite drop_ge by exact E. cbn [iterate].
    assert (Hpc : iterating (t_pc (fst (complete (next_i t) st))) = false).
    { unfold complete, returned, upload_resume.
      repeat match goal with
             | |- context [match ?x with _ => _ end] => destruct x
             end; reflexivity. }
    destruct (complete (next_i t) st). exact Hpc.
Qed.

Lemma failed_contained (k : nat) (err : string) (t : Task) (st1 : State) :
  let r := failed k err t st1 in
  (exists t2 st2, recorded err t st1 t2 st2 /\ r = next_iteration k t2 st2)
  /\ (exists more later,
        t_results (fst r) = (t_results t ++ failure_entry err t :: more)%list
        /\ t_failureCount (fst r) = S (t_failureCount t) + length more
        /\ t_successCount (fst r) = t_successCount t
        /\ out (snd r) = (out st1 ++ failure_event err t :: later)%list)
  /\ t_i t < t_i (fst r)
  /\ at_head (t_pc (fst r)) = true
  /\ match t_phoneNumbers t !! S (t_i t) with
     | Some _ =>
         running t st1 ->
         (t_i (fst r) = S (t_i t) /\ in_flight (t_pc (fst r)) = true)
         \/ S (t_i t) < t_i (fst r)
     | None => iterating (t_pc (fst r)) = false
     end.
Proof.
  intros r. unfold r, failed.
  pose proof (catch_block_recorded err t st1) as Hrec.
  pose proof (running_catch_block err t st1) as Hrun.
  pose proof (advances_catch_block err t st1) as [((Hp & _) & _) _].
  destruct (catch_block err t st1) as [t2 st2]. simpl in Hrec, Hrun, Hp.
  split; [exists t2, st2; split; [exact Hrec|reflexivity]|].
  destruct Hrec as (R & F & Sc & I & O & _).
  destruct (next_iteration_spec k t2 st2) as (_ & Hlt & Hat).
  split; [|split; [lia|split; [exact Hat|]]].
  - assert (Hk : keeps t2 st2 (next_iteration k t2 st2)).
    { unfold next_iteration, loop_head.
      eapply keeps_trans; [|apply keeps_iterate; apply benign_id].
      apply keeps_quiet; auto. grows. }
    destruct Hk as ((more & R' & F') & S' & later & O').
    exists more, later. rewrite R', F', S', O', R, F, Sc, O.
    rewrite <- !List.app_assoc. simpl. auto.
  - pose proof (next_iteration_takes_up k t2 st2) as Hn. simpl in Hn.
    rewrite Hp, I in Hn.
    destruct (t_phoneNumbers t !! S (t_i t)); auto.
Qed.

(** An exception of [validateConnection] thrown before the first [await]
    of an iteration is handled in the same way *)
Lemma loop_head_throw (between : State -> State) (k : nat) (t : Task) (st st1 : State)
    (err p : string) :
  t_phoneNumbers t !! t_i t = Some p -> head t st = HChecked (VThrow err st1) ->
  loop_head between k t st = failed k err t (between st1).
Proof.
  intros Hp Hh. unfold loop_head at 1. rewrite (drop_S _ _ _ Hp). cbn [iterate].
  rewrite Hh. unfold failed, next_iteration, loop_head.
  pose proof (advances_catch_block err t (between st1)) as [((Hn & _) & _) Hi].
  destruct (catch_block err t (between st1)) as [t2 st2]. simpl in Hn, Hi.
  change (t_i (next_i t2)) with (S (t_i t2)).
  change (t_phoneNumbers (next_i t2)) with (t_phoneNumbers t2).
  now rewrite Hn, Hi.
Qed.


(** ** Further properties of the code *)

(** *** Characters and strings *)

Lemma letter_not_separator (c : ascii) : is_letter c = true -> is_separator c = false.
Proof.
  destruct c as [[] [] [] [] [] [] [] []]; vm_compute; intros H;
    first [reflexivity | discriminate H].
Qed.

Lemma letter_not_digit (c : ascii) : is_letter c = true -> is_digit c = false.
Proof.
  destruct c as [[] [] [] [] [] [] [] []]; vm_compute; intros H;
    first [reflexivity | discriminate H].
Qed.

Lemma separator_not_digit (c : ascii) : is_separator c = true -> is_digit c = false.
Proof.
  destruct c as [[] [] [] [] [] [] [] []]; vm_compute; intros H;
    first [reflexivity | discriminate H].
Qed.

Lemma all_digits_forallb (s : string) : all_digits s = true -> forallb_str is_digit s = true.
Proof. destruct s; [discriminate|auto]. Qed.

Lemma forallb_not_all_digits (s : string) :
  forallb_str is_digit s = false -> all_digits s = false.
Proof. destruct s; auto. Qed.

Lemma letter_survives (p : string) :
  existsb_str is_letter p = true ->
  forallb_str is_digit (remove_all is_separator p) = false.
Proof.
  induction p as [|c p IH]; simpl; [discriminate|].
  destruct (is_letter c) eqn:El; simpl.
  - intros _. rewrite (letter_not_separator c El). simpl.
    now rewrite (letter_not_digit c El).
  - intros H. destruct (is_separator c); simpl; [auto|].
    rewrite (IH H). apply andb_false_r.
Qed.

Lemma remove_all_app (p : ascii -> bool) (a b : string) :
  remove_all p (a ++ b) = remove_all p a ++ remove_all p b.
Proof.
  induction a as [|c a IH]; simpl; [reflexivity|].
  destruct (p c); simpl; now rewrite IH.
Qed.

Lemma length_append (a b : string) :
  String.length (a ++ b) = String.length a + String.length b.
Proof. induction a as [|c a IH]; simpl; [reflexivity|now rewrite IH]. Qed.

Lemma prefix_cons (a b : ascii) (s1 s2 : string) :
  String.prefix (String a s1) (String b s2) = true -> a = b /\ String.prefix s1 s2 = true.
Proof.
  change (String.prefix (String a s1) (String b s2))
    with (if ascii_dec a b then String.prefix s1 s2 else false).
  destruct (ascii_dec a b); [auto|discriminate].
Qed.

(** The header test of the validator decides nothing: the row index has
    no influence on the result *)
Lemma validator_row_irrelevant (phoneNumber : string) (i j : nat) :
  validateAndFormatPhoneNumber phoneNumber i = validateAndFormatPhoneNumber phoneNumber j.
Proof.
  unfold validateAndFormatPhoneNumber.
  destruct (all_digits (remove_all is_separator phoneNumber)); simpl.
  - now rewrite !andb_false_r.
  - destruct (_ && _), (_ && _); reflexivity.
Qed.

Lemma validator_rejects (phoneNumber : string) (i : nat) :
  validateAndFormatPhoneNumber phoneNumber i = None <->
  all_digits (remove_all is_separator phoneNumber) = false
  \/ String.length (remove_all is_separator phoneNumber) < 10.
Proof.
  rewrite (validator_row_irrelevant phoneNumber i 1).
  unfold validateAndFormatPhoneNumber. simpl.
  destruct (all_digits (remove_all is_separator phoneNumber)); simpl.
  - destruct (String.length (remove_all is_separator phoneNumber) <? 10) eqn:El.
    + apply Nat.ltb_lt in El. split; auto.
    + apply Nat.ltb_ge in El. split.
      * repeat match goal with
               | |- context [if ?b then _ else _] => destruct b
               end; discriminate.
      * intros [H|H]; [discriminate H|lia].
  - split; auto.
Qed.

(** X1: the validator's answer does not depend on the row index (its
    header test rejects nothing that the digit test would accept); a
    line is rejected exactly when, [+], [-] and white space removed, it
    is not a run of digits or has fewer than ten of them; a line with a
    letter in it is always rejected. *)
Theorem X1_validator_acceptance (phoneNumber : string) (i j : nat) :
  validateAndFormatPhoneNumber phoneNumber i = validateAndFormatPhoneNumber phoneNumber j
  /\ (validateAndFormatPhoneNumber phoneNumber i = None <->
      all_digits (remove_all is_separator phoneNumber) = false
      \/ String.length (remove_all is_separator phoneNumber) < 10)
  /\ (existsb_str is_letter phoneNumber = true ->
      validateAndFormatPhoneNumber phoneNumber i = None).
Proof.
  split; [apply validator_row_irrelevant|]. split; [apply validator_rejects|].
  intros H. apply validator_rejects. left.
  apply forallb_not_all_digits. now apply letter_survives.
Qed.

(** X1 applied to a header line *)
Lemma X1_validator_witness :
  existsb_str is_letter "Phone Number" = true
  /\ validateAndFormatPhoneNumber "Phone Number" 3 = None.
Proof.
  split; [reflexivity|].
  apply (proj2 (proj2 (X1_validator_acceptance "Phone Number" 3 0))). reflexivity.
Defined.

(** An accepted line is, separators apart, a run of at least ten digits *)
Lemma validator_accepts (phoneNumber r : string) (i : nat) :
  validateAndFormatPhoneNumber phoneNumber i = Some r ->
  all_digits (remove_all is_separator phoneNumber) = true
  /\ 10 <= String.length (remove_all is_separator phoneNumber).
Proof.
  intros H.
  destruct (all_digits (remove_all is_separator phoneNumber)) eqn:Ed.
  - split; [reflexivity|].
    destruct (Nat.lt_ge_cases (String.length (remove_all is_separator phoneNumber)) 10)
      as [Hlt|Hge]; [|exact Hge].
    assert (Hn : validateAndFormatPhoneNumber phoneNumber i = None)
      by (apply validator_rejects; now right).
    congruence.
  - assert (Hn : validateAndFormatPhoneNumber phoneNumber i = None)
      by (apply validator_rejects; now left).
    congruence.
Qed.

(** The form of an accepted line: the test for twelve characters
    starting with [91] changes nothing, such a line is returned as it is
    by the last branch as well *)
Lemma validator_format (phoneNumber r : string) (i : nat) :
  validateAndFormatPhoneNumber phoneNumber i = Some r ->
  r = (if startsWith phoneNumber "+91" then substring1 phoneNumber
       else if String.length phoneNumber =? 10 then "91" ++ phoneNumber
       else phoneNumber) ++ "@c.us".
Proof.
  intros H. destruct (validator_accepts phoneNumber r i H) as [Hd Hl].
  rewrite (validator_row_irrelevant phoneNumber i 1) in H.
  unfold validateAndFormatPhoneNumber in H. simpl in H. rewrite Hd in H. simpl in H.
  destruct (String.length (remove_all is_separator phoneNumber) <? 10); [discriminate H|].
  destruct (startsWith phoneNumber "91" && (String.length phoneNumber =? 12)) eqn:E12.
  { injection H as <-. apply andb_true_iff in E12 as [Ep El].
    apply Nat.eqb_eq in El. rewrite El.
    destruct phoneNumber as [|c p]; [discriminate Ep|].
    apply prefix_cons in Ep as [<- _]. reflexivity. }
  destruct (startsWith phoneNumber "+91"); [now injection H as <-|].
  destruct (String.length phoneNumber =? 10); now injection H as <-.
Qed.

Lemma validator_output (phoneNumber r : string) (i : nat) :
  validateAndFormatPhoneNumber phoneNumber i = Some r -> wf_recipient r.
Proof.
  intros H. destruct (validator_accepts phoneNumber r i H) as [Hd Hl].
  rewrite (validator_format phoneNumber r i H).
  destruct (startsWith phoneNumber "+91") eqn:Ep.
  { exists (substring1 phoneNumber). split; [reflexivity|].
    destruct phoneNumber as [|c p]; [discriminate Ep|].
    apply prefix_cons in Ep as [<- _].
    simpl in Hd, Hl. simpl. auto. }
  destruct (String.length phoneNumber =? 10).
  { exists ("91" ++ phoneNumber). split; [reflexivity|].
    rewrite remove_all_app. simpl. split; [|lia].
    apply all_digits_forallb in Hd. now rewrite Hd. }
  exists phoneNumber. auto.
Qed.

(** X2: what the validator returns for an accepted line.  A line that
    starts with [+91] is returned without its [+]; any other line of
    exactly ten characters is returned with [91] in front; every other
    line is returned as it is; [@c.us] is appended in each case, and
    separators inside the line are kept.  The part before [@c.us] is
    always, separators apart, a run of at least ten digits. *)
Theorem X2_validator_output (phoneNumber r : string) (rowIndex : nat)
    (H : validateAndFormatPhoneNumber phoneNumber rowIndex = Some r) :
  wf_recipient r
  /\ r = (if startsWith phoneNumber "+91" then substring1 phoneNumber
          else if String.length phoneNumber =? 10 then "91" ++ phoneNumber
          else phoneNumber) ++ "@c.us".
Proof.
  split.
  - now apply (validator_output phoneNumber r rowIndex).
  - now apply (validator_format phoneNumber r rowIndex).
Qed.

(** X2 applied to a number written with a space in it, which gets no
    country code *)
Lemma X2_validator_witness :
  validateAndFormatPhoneNumber "98765 43210" 0 = Some "98765 43210@c.us"
  /\ wf_recipient "98765 43210@c.us".
Proof.
  split; [reflexivity|].
  exact (proj1 (X2_validator_output "98765 43210" "98765 43210@c.us" 0 eq_refl)).
Defined.

Lemma format_rows_omap (rows : list string) :
  forall i, format_rows i rows
            = omap (fun row => validateAndFormatPhoneNumber row 0) rows.
Proof.
  induction rows as [|row rows IH]; intros i; simpl; [reflexivity|].
  rewrite (validator_row_irrelevant row i 0), (IH (S i)).
  destruct (validateAndFormatPhoneNumber row 0); reflexivity.
Qed.

Lemma format_rows_wf (rows : list string) :
  forall i, Forall wf_recipient (format_rows i rows)
            /\ length (format_rows i rows) <= length rows.
Proof.
  induction rows as [|row rows IH]; intros i; simpl; [split; [constructor|lia]|].
  destruct (IH (S i)) as [Hf Hl].
  destruct (validateAndFormatPhoneNumber row i) as [r|] eqn:E; simpl.
  - split; [|lia]. constructor; [|exact Hf].
    exact (validator_output row r i E).
  - split; [exact Hf|lia].
Qed.

Lemma parse_phoneNumbers_wf (text : string) : Forall wf_recipient (parse_phoneNumbers text).
Proof. unfold parse_phoneNumbers. apply format_rows_wf. Qed.

Lemma format_cells_wf (data : list (option string)) :
  forall i, Forall wf_recipient (format_cells i data).
Proof.
  induction data as [|cell data IH]; intros i; simpl; [constructor|].
  destruct cell as [v|]; [|apply IH].
  destruct (validateAndFormatPhoneNumber (trim v) i) as [f|] eqn:Ev; [|apply IH].
  constructor; [|apply IH]. now apply (validator_output (trim v) f i).
Qed.

(** Whatever the branch, the recipients the handler goes on with went
    through the validator *)
Lemma read_request_wf (r : UploadReq) (phones : list string) (media : option Media) :
  read_request r = Recipients phones media -> Forall wf_recipient phones.
Proof.
  assert (Hm : forall files m ps,
            Forall wf_recipient ps ->
            read_mediaFile files m ps = Recipients phones media ->
            Forall wf_recipient phones).
  { intros files m ps Hps. unfold read_mediaFile.
    destruct (media_read m) as [data|err].
    - destruct (String.eqb data ""); [destruct (excelFile files); discriminate|].
      intros H. injection H as <- _. exact Hps.
    - destruct (excelFile files); discriminate. }
  unfold read_request.
  destruct (String.eqb (field_or (u_fileType r) "text") "text").
  { unfold read_text. destruct (negb (truthy (u_phoneNumbers r))); [discriminate|].
    pose proof (parse_phoneNumbers_wf (default "" (u_phoneNumbers r))) as Hw.
    destruct (parse_phoneNumbers _); [discriminate|].
    intros H. injection H as <- _. exact Hw. }
  destruct (String.eqb (field_or (u_fileType r) "text") "excel").
  { unfold read_excel. destruct (u_files r) as [files|]; [|discriminate].
    destruct (excelFile files) as [x|]; [|discriminate].
    destruct (excel_workbook x) as [err|data]; [discriminate|].
    pose proof (format_cells_wf data 0) as Hw.
    destruct (format_cells 0 data); [discriminate|].
    intros H. injection H as <- _. exact Hw. }
  destruct (String.eqb (field_or (u_fileType r) "text") "media").
  { unfold read_media. destruct (u_files r) as [files|]; [|discriminate].
    destruct (mediaUpload files) as [m|]; [|discriminate].
    destruct (truthy (u_phoneNumbers r)).
    - pose proof (parse_phoneNumbers_wf (default "" (u_phoneNumbers r))) as Hw.
      destruct (parse_phoneNumbers _) eqn:E; [discriminate|]. now apply Hm.
    - destruct (excelFile files) as [x|]; [|discriminate].
      destruct (excel_workbook x) as [err|data]; [discriminate|].
      pose proof (format_cells_wf data 0) as Hw.
      destruct (format_cells 0 data) eqn:E; [discriminate|]. now apply Hm. }
  intros H. injection H as <- _. constructor.
Qed.

(** X3: the recipients the upload handler reads from the submitted text
    are the lines that the validator accepts, in their order, each
    validated on its own (blank lines are dropped before); every one of
    them is well formed, and there are at most as many as lines. *)
Theorem X3_parsed_recipients (text : string) :
  parse_phoneNumbers text
  = omap (fun row => validateAndFormatPhoneNumber row 0)
      (List.filter (fun num => 0 <? String.length num)
         (List.map trim (split_lines text)))
  /\ Forall wf_recipient (parse_phoneNumbers text)
  /\ length (parse_phoneNumbers text) <= length (split_lines text).
Proof.
  split; [apply format_rows_omap|]. split; [apply parse_phoneNumbers_wf|].
  unfold parse_phoneNumbers.
  destruct (format_rows_wf
              (List.filter (fun num => 0 <? String.length num)
                 (List.map trim (split_lines text))) 0) as [_ Hl].
  eapply Nat.le_trans; [exact Hl|].
  eapply Nat.le_trans; [apply List.filter_length_le|].
  now rewrite List.length_map.
Qed.

(** *** The failure classifier *)

Lemma unavailable_by_pattern (msg : string) :
  isNumberUnavailableError msg
  = existsb (fun pattern => includes (toLowerCase msg) pattern) unavailablePatterns.
Proof.
  unfold isNumberUnavailableError, unavailablePatterns.
  cbn [existsb].
  destruct (includes (toLowerCase msg) "timeout").
  - cbn [orb andb]. now rewrite !orb_true_r.
  - cbn [andb]. now rewrite orb_false_r.
Qed.

(** X4: the special test of [isNumberUnavailableError] for time-outs
    of 30000ms and 15000ms decides nothing: a message is classified as
    an unavailable number exactly when, in lower case, it contains one
    of the fifteen patterns, [timeout] being one of them. *)
Theorem X4_unavailable_by_pattern (msg : string) :
  isNumberUnavailableError msg
  = existsb (fun pattern => includes (toLowerCase msg) pattern) unavailablePatterns.
Proof. apply unavailable_by_pattern. Qed.

Lemma prefix_lower (p s : string) :
  String.prefix p s = true -> String.prefix (toLowerCase p) (toLowerCase s) = true.
Proof.
  revert s. induction p as [|a p IH]; intros s H; [now destruct s|].
  destruct s as [|b s]; [discriminate H|].
  apply prefix_cons in H as [<- H]. simpl.
  change (String.prefix (String (lower a) (toLowerCase p)) (String (lower a) (toLowerCase s)))
    with (if ascii_dec (lower a) (lower a)
          then String.prefix (toLowerCase p) (toLowerCase s) else false).
  destruct (ascii_dec (lower a) (lower a)); [now apply IH|congruence].
Qed.

Lemma includes_lower (s p : string) :
  includes s p = true -> includes (toLowerCase s) (toLowerCase p) = true.
Proof.
  induction s as [|c s IH]; intros H.
  - change (includes "" p) with (String.prefix p "" || false) in H.
    change (includes (toLowerCase "") (toLowerCase p))
      with (String.prefix (toLowerCase p) (toLowerCase "") || false).
    rewrite orb_false_r in *. now apply prefix_lower.
  - change (includes (String c s) p)
      with (String.prefix p (String c s) || includes s p) in H.
    change (includes (toLowerCase (String c s)) (toLowerCase p))
      with (String.prefix (toLowerCase p) (toLowerCase (String c s))
            || includes (toLowerCase s) (toLowerCase p)).
    apply orb_true_iff in H as [H|H].
    + now rewrite (prefix_lower _ _ H).
    + rewrite (IH H). apply orb_true_r.
Qed.

Lemma timeout_is_unavailable (msg : string) :
  includes msg "timeout" = true -> isNumberUnavailableError msg = true.
Proof.
  intros H. apply includes_lower in H. change (toLowerCase "timeout") with "timeout" in H.
  unfold isNumberUnavailableError, unavailablePatterns. cbn [existsb].
  rewrite H. cbn [orb]. now rewrite !orb_true_r.
Qed.

(** X5: the three categories of the loop's [catch] block.  A failure
    is recorded as [unavailable] exactly when the classifier says so, as
    [connection] exactly when it does not and the message contains
    [connection], and as [failed] otherwise.  The test of the block for
    [timeout] decides nothing: a message with [timeout] in it is
    an unavailable number to the classifier, which is asked first. *)
Theorem X5_categories (err : string) :
  (fst (classify err) = "unavailable" <-> isNumberUnavailableError err = true)
  /\ (fst (classify err) = "connection" <->
      isNumberUnavailableError err = false /\ includes err "connection" = true)
  /\ (fst (classify err) = "failed" <->
      isNumberUnavailableError err = false /\ includes err "connection" = false)
  /\ (includes err "timeout" = true -> fst (classify err) = "unavailable").
Proof.
  unfold classify.
  destruct (isNumberUnavailableError err) eqn:Eu.
  - simpl. repeat split; auto; try discriminate; intros [H _]; discriminate H.
  - assert (Ht : includes err "timeout" = false).
    { destruct (includes err "timeout") eqn:Et; [|reflexivity].
      rewrite (timeout_is_unavailable err Et) in Eu. discriminate Eu. }
    rewrite Ht, orb_false_r.
    destruct (includes err "connection"); simpl;
      repeat split; auto; try discriminate; intros [_ H]; discriminate H.
Qed.

(** X5 applied to a time-out of the page *)
Lemma X5_categories_witness :
  includes "Navigation timeout of 60000 ms exceeded: connection reset" "timeout" = true
  /\ fst (classify "Navigation timeout of 60000 ms exceeded: connection reset")
     = "unavailable".
Proof.
  split; [reflexivity|].
  apply (proj2 (proj2 (proj2
    (X5_categories "Navigation timeout of 60000 ms exceeded: connection reset")))).
  reflexivity.
Defined.

(** *** How the loop records the outcome of a send *)

Lemma wrapped_unavailable (msg : string) :
  isNumberUnavailableError ("Number not available on WhatsApp: " ++ msg) = true.
Proof.
  rewrite unavailable_by_pattern. apply existsb_exists.
  exists "not available". split; [unfold unavailablePatterns; simpl; tauto|].
  vm_compute. reflexivity.
Qed.

Lemma classify_general (msg : string) :
  isNumberUnavailableError msg = false ->
  classify msg = (if includes msg "connection" then "connection" else "failed", msg).
Proof.
  intros Hu. unfold classify. rewrite Hu.
  assert (Ht : includes msg "timeout" = false).
  { destruct (includes msg "timeout") eqn:Et; [|reflexivity].
    rewrite (timeout_is_unavailable msg Et) in Hu. discriminate Hu. }
  rewrite Ht, orb_false_r. now destruct (includes msg "connection").
Qed.

(** X6: a send that fails for good.  When the error of a send is
    classified as an unavailable number, or when it is the error of the
    third attempt, the loop makes no further send to the recipient and
    records the failure once: the entry pushed to [results] and the
    [message_sent] event carry the status [unavailable] and the fixed
    text [Number not available on WhatsApp] in the first case, and in the
    second the status [connection] or [failed], according to whether the
    message contains [connection], and the message itself.  The loop's
    [failureCount] goes up and the loop moves on. *)
Theorem X6_final_failure_recorded (k : nat) (t : Task) (st : State) (msg : string)
    (Hpc : t_pc t = AwaitSend)
    (Hfinal : isNumberUnavailableError msg = true \/ maxAttempts <= t_sendAttempts t) :
  let r := resume k (Rejected msg) t st in
  let status :=
    if isNumberUnavailableError msg then "unavailable"
    else if includes msg "connection" then "connection" else "failed" in
  let error :=
    if isNumberUnavailableError msg then "Number not available on WhatsApp" else msg in
  exists more later,
    t_results (fst r)
    = (t_results t ++ mkResult (phoneNumber_of t) status (Some error) :: more)%list
    /\ t_failureCount (fst r) = S (t_failureCount t) + length more
    /\ t_successCount (fst r) = t_successCount t
    /\ out (snd r)
       = (out st ++ Emit (message_sent (phoneNumber_of t) status (Some error)
                            (progress_of t) (total_of t) (t_campaignId t)) :: later)%list
    /\ t_i t < t_i (fst r).
Proof.
  intros r status error.
  assert (Hr : exists err, r = failed k err t st
                           /\ classify err = (status, error)).
  { unfold r, resume, try_resume. rewrite Hpc. unfold send_failed, status, error.
    destruct (isNumberUnavailableError msg) eqn:Eu.
    - eexists. split; [reflexivity|]. unfold classify.
      now rewrite wrapped_unavailable.
    - destruct Hfinal as [Hf|Hf]; [discriminate Hf|].
      apply Nat.ltb_ge in Hf. rewrite Hf.
      eexists. split; [reflexivity|]. now apply classify_general. }
  destruct Hr as (err & -> & Hc).
  destruct (failed_contained k err t st) as (_ & (more & later & R & F & S & O) & Hi & _).
  exists more, later. unfold failure_entry, failure_event in *. rewrite Hc in *.
  simpl in *. auto.
Qed.

(** X6 applied to the first send of campaign [c1] failing with an
    invalid number *)
Lemma X6_final_failure_witness :
  exists t,
    jobs (run Scenario.sending_first init) !! 0 = Some (Loop t)
    /\ t_pc t = AwaitSend
    /\ isNumberUnavailableError "invalid number" = true
    /\ t_i t < t_i (fst (resume 0 (Rejected "invalid number") t
                           (run Scenario.sending_first init))).
Proof.
  destruct (jobs (run Scenario.sending_first init) !! 0) as [[t|pc]|] eqn:Hjob;
    [|vm_compute in Hjob; discriminate Hjob..].
  assert (Hpc : t_pc t = AwaitSend).
  { vm_compute in Hjob. injection Hjob as <-. reflexivity. }
  assert (Hu : isNumberUnavailableError "invalid number" = true) by (vm_compute; reflexivity).
  exists t. split; [reflexivity|]. split; [exact Hpc|]. split; [exact Hu|].
  destruct (X6_final_failure_recorded 0 t (run Scenario.sending_first init)
              "invalid number" Hpc (or_introl Hu))
    as (more & later & _ & _ & _ & _ & Hi).
  exact Hi.
Defined.

(** *** What the [catch] block counts *)






Lemma complete_task (t : Task) (st : State) :
  t_results (fst (complete t st)) = t_results t
  /\ t_successCount (fst (complete t st)) = t_successCount t
  /\ t_failureCount (fst (complete t st)) = t_failureCount t
  /\ t_i (fst (complete t st)) = t_i t
  /\ iterating (t_pc (fst (complete t st))) = false.
Proof.
  unfold complete, returned, upload_resume.
  repeat match goal with
         | |- context [match ?x with _ => _ end] => destruct x
         end; repeat split.
Qed.

(** The completion block for a campaign of the active pool: the campaign
    leaves the pool and the completion event reports its counters *)
Lemma complete_active (t : Task) (st : State) (id : string) (c : Campaign) :
  campaign_of t = Some id -> JsMap.get id (activeCampaigns st) = Some c ->
  JsMap.get id (activeCampaigns (snd (complete t st))) = None
  /\ In (Emit (bulk_send_complete (length (phoneNumbers c)) (sentCount c) (failedCount c)
                 (Some (count_status "unavailable" (t_results t),
                        count_status "connection" (t_results t),
                        count_status "failed" (t_results t)))
                 (t_campaignId t)))
        (out (snd (complete t st))).
Proof.
  intros Hc Hg. unfold complete. rewrite Hc, Hg.
  set (st2 := emit _ (set_active _ st)).
  set (st3 := match mediaFile c with Some (mkMedia (Some path) _) => _ | _ => _ end).
  assert (H3 : JsMap.get id (activeCampaigns st3) = None
               /\ In (Emit (bulk_send_complete (length (phoneNumbers c)) (sentCount c)
                              (failedCount c)
                              (Some (count_status "unavailable" (t_results t),
                                     count_status "connection" (t_results t),
                                     count_status "failed" (t_results t)))
                              (t_campaignId t))) (out st3)).
  { unfold st3. destruct (mediaFile c) as [[[path|] fn]|]; simpl;
      (split; [apply get_delete_eq|]); rewrite ?in_app_iff; simpl; auto. }
  destruct H3 as [Hn Hin].
  assert (Hret : forall s,
            activeCampaigns (snd (returned s t st3)) = activeCampaigns st3
            /\ exists later, out (snd (returned s t st3)) = (out st3 ++ later)%list).
  { intros s. unfold returned, upload_resume, upload_finish, unlink.
    destruct (t_caller t); [split; [reflexivity|grows]|].
    destruct (closeChromeBrowser_waits _); [|destruct (uploaded_media t)];
      (split; [reflexivity|grows]). }
  destruct (closeChromeBrowser_waits st3); simpl.
  - split; assumption.
  - destruct (Hret (mkSummary (t_successCount t) (t_failureCount t) (t_results t)))
      as [Ha (later & Ho)].
    rewrite Ha, Ho. split; [exact Hn|]. apply in_app_iff. now left.
Qed.

(** The completion block for a loop whose campaign is not in the active
    pool, or that works for none: no stored campaign is touched, and a
    loop started by [continueCampaign] reports nothing *)
Lemma complete_absent (t : Task) (st : State) :
  ((forall id, campaign_of t = Some id -> JsMap.get id (activeCampaigns st) = None) ->
   activeCampaigns (snd (complete t st)) = activeCampaigns st)
  /\ ((forall id, campaign_of t = Some id -> JsMap.get id (activeCampaigns st) = None) ->
      t_caller t = FromContinueCampaign ->
      out (snd (complete t st)) = out st).
Proof.
  assert (Hret : forall s,
            activeCampaigns (snd (returned s t st)) = activeCampaigns st
            /\ (t_caller t = FromContinueCampaign -> out (snd (returned s t st)) = out st)).
  { intros s. unfold returned, upload_resume, upload_finish, unlink.
    destruct (t_caller t); [split; reflexivity|].
    destruct (closeChromeBrowser_waits _); [|destruct (uploaded_media t)];
      (split; [reflexivity|discriminate]). }
  unfold complete. destruct (campaign_of t) as [id|].
  - split; intros Hout; rewrite (Hout id eq_refl); apply Hret.
  - split; intros _; apply Hret.
Qed.

Lemma out_emit (e : Event) (st : State) : out (emit e st) = (out st ++ [Emit e])%list.
Proof. reflexivity. Qed.

(** X7: a send that succeeds.  The loop pushes one entry with status
    [sent] to [results], raises its [successCount] by one, records
    nothing else and emits one [message_sent] event with status [sent];
    the paused pool is not touched.  If another recipient follows, the
    loop starts its pacing delay and stays at the recipient; if it was
    the last one the loop leaves the [for] loop at once.  What is
    written to the campaign depends on where it is.  If the campaign is
    in the active pool, its [sentCount] goes up by one, and after the
    last recipient it is removed from the pool and the completion event
    reports its counters, this send included.  If it is not (it was
    paused or removed while the send was pending), no stored campaign is
    touched: both pools stay as they are, no [sentCount] changes, and
    after the last recipient a loop started by [continueCampaign]
    reports no completion. *)
Theorem X7_success_recorded (k : nat) (t : Task) (st : State) (v : string)
    (Hpc : t_pc t = AwaitSend) :
  let r := resume k (Resolved v) t st in
  let event := Emit (message_sent (phoneNumber_of t) "sent" None
                       (progress_of t) (total_of t) (t_campaignId t)) in
  t_results (fst r) = (t_results t ++ [mkResult (phoneNumber_of t) "sent" None])%list
  /\ t_successCount (fst r) = S (t_successCount t)
  /\ t_failureCount (fst r) = t_failureCount t
  /\ (exists later, out (snd r) = (out st ++ event :: later)%list)
  /\ pausedCampaigns (snd r) = pausedCampaigns st
  /\ ((forall id, campaign_of t = Some id -> JsMap.get id (activeCampaigns st) = None) ->
      activeCampaigns (snd r) = activeCampaigns st)
  /\ match t_phoneNumbers t !! S (t_i t) with
     | Some _ =>
         t_pc (fst r) = AwaitHumanDelay /\ t_i (fst r) = t_i t
         /\ forall id c, campaign_of t = Some id ->
              JsMap.get id (activeCampaigns st) = Some c ->
              JsMap.get id (activeCampaigns (snd r)) = Some (record_sent (now st) c)
     | None =>
         iterating (t_pc (fst r)) = false /\ t_i (fst r) = S (t_i t)
         /\ (forall id c, campaign_of t = Some id ->
              JsMap.get id (activeCampaigns st) = Some c ->
              JsMap.get id (activeCampaigns (snd r)) = None
              /\ In (Emit (bulk_send_complete (length (phoneNumbers c))
                             (S (sentCount c)) (failedCount c)
                             (Some (count_status "unavailable" (t_results (fst r)),
                                    count_status "connection" (t_results (fst r)),
                                    count_status "failed" (t_results (fst r))))
                             (t_campaignId t)))
                    (out (snd r)))
         /\ (forall id, campaign_of t = Some id ->
              JsMap.get id (activeCampaigns st) = None ->
              t_caller t = FromContinueCampaign ->
              out (snd r) = (out st ++ [event])%list)
     end.
Proof.
  intros r event. unfold r, event, resume, try_resume. rewrite Hpc. unfold sent.
  set (t1 := push_sent _ t). set (st1 := with_campaign t _ st).
  set (st2 := emit _ st1).
  assert (Ho2 : out st2 = (out st ++ [Emit (message_sent (phoneNumber_of t) "sent" None
                                              (progress_of t) (total_of t)
                                              (t_campaignId t))])%list).
  { unfold st2, st1. simpl. now rewrite untouched_with_campaign_out. }
  assert (Hg2 : forall id c, campaign_of t = Some id ->
            JsMap.get id (activeCampaigns st) = Some c ->
            JsMap.get id (activeCampaigns st2) = Some (record_sent (now st) c)).
  { intros id c Hc Hg. unfold st2, st1, with_campaign. rewrite Hc. simpl.
    now rewrite get_update_eq, Hg. }
  assert (Hp2 : pausedCampaigns st2 = pausedCampaigns st).
  { unfold st2, st1, with_campaign. now destruct (campaign_of t). }
  assert (Ha2 : (forall id, campaign_of t = Some id ->
                            JsMap.get id (activeCampaigns st) = None) ->
                activeCampaigns st2 = activeCampaigns st).
  { intros Hout. unfold st2, st1, with_campaign.
    destruct (campaign_of t) as [id|]; [|reflexivity].
    simpl. unfold JsMap.update. now rewrite (Hout id eq_refl). }
  destruct (S (t_i t) <? length (t_phoneNumbers t)) eqn:El.
  - apply Nat.ltb_lt in El. cbn [fst snd].
    split; [reflexivity|]. split; [reflexivity|]. split; [reflexivity|].
    split; [rewrite out_emit, Ho2, <- List.app_assoc; eexists; reflexivity|].
    split; [exact Hp2|]. split; [exact Ha2|].
    destruct (lookup_lt_is_Some_2 (t_phoneNumbers t) (S (t_i t)) El) as [p ->].
    split; [reflexivity|]. split; [reflexivity|exact Hg2].
  - apply Nat.ltb_ge in El.
    rewrite (lookup_ge_None_2 (t_phoneNumbers t) (S (t_i t)) El).
    unfold next_iteration, loop_head.
    change (t_i (next_i t1)) with (S (t_i t)).
    change (t_phoneNumbers (next_i t1)) with (t_phoneNumbers t).
    rewrite drop_ge by exact El. cbn [iterate].
    destruct (complete_task (next_i t1) st2) as (R & Sc & F & I & It).
    pose proof (keeps_complete (next_i t1) st2) as (_ & _ & later & Ol).
    pose proof (complete_active (next_i t1) st2) as Hact.
    pose proof (advances_complete (next_i t1) st2) as (_ & _ & Hpa & _).
    pose proof (complete_absent (next_i t1) st2) as Habs.
    destruct (complete (next_i t1) st2) as [t' st']. simpl in *.
    split; [exact R|]. split; [exact Sc|]. split; [exact F|].
    split; [exists later; rewrite Ol, Ho2, <- List.app_assoc; reflexivity|].
    split; [congruence|].
    split.
    { intros Hout. rewrite <- (Ha2 Hout). apply Habs.
      intros id Hc. rewrite (Ha2 Hout). now apply Hout. }
    split; [exact It|]. split; [exact I|]. split.
    + intros id c Hc Hg. rewrite R.
      exact (Hact id (record_sent (now st) c) Hc (Hg2 id c Hc Hg)).
    + intros id Hc Hg Hcaller.
      assert (Hout : forall id', campaign_of t = Some id' ->
                JsMap.get id' (activeCampaigns st) = None) by congruence.
      destruct Habs as [_ Hquiet]. rewrite <- Ho2. apply Hquiet; [|exact Hcaller].
      intros id' Hc'. rewrite (Ha2 Hout). now apply Hout.
Qed.

(** X7 applied to the first send of campaign [c1], the only one *)
Lemma X7_success_witness :
  exists t,
    jobs (run Scenario.sending_first init) !! 0 = Some (Loop t)
    /\ t_pc t = AwaitSend
    /\ t_successCount (fst (resume 0 Scenario.done t (run Scenario.sending_first init)))
       = S (t_successCount t).
Proof.
  destruct (jobs (run Scenario.sending_first init) !! 0) as [[t|pc]|] eqn:Hjob;
    [|vm_compute in Hjob; discriminate Hjob..].
  assert (Hpc : t_pc t = AwaitSend).
  { vm_compute in Hjob. injection Hjob as <-. reflexivity. }
  exists t. split; [reflexivity|]. split; [exact Hpc|].
  exact (proj1 (proj2
    (X7_success_recorded 0 t (run Scenario.sending_first init) "" Hpc))).
Defined.

(** *** What is kept of the pools and of the failure counter *)

Lemma steady_refl (c : Campaign) : steady c c.
Proof. repeat split; auto. Qed.

Lemma steady_trans (c1 c2 c3 : Campaign) : steady c1 c2 -> steady c2 c3 -> steady c1 c3.
Proof. unfold steady. intuition (try congruence; try lia). Qed.

Lemma kept_refl (st : State) : kept st st.
Proof.
  split; [reflexivity|]. split; [|auto].
  intros id c H. exists c. auto using steady_refl.
Qed.

Lemma kept_trans (st1 st2 st3 : State) : kept st1 st2 -> kept st2 st3 -> kept st1 st3.
Proof.
  intros (P1 & A1 & L1) (P2 & A2 & L2). split; [congruence|]. split; [|auto].
  intros id c3 H3. destruct (A2 id c3 H3) as (c2 & H2 & S2 & F2).
  destruct (A1 id c2 H2) as (c1 & H1 & S1 & F1).
  exists c1. split; [exact H1|]. split; [eapply steady_trans; eauto|congruence].
Qed.

(** A change of the state that leaves pools and counter as they are *)
Lemma kept_ext (st st1 st2 : State) :
  kept st st1 ->
  activeCampaigns st2 = activeCampaigns st1 ->
  pausedCampaigns st2 = pausedCampaigns st1 ->
  connectionFailureCount st2 = connectionFailureCount st1 ->
  kept st st2.
Proof.
  intros (P & A & L) Ha Hp Hc. unfold kept, low_failures in *.
  rewrite Ha, Hp, Hc. auto.
Qed.

Lemma kept_same (st st' : State) :
  activeCampaigns st' = activeCampaigns st ->
  pausedCampaigns st' = pausedCampaigns st ->
  connectionFailureCount st' = connectionFailureCount st ->
  kept st st'.
Proof. intros. apply (kept_ext st st); auto using kept_refl. Qed.

Lemma kept_reset (st st' : State) :
  activeCampaigns st' = activeCampaigns st ->
  pausedCampaigns st' = pausedCampaigns st ->
  connectionFailureCount st' = 0 ->
  kept st st'.
Proof.
  intros Ha Hp Hc. unfold kept, low_failures. rewrite Ha, Hp, Hc.
  split; [reflexivity|]. split; [|intros _; unfold MAX_CONNECTION_FAILURES; lia].
  intros id c H. exists c. auto using steady_refl.
Qed.

Lemma kept_update (id : string) (f : Campaign -> Campaign) (st : State) :
  (forall c, steady c (f c) /\ isPaused (f c) = isPaused c) ->
  kept st (set_active (JsMap.update id f (activeCampaigns st)) st).
Proof.
  intros Hf. split; [reflexivity|]. split; [|auto]. simpl.
  intros id' c' H. destruct (String.eqb_spec id id') as [<-|Hne].
  - rewrite get_update_eq in H.
    destruct (JsMap.get id (activeCampaigns st)) as [c|]; [|discriminate H].
    injection H as <-. exists c. split; [reflexivity|apply Hf].
  - rewrite get_update_ne in H by exact Hne. exists c'. auto using steady_refl.
Qed.

Lemma kept_set (id : string) (c c1 : Campaign) (st : State) :
  JsMap.get id (activeCampaigns st) = Some c ->
  steady c c1 -> isPaused c1 = isPaused c ->
  kept st (set_active (JsMap.set id c1 (activeCampaigns st)) st).
Proof.
  intros Hg Hs Hp. split; [reflexivity|]. split; [|auto]. simpl.
  intros id' c' H. destruct (String.eqb_spec id id') as [<-|Hne].
  - rewrite get_set_eq in H. injection H as <-. exists c. auto.
  - rewrite get_set_ne in H by exact Hne. exists c'. auto using steady_refl.
Qed.

Lemma kept_delete (id : string) (st : State) :
  kept st (set_active (JsMap.delete id (activeCampaigns st)) st).
Proof.
  split; [reflexivity|]. split; [|auto]. simpl.
  intros id' c' H. destruct (String.eqb_spec id id') as [<-|Hne].
  - now rewrite get_delete_eq in H.
  - rewrite get_delete_ne in H by exact Hne. exists c'. auto using steady_refl.
Qed.

Lemma kept_output (st st' : State) (o : Output) : kept st st' -> kept st (output o st').
Proof. intros H. now apply (kept_ext st st'). Qed.

Lemma kept_unlink (st st' : State) (path : option string) :
  kept st st' -> kept st (unlink path st').
Proof. intros H. destruct path; [now apply kept_output|exact H]. Qed.

Lemma kept_unlink_all (st : State) (paths : list string) : kept st (unlink_all paths st).
Proof. rewrite unlink_all_out. apply kept_same; reflexivity. Qed.

Lemma kept_between (between : State -> State) (st st' : State) :
  benign between -> kept st st' -> kept st (between st').
Proof.
  intros Hb H. destruct (Hb st') as [->|(code & b & ->)]; [assumption|].
  now apply kept_output.
Qed.

Lemma kept_forceReconnection_begin (st : State) : kept st (forceReconnection_begin st).
Proof. apply kept_reset; reflexivity. Qed.

Lemma kept_validateConnection_catch (err : string) (st : State) :
  kept st (state_of (validateConnection_catch err st)).
Proof.
  unfold validateConnection_catch.
  destruct (MAX_CONNECTION_FAILURES <=? _) eqn:E.
  - destruct (client _); simpl state_of; apply kept_reset; reflexivity.
  - simpl state_of. apply Nat.leb_gt in E. simpl in E.
    split; [reflexivity|]. split; [|intros _; exact E].
    intros id c H. exists c. auto using steady_refl.
Qed.

Lemma kept_validateConnection_begin (st : State) :
  kept st (state_of (validateConnection_begin st)).
Proof.
  unfold validateConnection_begin. destruct (client st) as [c|]; [|apply kept_refl].
  destruct (negb _ || negb _); [apply kept_refl|].
  destruct (negb (pupPage c)); [|apply kept_refl].
  apply kept_validateConnection_catch.
Qed.

Lemma kept_validateConnection_settle (o : Outcome) (st : State) :
  kept st (state_of (validateConnection_settle o st)).
Proof.
  destruct o as [state|msg]; simpl.
  - destruct (String.eqb state "CONNECTED"); [apply kept_reset; reflexivity|].
    apply kept_validateConnection_catch.
  - apply kept_validateConnection_catch.
Qed.

Lemma kept_with_campaign (t : Task) (f : Campaign -> Campaign) (st : State) :
  (forall c, steady c (f c) /\ isPaused (f c) = isPaused c) ->
  kept st (with_campaign t f st).
Proof.
  intros Hf. unfold with_campaign. destruct (campaign_of t); [|apply kept_refl].
  now apply kept_update.
Qed.

Lemma steady_record_failed (n : Z) (c : Campaign) :
  steady c (record_failed n c) /\ isPaused (record_failed n c) = isPaused c.
Proof. unfold steady; simpl; repeat split; auto. Qed.

Lemma steady_record_sent (n : Z) (c : Campaign) :
  steady c (record_sent n c) /\ isPaused (record_sent n c) = isPaused c.
Proof. unfold steady; simpl; repeat split; auto. Qed.

Lemma kept_catch_block (err : string) (t : Task) (st : State) :
  kept st (snd (catch_block err t st)).
Proof.
  unfold catch_block. destruct (classify err) as [category msg]. simpl.
  apply kept_output, kept_with_campaign. intros c. apply steady_record_failed.
Qed.

Lemma kept_returned (s : Summary) (t : Task) (st : State) : kept st (snd (returned s t st)).
Proof.
  unfold returned, upload_resume, upload_finish, unlink.
  destruct (t_caller t); [apply kept_refl|].
  destruct (closeChromeBrowser_waits _); [|destruct (uploaded_media t)];
    apply kept_same; reflexivity.
Qed.

Lemma kept_complete (t : Task) (st : State) : kept st (snd (complete t st)).
Proof.
  unfold complete. destruct (campaign_of t) as [id|]; [|apply kept_returned].
  destruct (JsMap.get id (activeCampaigns st)) as [c|]; [|apply kept_returned].
  set (st3 := match mediaFile c with Some (mkMedia (Some path) _) => _ | _ => _ end).
  assert (H3 : kept st st3).
  { unfold st3. destruct (mediaFile c) as [[[path|] fn]|];
      repeat apply kept_output; apply kept_delete. }
  destruct (closeChromeBrowser_waits st3); [exact H3|].
  eapply kept_trans; [exact H3|apply kept_returned].
Qed.

Lemma kept_head (t : Task) (st : State) :
  match head t st with
  | HStop st' => st' = st
  | HChecked v => kept st (state_of v)
  end.
Proof.
  unfold head. destruct (campaign_of t) as [id|].
  - destruct (JsMap.get id (activeCampaigns st)) as [c|] eqn:Eg; [|reflexivity].
    destruct (isPaused c); [reflexivity|].
    eapply kept_trans; [|apply kept_validateConnection_begin].
    apply (kept_set id c); [exact Eg| |reflexivity].
    unfold steady; simpl; repeat split; auto.
  - apply kept_validateConnection_begin.
Qed.

Lemma kept_validated (k : nat) (site : Site) (t : Task) (st : State) :
  kept st (snd (validated k site t st)).
Proof.
  unfold validated, begin_send.
  destruct site; [destruct (_ || _)|]; apply kept_same; reflexivity.
Qed.

Lemma kept_iterate (rest : list string) :
  forall between k t st, benign between -> kept st (snd (iterate between k rest t st)).
Proof.
  induction rest as [|p rest IH]; intros between k t st Hb; simpl.
  - pose proof (kept_complete t st) as Hc.
    destruct (complete t st) as [t' st']. now apply kept_between.
  - pose proof (kept_head t st) as Hh. pose proof (head_spec t st) as Hs.
    destruct (head t st) as [st'|[st'|err st'|st'|err st']]; simpl in Hh.
    + subst st'. apply kept_between; [exact Hb|apply kept_refl].
    + destruct Hs as [_ Hs]. now destruct (Hs st').
    + pose proof (kept_catch_block err t (between st')) as Hc.
      destruct (catch_block err t (between st')) as [t1 st1]. simpl in Hc.
      eapply kept_trans; [apply kept_between; eauto|].
      eapply kept_trans; [exact Hc|]. apply IH, benign_id.
    + now apply kept_between.
    + now apply kept_between.
Qed.

Lemma kept_next_iteration (k : nat) (t : Task) (st : State) :
  kept st (snd (next_iteration k t st)).
Proof. unfold next_iteration, loop_head. apply kept_iterate, benign_id. Qed.

Lemma kept_failed (k : nat) (err : string) (t : Task) (st : State) :
  kept st (snd (failed k err t st)).
Proof.
  unfold failed. pose proof (kept_catch_block err t st) as Hc.
  destruct (catch_block err t st) as [t1 st1]. simpl in Hc.
  eapply kept_trans; [exact Hc|apply kept_next_iteration].
Qed.

Lemma kept_sent (k : nat) (t : Task) (st : State) : kept st (snd (sent k t st)).
Proof.
  unfold sent.
  set (st2 := emit _ (with_campaign t _ st)).
  assert (H2 : kept st st2).
  { unfold st2. apply kept_output, kept_with_campaign. intros c. apply steady_record_sent. }
  destruct (_ <? _); [now apply kept_output|].
  eapply kept_trans; [exact H2|apply kept_next_iteration].
Qed.

Lemma kept_session (c : option Client) (r a : bool) (st : State) :
  kept st (set_session c r a st).
Proof. apply kept_same; reflexivity. Qed.

Lemma kept_forceReconnection_end (st : State) : kept st (forceReconnection_end st).
Proof. apply kept_same; reflexivity. Qed.

Lemma kept_closeChromeBrowser_end (o : Outcome) (st : State) :
  kept st (closeChromeBrowser_end o st).
Proof.
  unfold closeChromeBrowser_end. destruct o, (client st);
    first [apply kept_refl | apply kept_same; reflexivity].
Qed.

Lemma kept_after_validation (k : nat) (site : Site) (v : Validation) (t : Task)
    (st : State) :
  kept st (state_of v) ->
  match after_validation k site v t with
  | Went r => kept st (snd r)
  | Threw _ st' => kept st st'
  end.
Proof.
  intros H. destruct v as [st1|err st1|st1|err st1]; simpl in *; auto.
  eapply kept_trans; [exact H|apply kept_validated].
Qed.

Lemma kept_resume (k : nat) (o : Outcome) (t : Task) (st : State) :
  kept st (snd (resume k o t st)).
Proof.
  assert (Hthrow : forall r, match r with
                             | Went r => kept st (snd r)
                             | Threw _ st' => kept st st'
                             end ->
                             kept st (snd match r with
                                          | Went r => r
                                          | Threw err st' => failed k err t st'
                                          end)).
  { intros [err st'|r] H; [|exact H].
    eapply kept_trans; [exact H|apply kept_failed]. }
  unfold resume. apply Hthrow. unfold try_resume.
  destruct (t_pc t) as [site|site err| | | | |s|total s|r].
  - apply kept_after_validation, kept_validateConnection_settle.
  - apply kept_forceReconnection_end.
  - apply kept_same; reflexivity.
  - destruct o as [v|msg]; [apply kept_sent|].
    unfold send_failed. destruct (isNumberUnavailableError msg); [apply kept_refl|].
    destruct (_ <? _); apply kept_refl.
  - apply kept_after_validation, kept_validateConnection_begin.
  - apply kept_next_iteration.
  - eapply kept_trans; [apply kept_closeChromeBrowser_end|apply kept_returned].
  - simpl. unfold upload_finish. apply kept_output, kept_unlink, kept_closeChromeBrowser_end.
  - apply kept_refl.
Qed.

Lemma kept_spawn (phones : list string) (msg : string) (cid : option string)
    (start : nat) (delay : string) (media : option Media) (caller : Caller)
    (between : State -> State) (st : State) :
  benign between -> kept st (spawn phones msg cid start delay media caller between st).
Proof.
  intros Hb. unfold spawn, loop_head.
  set (t0 := mkTask _ _ _ _ _ _ _ _ _ _ _ _ _).
  pose proof (kept_iterate (drop (t_i t0) (t_phoneNumbers t0)) between
                (length (jobs st)) t0 st Hb) as H.
  destruct (iterate _ _ _ t0 st) as [t' st']. simpl in H.
  now apply (kept_ext st st').
Qed.

Lemma kept_continueCampaign (id : string) (between : State -> State) (st : State) :
  benign between -> kept st (continueCampaign id between st).
Proof.
  intros Hb. unfold continueCampaign.
  destruct (JsMap.get id (activeCampaigns st)) as [c|];
    [|apply kept_between; [exact Hb|apply kept_refl]].
  destruct (isPaused c); [apply kept_between; [exact Hb|apply kept_refl]|].
  destruct (negb _ || negb _).
  - apply kept_between; [exact Hb|]. apply kept_same; reflexivity.
  - eapply kept_trans; [|apply kept_spawn; exact Hb].
    apply kept_output, kept_refl.
Qed.

Lemma kept_fold (f : State -> string * Campaign -> State)
    (entries : list (string * Campaign)) :
  (forall s e, kept s (f s e)) -> forall st, kept st (fold_left f entries st).
Proof.
  intros Hf. induction entries as [|e entries IH]; intros st; simpl; [apply kept_refl|].
  eapply kept_trans; [apply Hf|apply IH].
Qed.

Lemma kept_checkStuckCampaigns (st : State) : kept st (checkStuckCampaigns st).
Proof.
  unfold checkStuckCampaigns. apply kept_fold. intros s [id c]. unfold check_stuck_one.
  destruct (isPaused c); [apply kept_refl|].
  destruct (_ <? _)%Z; [apply kept_same; reflexivity|apply kept_refl].
Qed.

Lemma kept_campaignHealthTick (st : State) : kept st (campaignHealthTick st).
Proof.
  unfold campaignHealthTick. destruct (campaignHealthInterval st); [|apply kept_refl].
  apply kept_fold. intros s [id c]. unfold campaign_health_one.
  destruct (isPaused c); [apply kept_refl|].
  destruct (_ <? _)%Z; [apply kept_same; reflexivity|apply kept_refl].
Qed.

Lemma kept_initialize (st : State) : kept st (initializeWhatsAppClient st).
Proof.
  unfold initializeWhatsAppClient. destruct (isInitializing st);
    [apply kept_refl|apply kept_same; reflexivity].
Qed.

Lemma kept_resume_monitor (pc : MonitorPc) (o : Outcome) (st : State) :
  kept st (snd (resume_monitor pc o st)).
Proof.
  assert (Hfail :
    kept st (snd (let st1 := set_failures (S (connectionFailureCount st)) st in
                  if MAX_CONNECTION_FAILURES <=? connectionFailureCount st1
                  then let st2 := forceReconnection_begin st1 in
                       match client st2 with
                       | Some _ => (KeepAliveDestroy, st2)
                       | None => (MonitorDone, forceReconnection_noclient st2)
                       end
                  else (MonitorDone, st1)))).
  { cbv zeta. destruct (MAX_CONNECTION_FAILURES <=? _) eqn:E.
    - destruct (client _); apply kept_reset; reflexivity.
    - apply Nat.leb_gt in E. simpl in E. simpl.
      split; [reflexivity|]. split; [|intros _; exact E].
      intros id c H. exists c. auto using steady_refl. }
  destruct pc; simpl.
  - destruct o as [state|msg]; [|exact Hfail].
    destruct (String.eqb state "CONNECTED"); [apply kept_reset; reflexivity|exact Hfail].
  - apply kept_forceReconnection_end.
  - destruct o as [state|msg].
    + eapply kept_trans; [|apply kept_checkStuckCampaigns]. apply kept_reset; reflexivity.
    + destruct (client _); simpl.
      * apply kept_forceReconnection_begin.
      * eapply kept_trans; [|apply kept_checkStuckCampaigns]. apply kept_reset; reflexivity.
  - eapply kept_trans; [|apply kept_checkStuckCampaigns]. apply kept_forceReconnection_end.
  - apply kept_refl.
Qed.

Lemma kept_settle (k : nat) (o : Outcome) (st : State) : kept st (settle k o st).
Proof.
  unfold settle. destruct (jobs st !! k) as [[t|pc]|]; [| |apply kept_refl].
  - pose proof (kept_resume k o t st) as H.
    destruct (resume k o t st) as [t' st']. now apply (kept_ext st st').
  - pose proof (kept_resume_monitor pc o st) as H.
    destruct (resume_monitor pc o st) as [pc' st']. now apply (kept_ext st st').
Qed.

Lemma benign_restart (id : string) (c0 : Campaign) :
  benign (fun s =>
            match JsMap.get id (activeCampaigns s) with
            | Some c => respond 200 (campaign_body "Campaign restarted successfully" c) s
            | None => respond 200 (campaign_body "Campaign restarted successfully" c0) s
            end).
Proof. intros s. right. destruct (JsMap.get id (activeCampaigns s)); eauto. Qed.

Lemma kept_restart (cid : option string) (st : State) : kept st (restart cid st).
Proof.
  unfold restart. destruct (negb (truthy cid)); [apply kept_output, kept_refl|].
  destruct (JsMap.get (default "" cid) (activeCampaigns st)) as [c|] eqn:Eg;
    [|apply kept_output, kept_refl].
  eapply kept_trans; [|apply kept_continueCampaign, benign_restart].
  apply (kept_set _ c); [exact Eg| |reflexivity].
  unfold steady; simpl; repeat split; auto.
Qed.

(** Every transition but the three requests that register or move a
    campaign *)
Lemma step_kept (st : State) (l : Label) :
  match l with
  | Upload _ | Pause _ | Resume _ => True
  | _ => kept st (step st l)
  end.
Proof.
  destruct l as [r|cid|cid|cid|k| | | |k o|ms| | | |reason|c rd au]; simpl; auto.
  - apply kept_restart.
  - destruct (timers st !! k) as [[a|]|]; try apply kept_refl.
    set (st1 := set_timers _ st).
    assert (H1 : kept st st1) by (apply kept_same; reflexivity).
    eapply kept_trans; [exact H1|].
    destruct a as [id| |]; simpl.
    + apply kept_continueCampaign, benign_id.
    + apply kept_initialize.
    + destruct (negb _ && negb _); [apply kept_initialize|apply kept_refl].
  - unfold keepAliveTick. destruct (_ && _); [apply kept_same; reflexivity|apply kept_refl].
  - unfold healthCheckTick. destruct (connectionHealthCheckInterval st); [|apply kept_refl].
    destruct (_ && _); [apply kept_same; reflexivity|apply kept_checkStuckCampaigns].
  - apply kept_campaignHealthTick.
  - apply kept_settle.
  - apply kept_same; reflexivity.
  - apply kept_initialize.
  - apply kept_same; reflexivity.
  - apply kept_reset; reflexivity.
  - unfold on_disconnected. destruct (negb _ && negb _); apply kept_same; reflexivity.
  - apply kept_session.
Qed.

(** *** The requests that register or move a campaign *)


Lemma pause_cases (cid : option string) (st : State) :
  (exists code msg, pause cid st = respond code (body_error msg) st
                    /\ ((code = 400 /\ truthy cid = false)
                        \/ (code = 404 /\ truthy cid = true
                            /\ JsMap.get (default "" cid) (activeCampaigns st) = None)))
  \/ (exists id c,
        cid = Some id /\ truthy cid = true
        /\ JsMap.get id (activeCampaigns st) = Some c
        /\ pause cid st
           = respond 200
               (campaign_body "Campaign paused successfully" (mark_paused (now st) c))
               (set_active (JsMap.delete id (activeCampaigns st))
                  (set_paused (JsMap.set id (mark_paused (now st) c) (pausedCampaigns st))
                     st))).
Proof.
  unfold pause. destruct (truthy cid) eqn:Et; simpl.
  - destruct cid as [id|]; [|discriminate Et]. simpl.
    destruct (JsMap.get id (activeCampaigns st)) as [c|] eqn:Eg.
    + right. exists id, c. auto.
    + left. eexists; eexists. split; [reflexivity|]. right. auto.
  - left. eexists; eexists. split; [reflexivity|]. left. auto.
Qed.

Lemma resume_cases (cid : option string) (st : State) :
  (exists code msg, resume_campaign cid st = respond code (body_error msg) st
                    /\ ((code = 400 /\ truthy cid = false)
                        \/ (code = 404 /\ truthy cid = true
                            /\ JsMap.get (default "" cid) (pausedCampaigns st) = None)))
  \/ (exists id c msg,
        cid = Some id /\ truthy cid = true
        /\ JsMap.get id (pausedCampaigns st) = Some c
        /\ resume_campaign cid st
           = respond 500 (body_error msg)
               (set_paused (JsMap.delete id (pausedCampaigns st))
                  (set_active (JsMap.set id (mark_resumed (now st) c) (activeCampaigns st))
                     st))).
Proof.
  unfold resume_campaign. destruct (truthy cid) eqn:Et; simpl.
  - destruct cid as [id|]; [|discriminate Et]. simpl.
    destruct (JsMap.get id (pausedCampaigns st)) as [c|] eqn:Eg.
    + right. exists id, c. eexists. auto.
    + left. eexists; eexists. split; [reflexivity|]. right. auto.
  - left. eexists; eexists. split; [reflexivity|]. left. auto.
Qed.

(** *** Invariants of the stored campaigns and of the failure counter *)

Lemma step_low (st : State) (l : Label) : low_failures st -> low_failures (step st l).
Proof.
  intros Hl. pose proof (step_kept st l) as Hk.
  destruct l as [r|cid|cid|cid|k| | | |k o|ms| | | |reason|c rd au];
    try (now apply Hk).
  - simpl. destruct (upload_cases r st)
      as [(paths & code & msg & _ & ->)
         |[(id & c & phones & media & paths & uploaded & _ & _ & _ & _ & ->)
          |(phones & media & paths & uploaded & _ & _ & ->)]].
    + unfold low_failures. simpl. now rewrite unlink_all_out.
    + unfold low_failures, upload_finish, unlink. rewrite unlink_all_out.
      now destruct uploaded.
    + apply (kept_spawn _ _ _ _ _ _ _ _ _ benign_id).
      unfold low_failures. simpl. now rewrite unlink_all_out.
  - simpl. destruct (pause_cases cid st)
      as [(code & msg & -> & _)|(id & c & _ & _ & _ & ->)]; exact Hl.
  - simpl. destruct (resume_cases cid st)
      as [(code & msg & -> & _)|(id & c & msg & _ & _ & _ & ->)]; exact Hl.
Qed.

Lemma campaign_ok_steady (id : string) (paused : bool) (c c' : Campaign) :
  steady c c' -> isPaused c' = isPaused c -> campaign_ok id paused c ->
  campaign_ok id paused c'.
Proof.
  intros (Hi & Hp & _) Hf (F & I & W). unfold campaign_ok.
  rewrite Hf, Hi, Hp. auto.
Qed.

Lemma stored_kept (st st' : State) : kept st st' -> stored_ok st -> stored_ok st'.
Proof.
  intros (P & A & _) [Ha Hp]. split.
  - intros id c' H. destruct (A id c' H) as (c & Hg & Hs & Hf).
    apply (campaign_ok_steady id false c); auto.
  - rewrite P. exact Hp.
Qed.

Lemma step_stored (st : State) (l : Label) : stored_ok st -> stored_ok (step st l).
Proof.
  intros Hok. pose proof (step_kept st l) as Hk.
  destruct l as [r|cid|cid|cid|k| | | |k o|ms| | | |reason|c rd au];
    try (now apply (stored_kept st _ Hk)).
  - simpl. destruct (upload_cases r st)
      as [(paths & code & msg & _ & ->)
         |[(id & c & phones & media & paths & uploaded & _ & _ & Hr & Hc & ->)
          |(phones & media & paths & uploaded & _ & _ & ->)]].
    + apply (stored_kept st); [|exact Hok]. apply kept_output, kept_unlink_all.
    + destruct Hok as [Ha Hp].
      assert (Hact : activeCampaigns
                       (upload_finish (length phones) uploaded
                          (setTimeout (TContinueCampaign id)
                             (emit (bulk_send_start (length phones) (Some id) None)
                                (set_active (JsMap.set id c (activeCampaigns st))
                                   (unlink_all paths st)))))
                     = JsMap.set id c (activeCampaigns st)
                     /\ pausedCampaigns
                          (upload_finish (length phones) uploaded
                             (setTimeout (TContinueCampaign id)
                                (emit (bulk_send_start (length phones) (Some id) None)
                                   (set_active (JsMap.set id c (activeCampaigns st))
                                      (unlink_all paths st)))))
                        = pausedCampaigns st).
      { unfold upload_finish, unlink. rewrite unlink_all_out.
        now destruct uploaded. }
      destruct Hact as [Eact Epau]. split; [rewrite Eact|now rewrite Epau].
      intros id' c' H. destruct (String.eqb_spec id id') as [<-|Hne].
      * rewrite get_set_eq in H. injection H as <-.
        rewrite Hc. split; [reflexivity|]. split; [reflexivity|].
        simpl. now apply (read_request_wf r phones media).
      * rewrite get_set_ne in H by exact Hne. now apply Ha.
    + apply (stored_kept st); [|exact Hok].
      eapply kept_trans; [|apply kept_spawn, benign_id].
      apply kept_output, kept_unlink_all.
  - simpl. destruct (pause_cases cid st)
      as [(code & msg & -> & _)|(id & c & _ & _ & Hg & ->)]; [exact Hok|].
    destruct Hok as [Ha Hp]. split; simpl.
    + intros id' c' H. destruct (String.eqb_spec id id') as [<-|Hne].
      * now rewrite get_delete_eq in H.
      * rewrite get_delete_ne in H by exact Hne. now apply Ha.
    + intros id' c' H. destruct (String.eqb_spec id id') as [<-|Hne].
      * rewrite get_set_eq in H. injection H as <-.
        destruct (Ha id c Hg) as (_ & I & W). repeat split; auto.
      * rewrite get_set_ne in H by exact Hne. now apply Hp.
  - simpl. destruct (resume_cases cid st)
      as [(code & msg & -> & _)|(id & c & msg & _ & _ & Hg & ->)]; [exact Hok|].
    destruct Hok as [Ha Hp]. split; simpl.
    + intros id' c' H. destruct (String.eqb_spec id id') as [<-|Hne].
      * rewrite get_set_eq in H. injection H as <-.
        destruct (Hp id c Hg) as (_ & I & W). repeat split; auto.
      * rewrite get_set_ne in H by exact Hne. now apply Ha.
    + intros id' c' H. destruct (String.eqb_spec id id') as [<-|Hne].
      * now rewrite get_delete_eq in H.
      * rewrite get_delete_ne in H by exact Hne. now apply Hp.
Qed.

Lemma known_kept (st st' : State) (id : string) (c' : Campaign) :
  kept st st' -> known id st' c' -> exists c, known id st c /\ steady c c'.
Proof.
  intros (P & A & _) [H|H].
  - destruct (A id c' H) as (c & Hg & Hs & _). exists c. split; [now left|exact Hs].
  - rewrite P in H. exists c'. split; [now right|apply steady_refl].
Qed.

Lemma step_known (st : State) (l : Label) (id : string) (c' : Campaign) :
  submits id l = false -> known id (step st l) c' ->
  exists c, known id st c /\ steady c c'.
Proof.
  intros Hsub Hkn. pose proof (step_kept st l) as Hk.
  destruct l as [r|cid|cid|cid|k| | | |k o|ms| | | |reason|c rd au];
    try (now apply (known_kept st _ id c' Hk)).
  - simpl in Hkn. destruct (upload_cases r st)
      as [(paths & code & msg & _ & E)
         |[(id0 & c & phones & media & paths & uploaded & Ei & _ & _ & _ & E)
          |(phones & media & paths & uploaded & _ & _ & E)]];
      rewrite E in Hkn.
    + eapply (known_kept st); [|exact Hkn]. apply kept_output, kept_unlink_all.
    + simpl in Hsub. rewrite Ei in Hsub.
      assert (Hne : id0 <> id) by (intros ->; now rewrite String.eqb_refl in Hsub).
      exists c'. split; [|apply steady_refl].
      unfold known, upload_finish, unlink in Hkn. rewrite unlink_all_out in Hkn.
      destruct Hkn as [H|H]; [left|right; now destruct uploaded].
      assert (H' : JsMap.get id (JsMap.set id0 c (activeCampaigns st)) = Some c')
        by (now destruct uploaded).
      now rewrite get_set_ne in H'.
    + eapply (known_kept st); [|exact Hkn].
      eapply kept_trans; [|apply kept_spawn, benign_id].
      apply kept_output, kept_unlink_all.
  - simpl in Hkn. destruct (pause_cases cid st)
      as [(code & msg & E & _)|(id0 & c & _ & _ & Hg & E)]; rewrite E in Hkn.
    + exists c'. split; [exact Hkn|apply steady_refl].
    + destruct Hkn as [H|H]; simpl in H.
      * exists c'. split; [left|apply steady_refl].
        destruct (String.eqb_spec id0 id) as [<-|Hne];
          [now rewrite get_delete_eq in H|now rewrite get_delete_ne in H].
      * destruct (String.eqb_spec id0 id) as [<-|Hne].
        -- rewrite get_set_eq in H. injection H as <-. exists c.
           split; [now left|]. unfold steady; simpl; repeat split; auto.
        -- rewrite get_set_ne in H by exact Hne. exists c'.
           split; [now right|apply steady_refl].
  - simpl in Hkn. destruct (resume_cases cid st)
      as [(code & msg & E & _)|(id0 & c & msg & _ & _ & Hg & E)]; rewrite E in Hkn.
    + exists c'. split; [exact Hkn|apply steady_refl].
    + destruct Hkn as [H|H]; simpl in H.
      * destruct (String.eqb_spec id0 id) as [<-|Hne].
        -- rewrite get_set_eq in H. injection H as <-. exists c.
           split; [now right|]. unfold steady; simpl; repeat split; auto.
        -- rewrite get_set_ne in H by exact Hne. exists c'.
           split; [now left|apply steady_refl].
      * exists c'. split; [right|apply steady_refl].
        destruct (String.eqb_spec id0 id) as [<-|Hne];
          [now rewrite get_delete_eq in H|now rewrite get_delete_ne in H].
Qed.

(** X8: the failure counter of the session stays below the maximum.
    Whatever happens, after each step [connectionFailureCount] is at
    most 2: the code that raises it to 3 (a failed validation in a loop,
    a failed keep-alive check) resets it in the same turn, when it forces
    the reconnection. *)
Theorem X8_failure_counter_below_maximum (ls : list Label) :
  connectionFailureCount (run ls init) < MAX_CONNECTION_FAILURES.
Proof.
  assert (H : forall st, low_failures st -> low_failures (run ls st)).
  { induction ls as [|l ls IH]; intros st Hl; [exact Hl|].
    apply (IH (step st l)). now apply step_low. }
  apply H. unfold low_failures, MAX_CONNECTION_FAILURES. simpl. lia.
Qed.

(** X9: the stored campaigns are well formed at every point of every
    execution.  A campaign of the active pool is not flagged paused and
    one of the paused pool is, so that the tests of [isPaused] made by
    the loop, by [continueCampaign] and by the health checks decide
    nothing; each is stored under its own id, and all its recipients,
    whether they were read from the form or from a workbook, are as the
    validator returns them. *)
Theorem X9_stored_campaigns_well_formed (ls : list Label) (id : string) (c : Campaign) :
  (JsMap.get id (activeCampaigns (run ls init)) = Some c -> campaign_ok id false c)
  /\ (JsMap.get id (pausedCampaigns (run ls init)) = Some c -> campaign_ok id true c).
Proof.
  assert (H : forall st, stored_ok st -> stored_ok (run ls st)).
  { induction ls as [|l ls IH]; intros st Hl; [exact Hl|].
    apply (IH (step st l)). now apply step_stored. }
  assert (H0 : stored_ok init) by (split; intros id' c' E; discriminate E).
  destruct (H init H0) as [Ha Hp]. split; [apply Ha|apply Hp].
Qed.

(** X9 applied to campaign [c2], paused while [c1] runs *)
Lemma X9_stored_witness :
  exists c,
    JsMap.get "c2" (pausedCampaigns (run Scenario.keepalive_failing init)) = Some c
    /\ campaign_ok "c2" true c.
Proof.
  destruct (JsMap.get "c2" (pausedCampaigns (run Scenario.keepalive_failing init)))
    as [c|] eqn:E; [|vm_compute in E; discriminate E].
  exists c. split; [reflexivity|].
  exact (proj2 (X9_stored_campaigns_well_formed Scenario.keepalive_failing "c2" c) E).
Defined.

(** X10: what was submitted stays as it is.  As long as no campaign is
    submitted under the same id, a stored campaign, in whichever pool it
    is found later, is one that was stored before, with the same
    recipients, message, media file and delay range, and with counters
    that have not gone down: pausing, resuming, restarting, the loops
    and the health checks never change the list of recipients and never
    reset [sentCount] or [failedCount]. *)
Theorem X10_campaign_kept (ls : list Label) (st : State) (id : string) (c' : Campaign)
    (Hls : forallb (fun l => negb (submits id l)) ls = true)
    (Hkn : known id (run ls st) c') :
  exists c, known id st c /\ steady c c'.
Proof.
  revert st Hkn. induction ls as [|l ls IH]; intros st Hkn.
  - exists c'. split; [exact Hkn|apply steady_refl].
  - simpl in Hls. apply andb_true_iff in Hls as [Hl Hls]. apply negb_true_iff in Hl.
    destruct (IH Hls (step st l) Hkn) as (c1 & H1 & S1).
    destruct (step_known st l id c1 Hl H1) as (c & H0 & S0).
    exists c. split; [exact H0|eapply steady_trans; eauto].
Qed.

(** X10 applied to campaign [c1] paused during its first send, from the
    pause on *)
Lemma X10_campaign_witness :
  exists c' c,
    known "c1" (run (Pause (Some "c1") :: Scenario.after_pause)
                  (run Scenario.wedged init)) c'
    /\ known "c1" (run Scenario.wedged init) c /\ steady c c'.
Proof.
  destruct (JsMap.get "c1"
              (pausedCampaigns (run (Pause (Some "c1") :: Scenario.after_pause)
                                  (run Scenario.wedged init))))
    as [c'|] eqn:E; [|vm_compute in E; discriminate E].
  assert (Hkn : known "c1" (run (Pause (Some "c1") :: Scenario.after_pause)
                              (run Scenario.wedged init)) c') by (right; exact E).
  destruct (X10_campaign_kept (Pause (Some "c1") :: Scenario.after_pause)
              (run Scenario.wedged init) "c1" c' eq_refl Hkn) as (c & H0 & S0).
  exists c', c. auto.
Defined.

(** *** The accounts of a loop *)

Lemma drop_nil_length {A : Type} (l : list A) (n : nat) : drop n l = [] -> length l <= n.
Proof. intros H. pose proof (length_drop l n) as Hl. rewrite H in Hl. simpl in Hl. lia. Qed.

Lemma drop_cons_next {A : Type} (l : list A) (n : nat) (x : A) (rest : list A) :
  drop n l = x :: rest -> n < length l /\ l !! n = Some x /\ drop (S n) l = rest.
Proof.
  intros H. assert (Hn : n < length l).
  { pose proof (length_drop l n) as Hl. rewrite H in Hl. simpl in Hl. lia. }
  destruct (lookup_lt_is_Some_2 l n Hn) as [y Hy].
  rewrite (drop_S l y n Hy) in H. injection H as -> <-. auto.
Qed.

Lemma order_push (t : Task) (r : Result) :
  List.map r_number (t_results t) = take (length (t_results t)) (t_phoneNumbers t) ->
  length (t_results t) = t_i t -> t_i t < length (t_phoneNumbers t) ->
  r_number r = phoneNumber_of t ->
  List.map r_number (t_results t ++ [r])
  = take (length (t_results t ++ [r])) (t_phoneNumbers t).
Proof.
  intros O R I N. rewrite List.map_app, List.length_app. simpl.
  destruct (lookup_lt_is_Some_2 (t_phoneNumbers t) (t_i t) I) as [x Hx].
  rewrite Nat.add_1_r, R, (take_S_r _ _ x Hx), <- R, <- O, N.
  unfold phoneNumber_of. now rewrite Hx.
Qed.

Ltac by_inv :=
  unfold loop_inv, at_top; simpl;
  repeat split; auto; try (apply order_push; auto; fail);
  rewrite ?List.length_app; simpl; try lia.

Lemma complete_inv (t : Task) (st : State) :
  at_top t -> t_i t = length (t_phoneNumbers t) -> loop_inv (fst (complete t st)).
Proof.
  intros (W & C & O & R & _) Hi. unfold complete, returned, upload_resume.
  repeat match goal with
         | |- context [match ?x with _ => _ end] => destruct x
         end; by_inv.
Qed.

Lemma at_top_failed (err : string) (t : Task) (st : State) :
  Forall wf_recipient (t_phoneNumbers t) ->
  t_successCount t + t_failureCount t = length (t_results t) ->
  List.map r_number (t_results t) = take (length (t_results t)) (t_phoneNumbers t) ->
  length (t_results t) = t_i t -> t_i t < length (t_phoneNumbers t) ->
  at_top (next_i (fst (catch_block err t st)))
  /\ t_phoneNumbers (fst (catch_block err t st)) = t_phoneNumbers t
  /\ t_i (fst (catch_block err t st)) = t_i t.
Proof.
  intros W C O R I. unfold catch_block. destruct (classify err) as [category msg].
  by_inv.
Qed.

Lemma iterate_inv (rest : list string) :
  forall between k t st,
    rest = drop (t_i t) (t_phoneNumbers t) -> at_top t ->
    loop_inv (fst (iterate between k rest t st)).
Proof.
  induction rest as [|p rest IH]; intros between k t st Hrest Htop; simpl.
  - pose proof (complete_inv t st Htop) as Hc.
    destruct (complete t st) as [t' st']. simpl in *. apply Hc.
    symmetry in Hrest. apply drop_nil_length in Hrest.
    destruct Htop as (_ & _ & _ & _ & Hle). lia.
  - symmetry in Hrest. apply drop_cons_next in Hrest as (Hlt & Hp & Hnext).
    pose proof Htop as (W & C & O & R & _).
    pose proof (head_spec t st) as Hs.
    destruct (head t st) as [st'|[st'|err st'|st'|err st']].
    + by_inv.
    + destruct Hs as [_ Hs]. now destruct (Hs st').
    + destruct (at_top_failed err t (between st') W C O R Hlt) as (Ht1 & Hph & Hi1).
      destruct (catch_block err t (between st')) as [t1 st1]. simpl in *.
      apply IH; [|exact Ht1]. simpl. now rewrite Hph, Hi1.
    + by_inv.
    + by_inv.
Qed.

Lemma next_iteration_inv (k : nat) (t : Task) (st : State) :
  at_top (next_i t) -> loop_inv (fst (next_iteration k t st)).
Proof. intros H. unfold next_iteration, loop_head. now apply iterate_inv. Qed.

Lemma failed_inv (k : nat) (err : string) (t : Task) (st : State) :
  Forall wf_recipient (t_phoneNumbers t) ->
  t_successCount t + t_failureCount t = length (t_results t) ->
  List.map r_number (t_results t) = take (length (t_results t)) (t_phoneNumbers t) ->
  length (t_results t) = t_i t -> t_i t < length (t_phoneNumbers t) ->
  loop_inv (fst (failed k err t st)).
Proof.
  intros W C O R I. unfold failed.
  destruct (at_top_failed err t st W C O R I) as (Ht1 & _).
  destruct (catch_block err t st) as [t1 st1]. simpl in *.
  now apply next_iteration_inv.
Qed.

Lemma resume_inv (k : nat) (o : Outcome) (t : Task) (st : State) :
  loop_inv t -> loop_inv (fst (resume k o t st)).
Proof.
  intros (W & C & O & Hpc). unfold resume, try_resume.
  destruct (t_pc t) as [site|site err| | | | |s|total s|r] eqn:Epc.
  - destruct Hpc as [R I].
    destruct (validateConnection_settle o st) as [st1|err st1|st1|err st1];
      simpl after_validation; cbv iota.
    + unfold validated, begin_send.
      destruct site; [destruct (_ || _)|]; by_inv.
    + now apply failed_inv.
    + by_inv.
    + by_inv.
  - destruct Hpc as [R I]. now apply failed_inv.
  - destruct Hpc as [R I]. by_inv.
  - destruct Hpc as [R I]. destruct o as [v|msg].
    + cbv iota. unfold sent.
      destruct (S (t_i t) <? length (t_phoneNumbers t)) eqn:El.
      * apply Nat.ltb_lt in El. by_inv.
      * apply next_iteration_inv. by_inv.
    + cbv iota. unfold send_failed. destruct (isNumberUnavailableError msg).
      * now apply failed_inv.
      * destruct (_ <? _); [by_inv|now apply failed_inv].
  - destruct Hpc as [R I].
    destruct (validateConnection_begin st) as [st1|err st1|st1|err st1];
      simpl after_validation; cbv iota.
    + unfold validated, begin_send. by_inv.
    + now apply failed_inv.
    + by_inv.
    + by_inv.
  - destruct Hpc as [R I]. apply next_iteration_inv. by_inv.
  - destruct Hpc as (R & I & ->). cbv iota. unfold returned, upload_resume.
    destruct (t_caller t); [by_inv|].
    destruct (closeChromeBrowser_waits _); by_inv.
  - destruct Hpc as (R & I & ->). by_inv.
  - unfold loop_inv. simpl. rewrite Epc. repeat split; auto.
Qed.

Lemma lookup_snoc_loop (js : list Job) (j : Job) (k : nat) (t' : Task) :
  (js ++ [j])%list !! k = Some (Loop t') ->
  js !! k = Some (Loop t') \/ j = Loop t'.
Proof.
  intros H. destruct (Nat.lt_ge_cases k (length js)) as [Hlt|Hge].
  - left. now rewrite lookup_app_l in H.
  - right. rewrite lookup_app_r in H by exact Hge.
    destruct (k - length js) as [|n]; simpl in H; [congruence|discriminate H].
Qed.

Lemma spawn_new (phones : list string) (msg : string) (cid : option string)
    (delay : string) (media : option Media) (caller : Caller)
    (between : State -> State) (st : State) (k : nat) (t' : Task) :
  benign between -> Forall wf_recipient phones ->
  jobs (spawn phones msg cid 0 delay media caller between st) !! k = Some (Loop t') ->
  jobs st !! k = Some (Loop t') \/ loop_inv t'.
Proof.
  intros Hb Hw. unfold spawn.
  set (t0 := mkTask _ _ _ _ _ _ _ _ _ _ _ _ _).
  destruct (loop_head_spec between (length (jobs st)) t0 st Hb)
    as [(_ & _ & _ & Hj & _) _].
  assert (Hinv : loop_inv (fst (loop_head between (length (jobs st)) t0 st))).
  { unfold loop_head. apply iterate_inv; [reflexivity|].
    unfold at_top, t0. simpl. repeat split; auto. lia. }
  destruct (loop_head between (length (jobs st)) t0 st) as [t1 st1]. simpl in *.
  rewrite Hj. intros H. apply lookup_snoc_loop in H as [H|H]; [now left|].
  injection H as <-. now right.
Qed.

Lemma continueCampaign_new (id : string) (between : State -> State) (st : State)
    (k : nat) (t' : Task) :
  benign between ->
  (forall c, JsMap.get id (activeCampaigns st) = Some c ->
             Forall wf_recipient (phoneNumbers c)) ->
  jobs (continueCampaign id between st) !! k = Some (Loop t') ->
  jobs st !! k = Some (Loop t') \/ loop_inv t'.
Proof.
  intros Hb Hw. unfold continueCampaign.
  destruct (JsMap.get id (activeCampaigns st)) as [c|];
    [|rewrite benign_jobs by exact Hb; auto].
  destruct (isPaused c); [rewrite benign_jobs by exact Hb; auto|].
  destruct (negb _ || negb _); [rewrite benign_jobs by exact Hb; auto|].
  intros H. apply spawn_new in H; auto.
Qed.

(** Where the loops of a state come from *)
Lemma step_loops (st : State) (l : Label) (k : nat) (t' : Task) :
  stored_ok st -> jobs (step st l) !! k = Some (Loop t') ->
  (exists t, jobs st !! k = Some (Loop t)
             /\ (t' = t \/ exists o, l = Settle k o /\ t' = fst (resume k o t st)))
  \/ loop_inv t'.
Proof.
  intros [Ha Hp] H.
  assert (Hold : jobs st !! k = Some (Loop t') ->
            (exists t, jobs st !! k = Some (Loop t)
                       /\ (t' = t \/ exists o, l = Settle k o
                                               /\ t' = fst (resume k o t st)))
            \/ loop_inv t') by (intros E; left; exists t'; auto).
  assert (Hor : jobs st !! k = Some (Loop t') \/ loop_inv t' ->
            (exists t, jobs st !! k = Some (Loop t)
                       /\ (t' = t \/ exists o, l = Settle k o
                                               /\ t' = fst (resume k o t st)))
            \/ loop_inv t') by (intros [E|E]; auto).
  destruct l as [r|cid|cid|cid|k0| | | |k0 o|ms| | | |reason|c rd au]; simpl in H.
  - destruct (upload_cases r st)
      as [(paths & code & msg & _ & E)
         |[(id & c & phones & media & paths & uploaded & _ & _ & _ & _ & E)
          |(phones & media & paths & uploaded & _ & Hr & E)]];
      rewrite E in H.
    + simpl in H. rewrite unlink_all_out in H. now apply Hold.
    + unfold upload_finish, unlink in H. rewrite unlink_all_out in H.
      apply Hold. now destruct uploaded.
    + apply Hor. apply spawn_new in H; eauto using benign_id, read_request_wf.
      simpl in H. rewrite unlink_all_out in H. exact H.
  - destruct (pause_cases cid st)
      as [(code & msg & E & _)|(id & c & _ & _ & _ & E)]; rewrite E in H;
      now apply Hold.
  - destruct (resume_cases cid st)
      as [(code & msg & E & _)|(id & c & msg & _ & _ & _ & E)]; rewrite E in H;
      now apply Hold.
  - unfold restart in H. destruct (negb (truthy cid)); [now apply Hold|].
    destruct (JsMap.get (default "" cid) (activeCampaigns st)) as [c|] eqn:Eg;
      [|now apply Hold].
    apply Hor. apply continueCampaign_new in H; auto using benign_restart.
    simpl. intros c1 Hc1. rewrite get_set_eq in Hc1. injection Hc1 as <-.
    simpl. now destruct (Ha _ c Eg) as (_ & _ & W).
  - destruct (timers st !! k0) as [[a|]|]; [|now apply Hold..].
    destruct a as [id| |]; simpl in H.
    + apply Hor. apply continueCampaign_new in H; auto using benign_id.
      simpl. intros c1 Hc1. now destruct (Ha _ c1 Hc1) as (_ & _ & W).
    + destruct (calm_initialize (FireTimer k0) (set_timers (<[k0:=None]> (timers st)) st))
        as [_ Hj]. rewrite Hj in H. now apply Hold.
    + destruct (negb _ && negb _); [|now apply Hold].
      destruct (calm_initialize (FireTimer k0) (set_timers (<[k0:=None]> (timers st)) st))
        as [_ Hj]. rewrite Hj in H. now apply Hold.
  - unfold keepAliveTick in H. destruct (_ && _); [|now apply Hold].
    simpl in H. apply lookup_snoc_loop in H as [H|H]; [now apply Hold|discriminate H].
  - unfold healthCheckTick in H. destruct (connectionHealthCheckInterval st);
      [|now apply Hold].
    destruct (_ && _).
    + simpl in H. apply lookup_snoc_loop in H as [H|H]; [now apply Hold|discriminate H].
    + destruct (calm_checkStuckCampaigns HealthCheckTick st) as [_ Hj].
      rewrite Hj in H. now apply Hold.
  - unfold campaignHealthTick in H. destruct (campaignHealthInterval st);
      [|now apply Hold].
    assert (Hj : jobs (fold_left campaign_health_one (activeCampaigns st) st) = jobs st).
    { apply (calm_fold_timers CampaignHealthTick). intros s [id c].
      unfold campaign_health_one. destruct (isPaused c); [split; [apply calm_refl|reflexivity]|].
      destruct (_ <? _)%Z; split; try reflexivity; try apply calm_refl.
      apply calm_untouched. repeat split. }
    rewrite Hj in H. now apply Hold.
  - unfold settle in H. destruct (jobs st !! k0) as [[t|pc]|] eqn:Ej; [| |now apply Hold].
    + pose proof (resume_jobs k0 o t st) as Hj.
      destruct (resume k0 o t st) as [t1 st1] eqn:E. simpl in H, Hj. rewrite Hj in H.
      destruct (Nat.eq_dec k k0) as [->|Hne].
      * rewrite list_lookup_insert_eq in H by (apply lookup_lt_is_Some; eauto).
        injection H as <-. left. exists t. split; [exact Ej|].
        right. exists o. now rewrite E.
      * rewrite list_lookup_insert_ne in H by congruence. now apply Hold.
    + destruct (resume_monitor_calm (Settle k0 o) pc o st) as [_ Hj].
      destruct (resume_monitor pc o st) as [pc' st']. simpl in H, Hj. rewrite Hj in H.
      destruct (Nat.eq_dec k k0) as [->|Hne].
      * rewrite list_lookup_insert_eq in H by (apply lookup_lt_is_Some; eauto).
        discriminate H.
      * rewrite list_lookup_insert_ne in H by congruence. now apply Hold.
  - now apply Hold.
  - destruct (calm_initialize Startup st) as [_ Hj]. rewrite Hj in H. now apply Hold.
  - now apply Hold.
  - now apply Hold.
  - unfold on_disconnected in H. destruct (negb _ && negb _); now apply Hold.
  - now apply Hold.
Qed.

(** *** The sends of a loop *)

Lemma on_sends_is_send : on_sends is_send.
Proof. intros o H. exact H. Qed.

Lemma send_ok_mono (js js' : list Job) (o : Output) :
  (forall k t, js !! k = Some (Loop t) ->
               exists t', js' !! k = Some (Loop t') /\ same_call t t') ->
  send_ok js o -> send_ok js' o.
Proof.
  intros H. destruct o as [e|code b|k c i n a|path]; simpl; auto.
  intros (t & Hk & Hp & Hc & Hw). destruct (H k t Hk) as (t' & Hk' & Hs).
  exists t'. destruct Hs as (P & _ & C & _). rewrite P, C. auto.
Qed.

Lemma resume_same_call (k : nat) (o : Outcome) (t : Task) (st : State) :
  same_call t (fst (resume k o t st)).
Proof.
  destruct (resume_settled k o t st) as [[(Hs & _) _]|(t1 & st1 & (Hs & _) & _ & -> & _)].
  - exact Hs.
  - simpl in *. unfold same_call in *. simpl. exact Hs.
Qed.

(** A transition keeps the loops in their places, with the parameters of
    their calls *)
Lemma jobs_carried (st : State) (l : Label) (k : nat) (t : Task) :
  jobs st !! k = Some (Loop t) ->
  exists t', jobs (step st l) !! k = Some (Loop t') /\ same_call t t'.
Proof.
  intros Hk.
  destruct (step_has_shape st l) as
    [st' Hc Hj|st' pc Hc Hj|st' k0 pc pc' Hc Hk0 Hj
    |st1 t0 t' st2 between Hc Hj H0 Hcid Hb Hloop|k0 o t0 t' st2 -> Hk0 Hr].
  - rewrite Hj. exists t. auto using same_call_refl.
  - rewrite Hj. exists t. split; [|apply same_call_refl].
    rewrite lookup_app_l; [exact Hk|]. apply lookup_lt_is_Some. eauto.
  - rewrite Hj. exists t. split; [|apply same_call_refl].
    rewrite list_lookup_insert_ne; [exact Hk|]. intros <-. congruence.
  - simpl. exists t. split; [|apply same_call_refl].
    rewrite lookup_app_l; [exact Hk|]. apply lookup_lt_is_Some. eauto.
  - simpl. destruct (Nat.eq_dec k k0) as [->|Hne].
    + rewrite Hk in Hk0. injection Hk0 as <-.
      exists t'. split; [apply list_lookup_insert_eq, lookup_lt_is_Some; eauto|].
      pose proof (resume_same_call k0 o t st) as Hs. now rewrite Hr in Hs.
    + exists t. split; [|apply same_call_refl].
      now rewrite list_lookup_insert_ne by congruence.
Qed.

(** The sends recorded after a transition: those recorded before, and
    at most one more, made by a loop that was inside an iteration *)
Lemma step_sends (st : State) (l : Label) :
  List.filter is_send (out (step st l)) = List.filter is_send (out st)
  \/ exists k t t1,
       jobs st !! k = Some (Loop t)
       /\ in_flight (t_pc t) = true
       /\ same_call t t1 /\ t_i t1 = t_i t
       /\ List.filter is_send (out (step st l))
          = (List.filter is_send (out st)
             ++ [SendCall k (t_campaignId t1) (t_i t1) (phoneNumber_of t1)
                   (S (t_sendAttempts t1))])%list.
Proof.
  destruct (step_has_shape st l) as
    [st' [Ho _] Hj|st' pc [Ho _] Hj|st' k0 pc pc' [Ho _] Hk0 Hj
    |st1 t0 t' st2 between [Ho _] Hj H0 Hcid Hb Hloop|k o t t' st2 -> Hk Hr];
    try (left; apply Ho, on_sends_is_send).
  - left. simpl.
    destruct (loop_head_spec between (length (jobs st)) t0 st1 Hb) as [Ha _].
    rewrite Hloop in Ha. destruct Ha as (_ & _ & _ & _ & _ & _ & _ & Hq). simpl in Hq.
    rewrite (Hq _ on_sends_is_send). apply Ho, on_sends_is_send.
  - simpl.
    destruct (resume_settled k o t st)
      as [[(_ & _ & _ & _ & _ & _ & _ & Hq) _]|(t1 & st1 & Ha & Hi & Hr1 & Hn1)];
      rewrite Hr in *.
    + left. apply Hq, on_sends_is_send.
    + right. injection Hr1 as -> ->. exists k, t, t1.
      destruct Ha as (Hs & _ & _ & _ & _ & _ & _ & Hq). simpl in Hq.
      split; [exact Hk|]. split.
      { destruct Hn1 as [(_ & [Hp|Hp])|(_ & Hp)]; rewrite Hp; reflexivity. }
      split; [exact Hs|]. split; [exact Hi|].
      simpl. rewrite List.filter_app. simpl.
      now rewrite (Hq _ on_sends_is_send).
Qed.

Lemma step_loops_ok (st : State) (l : Label) :
  stored_ok st -> loops_ok st -> loops_ok (step st l).
Proof.
  intros Hst [Hl Hs]. split.
  - intros k t' H. destruct (step_loops st l k t' Hst H) as [(t & Hk & Ht)|Hi]; [|exact Hi].
    destruct Ht as [->|(o & _ & ->)]; [now apply (Hl k)|].
    apply resume_inv. now apply (Hl k).
  - assert (Hm : Forall (send_ok (jobs (step st l))) (List.filter is_send (out st))).
    { apply (Forall_impl _ _ _ Hs). intros o. apply send_ok_mono.
      intros k t. apply jobs_carried. }
    destruct (step_sends st l) as [->|(k & t & t1 & Hk & Hf & Hc & Hi & ->)];
      [exact Hm|].
    apply Forall_app. split; [exact Hm|]. constructor; [|constructor].
    destruct (jobs_carried st l k t Hk) as (t' & Hk' & Hc').
    destruct (Hl k t Hk) as (W & _ & _ & Hpc).
    assert (Hlt : t_i t < length (t_phoneNumbers t)).
    { destruct (t_pc t) as [site|site err| | | | |s|total s|r];
        try discriminate Hf; apply Hpc. }
    destruct (lookup_lt_is_Some_2 (t_phoneNumbers t) (t_i t) Hlt) as [x Hx].
    pose proof Hc as (P1 & _ & C1 & _). pose proof Hc' as (P' & _ & C' & _).
    assert (Hnum : phoneNumber_of t1 = x).
    { unfold phoneNumber_of. now rewrite P1, Hi, Hx. }
    simpl. exists t'. split; [exact Hk'|]. rewrite P', C', C1, Hi, Hnum.
    split; [exact Hx|]. split; [reflexivity|].
    rewrite Forall_lookup in W. exact (W _ _ Hx).
Qed.

Lemma run_loops_ok (ls : list Label) :
  forall st, stored_ok st -> loops_ok st -> stored_ok (run ls st) /\ loops_ok (run ls st).
Proof.
  induction ls as [|l ls IH]; intros st Hs Hl; [auto|].
  apply (IH (step st l)); [now apply step_stored|now apply step_loops_ok].
Qed.

Lemma init_ok : stored_ok init /\ loops_ok init.
Proof.
  split; [split; intros id c E; discriminate E|].
  split; [intros k t E; destruct k; discriminate E|constructor].
Qed.

Lemma In_filter_send (o : Output) (os : list Output) :
  In o os -> is_send o = true -> In o (List.filter is_send os).
Proof. intros H E. apply filter_In. auto. Qed.

(** X11: every send is made to a recipient of the list.  Whenever the
    send function is called, by loop [k] for index [i], the loop exists,
    the number handed over is the recipient at index [i] of the loop's
    list (never a missing entry), the campaign named is the loop's own,
    and the number is one the validator returned. *)
Theorem X11_sends_go_to_recipients (ls : list Label) (k : nat) (cid : option string)
    (i : nat) (number : string) (n : nat)
    (Hin : In (SendCall k cid i number n) (out (run ls init))) :
  exists t,
    jobs (run ls init) !! k = Some (Loop t)
    /\ t_phoneNumbers t !! i = Some number
    /\ t_campaignId t = cid
    /\ wf_recipient number.
Proof.
  destruct init_ok as [Hs Hl].
  destruct (run_loops_ok ls init Hs Hl) as [_ [_ Hsend]].
  rewrite List.Forall_forall in Hsend.
  exact (Hsend _ (In_filter_send _ _ Hin eq_refl)).
Qed.

(** X11 applied to the first send of campaign [c1] *)
Lemma X11_sends_witness :
  In (SendCall 0 (Some "c1") 0 "919876543210@c.us" 1)
     (out (run Scenario.sending_first init))
  /\ wf_recipient "919876543210@c.us".
Proof.
  assert (Hin : In (SendCall 0 (Some "c1") 0 "919876543210@c.us" 1)
                   (out (run Scenario.sending_first init))).
  { vm_compute. repeat first [left; reflexivity | right]. }
  split; [exact Hin|].
  destruct (X11_sends_go_to_recipients Scenario.sending_first 0 (Some "c1") 0
              "919876543210@c.us" 1 Hin) as (t & _ & _ & _ & W).
  exact W.
Defined.

(** X12: the accounts of a loop.  At every point of every execution,
    each delivery loop has one entry in [results] for each recipient it
    is done with, in the order of the list and under the recipient's
    number, and its two counters add up to the number of entries.  A loop
    that has returned a summary has an entry for every recipient of its
    list, and the summary carries these counters and entries: every
    recipient is accounted for once, as a success or as a failure. *)
Theorem X12_loop_accounts (ls : list Label) (k : nat) (t : Task)
    (Hk : jobs (run ls init) !! k = Some (Loop t)) :
  t_successCount t + t_failureCount t = length (t_results t)
  /\ List.map r_number (t_results t) = take (length (t_results t)) (t_phoneNumbers t)
  /\ length (t_results t) <= length (t_phoneNumbers t)
  /\ forall s, t_pc t = Returned (Some s) ->
       List.map r_number (results s) = t_phoneNumbers t
       /\ successCount s + failureCount s = length (t_phoneNumbers t)
       /\ results s = t_results t.
Proof.
  destruct init_ok as [Hs Hl].
  destruct (run_loops_ok ls init Hs Hl) as [_ [Hloops _]].
  destruct (Hloops k t Hk) as (_ & C & O & Hpc).
  split; [exact C|]. split; [exact O|]. split.
  - destruct (t_pc t) as [site|site err| | | | |s|total s|[s|]];
      try (destruct Hpc as (R & I & _)); try (destruct Hpc as (R & I)); lia.
  - intros s E. rewrite E in Hpc. destruct Hpc as (R & I & ->). simpl.
    split; [|split; [lia|reflexivity]].
    rewrite O, R, I. apply take_ge. lia.
Qed.

(** X12 applied to the loop that completes campaign [c1] after two
    restarts *)
Lemma X12_loop_witness :
  exists t,
    jobs (run Scenario.supervised_done init) !! 2 = Some (Loop t)
    /\ t_successCount t + t_failureCount t = length (t_results t).
Proof.
  destruct (jobs (run Scenario.supervised_done init) !! 2) as [[t|pc]|] eqn:Hjob;
    [|vm_compute in Hjob; discriminate Hjob..].
  exists t. split; [reflexivity|].
  exact (proj1 (X12_loop_accounts Scenario.supervised_done 2 t Hjob)).
Defined.

(** *** Requests *)

(** X13: the pause request.  It is answered once and touches neither
    loops nor timers.  The answer is 400 exactly when no campaign id is
    given, 200 exactly when the campaign is in the active pool, and 404
    otherwise, also for a campaign that is paused already; unless it is
    200 both pools stay as they are.  On 200 the campaign has moved to
    the paused pool, flagged paused and stamped, and no other campaign is
    touched. *)
Theorem X13_pause_outcomes (cid : option string) (st : State) :
  let st' := step st (Pause cid) in
  jobs st' = jobs st /\ timers st' = timers st
  /\ exists code b,
       out st' = (out st ++ [Respond code b])%list
       /\ (code = 400 <-> truthy cid = false)
       /\ (code = 200 <->
           truthy cid = true /\ JsMap.get (default "" cid) (activeCampaigns st) <> None)
       /\ (code = 400 \/ code = 404 \/ code = 200)
       /\ (code <> 200 ->
           activeCampaigns st' = activeCampaigns st
           /\ pausedCampaigns st' = pausedCampaigns st)
       /\ (forall id c, cid = Some id -> JsMap.get id (activeCampaigns st) = Some c ->
           code = 200 ->
           JsMap.get id (activeCampaigns st') = None
           /\ JsMap.get id (pausedCampaigns st') = Some (mark_paused (now st) c)
           /\ forall id', id' <> id ->
                JsMap.get id' (activeCampaigns st') = JsMap.get id' (activeCampaigns st)
                /\ JsMap.get id' (pausedCampaigns st')
                   = JsMap.get id' (pausedCampaigns st)).
Proof.
  intros st'. unfold st'. simpl.
  destruct (pause_cases cid st)
    as [(code & msg & -> & [[-> Ht]|(-> & Ht & Hg)])|(id & c & -> & Ht & Hg & ->)].
  - split; [reflexivity|]. split; [reflexivity|]. exists 400, (body_error msg).
    split; [reflexivity|]. split; [tauto|]. split; [|split; [auto|]].
    + split; [discriminate|]. intros [H _]. congruence.
    + split; [auto|]. intros id c -> _ H. discriminate H.
  - split; [reflexivity|]. split; [reflexivity|]. exists 404, (body_error msg).
    split; [reflexivity|]. split; [|split; [|split; [auto|]]].
    + split; [discriminate|congruence].
    + split; [discriminate|]. intros [_ H]. now destruct H.
    + split; [auto|]. intros id c -> _ H. discriminate H.
  - split; [reflexivity|]. split; [reflexivity|]. eexists 200, _.
    split; [reflexivity|]. split; [|split; [|split; [auto|]]].
    + split; [discriminate|congruence].
    + split; [|reflexivity]. intros _. split; [exact Ht|]. simpl. congruence.
    + split; [congruence|]. intros id' c' E Hg' _. injection E as <-.
      assert (c' = c) by congruence. subst c'. simpl.
      split; [apply get_delete_eq|]. split; [apply get_set_eq|].
      intros id' Hne. split; [apply get_delete_ne|apply get_set_ne]; congruence.
Qed.

(** X13 applied to campaign [c2] paused while [c1] runs *)
Lemma X13_pause_witness :
  exists c,
    JsMap.get "c2" (activeCampaigns (run Scenario.two_campaigns init)) = Some c
    /\ JsMap.get "c2"
         (activeCampaigns (step (run Scenario.two_campaigns init) (Pause (Some "c2"))))
       = None.
Proof.
  destruct (JsMap.get "c2" (activeCampaigns (run Scenario.two_campaigns init)))
    as [c|] eqn:E; [|vm_compute in E; discriminate E].
  exists c. split; [reflexivity|].
  destruct (X13_pause_outcomes (Some "c2") (run Scenario.two_campaigns init))
    as (_ & _ & code & b & _ & _ & H200 & _ & _ & Hmove).
  assert (Hc : code = 200).
  { apply H200. split; [reflexivity|]. simpl. congruence. }
  exact (proj1 (Hmove "c2" c eq_refl E Hc)).
Defined.

(** X14: a text upload (no [fileType], or [text]).  It is refused with
    400 exactly when the session is neither ready nor authenticated, or
    there is no session object, or no recipients were given, or none of
    the lines given is a valid number; a refused request changes nothing
    else.  A request that is not refused but is not a multipart form is
    answered 500: nothing is stored, started or scheduled.  A multipart
    request accepted with a campaign id is answered 200 at once, the
    total being the number of valid lines and both counts 0: the
    campaign is stored in the active pool with its counters at 0 and
    without media, replacing what was stored under the id, one call of
    [continueCampaign] is scheduled, no loop is started, and the files
    that came with the form are deleted.  Without a campaign id the loop
    is started at once. *)
Theorem X14_upload_outcomes (r : UploadReq) (st : State)
    (Htext : field_or (u_fileType r) "text" = "text") :
  let st' := step st (Upload r) in
  let phones := parse_phoneNumbers (default "" (u_phoneNumbers r)) in
  let refused :=
    (negb (isClientReady st) && negb (isClientAuthenticated st))
    || match client st with Some _ => false | None => true end
    || negb (truthy (u_phoneNumbers r))
    || match phones with [] => true | _ => false end in
  let deleted (path : option string) := List.map Unlink (option_list path) in
  (refused = true -> exists msg, st' = respond 400 (body_error msg) st)
  /\ (refused = false -> u_files r = None ->
      exists msg, st' = respond 500 (body_error msg) st)
  /\ (refused = false -> forall files id,
      u_files r = Some files -> u_campaignId r = Some id -> truthy (Some id) = true ->
      exists c,
        JsMap.get id (activeCampaigns st') = Some c
        /\ phoneNumbers c = phones /\ mediaFile c = None
        /\ sentCount c = 0 /\ failedCount c = 0
        /\ currentIndex c = 0 /\ isPaused c = false
        /\ timers st' = (timers st ++ [Some (TContinueCampaign id)])%list
        /\ jobs st' = jobs st
        /\ pausedCampaigns st' = pausedCampaigns st
        /\ out st'
           = (out st ++ deleted (option_map excel_path (excelFile files))
                ++ [Emit (bulk_send_start (length phones) (Some id) None)]
                ++ deleted (option_map upload_path (mediaUpload files))
                ++ [Respond 200 (body_upload (length phones) 0 0)])%list)
  /\ (refused = false -> forall files,
      u_files r = Some files -> truthy (u_campaignId r) = false ->
      exists t, jobs st' = (jobs st ++ [Loop t])%list
                /\ t_phoneNumbers t = phones /\ t_campaignId t = None).
Proof.
  intros st' phones refused deleted. unfold st', refused, phones, deleted.
  change (step st (Upload r)) with (upload_and_send r st).
  unfold upload_and_send, read_request. rewrite Htext.
  change (String.eqb "text" "text") with true. cbv iota. unfold read_text.
  destruct (negb (isClientReady st) && negb (isClientAuthenticated st));
    [split; [eauto|repeat split; discriminate]|].
  destruct (client st) as [cl|]; [|split; [eauto|repeat split; discriminate]].
  destruct (truthy (u_phoneNumbers r)); cbn [negb orb];
    [|split; [eauto|repeat split; discriminate]].
  destruct (parse_phoneNumbers (default "" (u_phoneNumbers r))) as [|p ps] eqn:Ep;
    [split; [eauto|repeat split; discriminate]|].
  split; [discriminate|]. split; [|split].
  - intros _ Ef. rewrite Ef. unfold upload_catch. rewrite Ef. eauto.
  - intros _ files id Ef Ei Et. rewrite Ef, Ei, Et. eexists.
    destruct (excelFile files) as [x|], (mediaUpload files) as [m|]; simpl;
      rewrite get_set_eq, <- ?List.app_assoc; simpl; repeat split.
  - intros _ files Ef Et. rewrite Ef, Et.
    set (st0 := emit _ (unlink _ st)).
    assert (Hj : jobs st0 = jobs st).
    { unfold st0, unlink. now destruct (excelFile files). }
    unfold spawn. set (t0 := mkTask _ _ _ _ _ _ _ _ _ _ _ _ _).
    destruct (loop_head_spec (fun s => s) (length (jobs st0)) t0 st0 benign_id)
      as [(Hs & _ & _ & Hj' & _) _].
    destruct (loop_head _ _ t0 st0) as [t1 s1]. cbn [fst snd] in Hs, Hj'.
    exists t1. cbn [jobs set_jobs]. rewrite Hj', Hj. destruct Hs as (P & _ & C & _). auto.
Qed.

(** X14 applied to the submission of campaign [c1] *)
Lemma X14_upload_witness :
  field_or (u_fileType (Scenario.submission "c1" ["9876543210"; "98765"])) "text" = "text"
  /\ exists c,
       JsMap.get "c1"
         (activeCampaigns
            (step (run Scenario.boot init)
               (Upload (Scenario.submission "c1" ["9876543210"; "98765"]))))
       = Some c
       /\ phoneNumbers c = ["919876543210@c.us"].
Proof.
  split; [reflexivity|].
  destruct (X14_upload_outcomes
              (Scenario.submission "c1" ["9876543210"; "98765"])
              (run Scenario.boot init) eq_refl) as (_ & _ & H & _).
  destruct (H eq_refl (mkFiles None None) "c1" eq_refl eq_refl eq_refl)
    as (c & Hg & Hp & _).
  exists c. split; [exact Hg|]. rewrite Hp. reflexivity.
Defined.

(** *** A session that is down when a loop goes on *)

Lemma session_down_throws (st st' : State) (msg : string) :
  session_down st msg ->
  client st' = client st -> isClientReady st' = isClientReady st ->
  isClientAuthenticated st' = isClientAuthenticated st ->
  validateConnection_begin st' = VThrow msg st' /\ classify msg = ("failed", msg).
Proof.
  intros [[Hc ->]|(Hc & Hf & ->)] Ec Er Ea; unfold validateConnection_begin;
    rewrite Ec, Er, Ea.
  - rewrite Hc. split; [reflexivity|vm_compute; reflexivity].
  - destruct (client st); [|now destruct Hc].
    destruct Hf as [-> | ->]; simpl; rewrite ?orb_true_r;
      (split; [reflexivity|vm_compute; reflexivity]).
Qed.

Lemma iterate_session_down (rest : list string) :
  forall (k : nat) (t : Task) (st : State) (msg : string),
    rest = drop (t_i t) (t_phoneNumbers t) ->
    session_down st msg -> running t st ->
    let r := iterate (fun s => s) k rest t st in
    t_results (fst r)
    = (t_results t ++ List.map (fun p => mkResult p "failed" (Some msg)) rest)%list
    /\ t_failureCount (fst r) = t_failureCount t + length rest
    /\ t_successCount (fst r) = t_successCount t
    /\ iterating (t_pc (fst r)) = false
    /\ List.filter is_send (out (snd r)) = List.filter is_send (out st)
    /\ forall id c, campaign_of t = Some id ->
         JsMap.get id (activeCampaigns st) = Some c ->
         JsMap.get id (activeCampaigns (snd r)) = None
         /\ In (Emit (bulk_send_complete (length (phoneNumbers c)) (sentCount c)
                        (failedCount c + length rest)
                        (Some (count_status "unavailable" (t_results (fst r)),
                               count_status "connection" (t_results (fst r)),
                               count_status "failed" (t_results (fst r))))
                        (t_campaignId t)))
               (out (snd r)).
Proof.
  induction rest as [|p rest IH]; intros k t st msg Hrest Hdown Hrun; cbn [iterate].
  - destruct (complete_task t st) as (R & Sc & F & _ & It).
    pose proof (advances_complete t st) as (_ & _ & _ & _ & _ & _ & _ & Hq).
    pose proof (complete_active t st) as Hact.
    destruct (complete t st) as [t' st']. simpl in *.
    rewrite R, Sc, F, List.app_nil_r, !Nat.add_0_r.
    repeat split; auto using on_sends_is_send.
    + now apply (Hact id c).
    + rewrite Nat.add_0_r. now apply (Hact id c).
  - symmetry in Hrest. apply drop_cons_next in Hrest as (Hlt & Hp & Hnext).
    assert (Hhead : exists st1,
              head t st = HChecked (VThrow msg st1)
              /\ session_down st1 msg
              /\ out st1 = out st
              /\ now st1 = now st
              /\ (campaign_of t = None -> activeCampaigns st1 = activeCampaigns st)
              /\ (forall id c, campaign_of t = Some id ->
                    JsMap.get id (activeCampaigns st) = Some c ->
                    exists c1, JsMap.get id (activeCampaigns st1) = Some c1
                               /\ isPaused c1 = false
                               /\ phoneNumbers c1 = phoneNumbers c
                               /\ sentCount c1 = sentCount c
                               /\ failedCount c1 = failedCount c)).
    { unfold head. unfold running in Hrun.
      destruct (campaign_of t) as [id|] eqn:Ec.
      - destruct Hrun as (c & Hg & Hpa). rewrite Hg, Hpa.
        set (st1 := set_active _ st). exists st1.
        destruct (session_down_throws st st1 msg Hdown eq_refl eq_refl eq_refl)
          as [-> _].
        split; [reflexivity|]. split; [exact Hdown|]. split; [reflexivity|].
        split; [reflexivity|]. split; [discriminate|].
        intros id' c' E Hg'. injection E as <-. rewrite Hg in Hg'. injection Hg' as <-.
        eexists. split; [apply get_set_eq|]. simpl. auto.
      - exists st.
        destruct (session_down_throws st st msg Hdown eq_refl eq_refl eq_refl)
          as [-> _].
        split; [reflexivity|]. split; [exact Hdown|]. split; [reflexivity|].
        split; [reflexivity|]. split; [reflexivity|]. intros id c E. discriminate E. }
    destruct Hhead as (st1 & -> & Hd1 & Ho1 & Hn1 & Hnone & Hsome).
    destruct (session_down_throws st st msg Hdown eq_refl eq_refl eq_refl) as [_ Hcl].
    unfold catch_block. rewrite Hcl.
    set (t1 := push_failed _ t). set (st2 := emit _ (with_campaign t _ st1)).
    assert (Hd2 : session_down st2 msg).
    { unfold st2, with_campaign. destruct (campaign_of t); exact Hd1. }
    assert (Hrun2 : running (next_i t1) st2).
    { unfold running. change (campaign_of (next_i t1)) with (campaign_of t).
      unfold running in Hrun. destruct (campaign_of t) as [id|] eqn:Ec; [|exact I].
      destruct Hrun as (c & Hg & _).
      destruct (Hsome id c eq_refl Hg) as (c1 & Hg1 & Hp1 & _).
      exists (record_failed (now st1) c1). split; [|exact Hp1].
      unfold st2, with_campaign. rewrite Ec. simpl. now rewrite get_update_eq, Hg1. }
    assert (Hrest2 : rest = drop (t_i (next_i t1)) (t_phoneNumbers (next_i t1)))
      by (symmetry; exact Hnext).
    destruct (IH k (next_i t1) st2 msg Hrest2 Hd2 Hrun2) as (R & F & Sc & It & Hq & Hc).
    assert (Hphone : phoneNumber_of t = p) by (unfold phoneNumber_of; now rewrite Hp).
    split; [rewrite R; unfold t1; simpl; now rewrite Hphone, <- List.app_assoc|].
    split; [rewrite F; unfold t1; simpl; lia|].
    split; [rewrite Sc; reflexivity|]. split; [exact It|].
    split.
    { rewrite Hq. unfold st2. simpl. rewrite List.filter_app. simpl.
      now rewrite List.app_nil_r, untouched_with_campaign_out, Ho1. }
    intros id c Ec Hg. destruct (Hsome id c Ec Hg) as (c1 & Hg1 & _ & Hp1 & Hs1 & Hf1).
    assert (Hg2 : JsMap.get id (activeCampaigns st2) = Some (record_failed (now st1) c1)).
    { unfold st2, with_campaign. rewrite Ec. simpl. now rewrite get_update_eq, Hg1. }
    destruct (Hc id (record_failed (now st1) c1) Ec Hg2) as [Hnone2 Hin].
    split; [exact Hnone2|]. simpl in Hin. rewrite Hp1, Hs1, Hf1 in Hin.
    replace (failedCount c + length (p :: rest)) with (S (failedCount c + length rest))
      by (simpl; lia).
    exact Hin.
Qed.

(** X15. A delivery loop that wakes from its pacing sleep while the
    session is down (no session object, or not ready and authenticated)
    and whose campaign is still active and not paused makes no further
    send: every recipient left in its list is recorded as [failed] with
    the session's message, in list order, and the loop leaves its [for]
    loop in the same turn.  With a campaign, the campaign is reported
    complete, with these recipients counted as failed, and removed from
    the active pool. *)
Theorem X15_session_down_fails_the_rest
    (k : nat) (o : Outcome) (t : Task) (st : State) (msg : string) :
  t_pc t = AwaitHumanDelay ->
  session_down st msg ->
  running t st ->
  let rest := drop (S (t_i t)) (t_phoneNumbers t) in
  let r := resume k o t st in
  t_results (fst r)
  = (t_results t ++ List.map (fun p => mkResult p "failed" (Some msg)) rest)%list
  /\ t_failureCount (fst r) = t_failureCount t + length rest
  /\ t_successCount (fst r) = t_successCount t
  /\ iterating (t_pc (fst r)) = false
  /\ List.filter is_send (out (snd r)) = List.filter is_send (out st)
  /\ forall id c, campaign_of t = Some id ->
       JsMap.get id (activeCampaigns st) = Some c ->
       JsMap.get id (activeCampaigns (snd r)) = None
       /\ In (Emit (bulk_send_complete (length (phoneNumbers c)) (sentCount c)
                      (failedCount c + length rest)
                      (Some (count_status "unavailable" (t_results (fst r)),
                             count_status "connection" (t_results (fst r)),
                             count_status "failed" (t_results (fst r))))
                      (t_campaignId t)))
             (out (snd r)).
Proof.
  intros Hpc Hdown Hrun rest r.
  assert (Er : r = iterate (fun s => s) k rest (next_i t) st).
  { unfold r, resume, try_resume. rewrite Hpc. reflexivity. }
  rewrite Er.
  apply (iterate_session_down rest k (next_i t) st msg eq_refl Hdown Hrun).
Qed.

(** X15 applied to campaign [c1] of three recipients: the first message
    is sent, the session is reported disconnected during the pacing
    sleep, and the loop wakes up *)
Lemma X15_session_down_witness :
  let st := run (Scenario.boot
                   ++ [Upload (Scenario.submission "c1"
                                 ["9876543210"; "9876543211"; "9876543212"]);
                       Advance 2000; FireTimer 0;
                       Settle 0 Scenario.connected; Advance 8000;
                       Settle 0 Scenario.done;
                       ClientDisconnected "CONFLICT"]) init in
  exists t,
    jobs st !! 0 = Some (Loop t)
    /\ t_pc t = AwaitHumanDelay
    /\ session_down st "WhatsApp client is not ready or authenticated"
    /\ running t st
    /\ List.map r_status (t_results (fst (resume 0 Scenario.done t st)))
       = ["sent"; "failed"; "failed"].
Proof.
  intros st.
  destruct (jobs st !! 0) as [[t|pc]|] eqn:Hjob;
    [|vm_compute in Hjob; discriminate Hjob..].
  assert (Et : t = mkTask ["919876543210@c.us"; "919876543211@c.us"; "919876543212@c.us"]
                     "hello" (Some "c1") 0 "1800-3600" None FromContinueCampaign
                     [mkResult "919876543210@c.us" "sent" None] 1 0 0 1
                     AwaitHumanDelay).
  { vm_compute in Hjob. injection Hjob as <-. reflexivity. }
  assert (Hpc : t_pc t = AwaitHumanDelay) by (rewrite Et; reflexivity).
  assert (Hdown : session_down st "WhatsApp client is not ready or authenticated").
  { right. split; [vm_compute; discriminate|]. split; [left; vm_compute; reflexivity|].
    reflexivity. }
  assert (Hrun : running t st).
  { destruct (JsMap.get "c1" (activeCampaigns st)) as [c|] eqn:Hg;
      [|vm_compute in Hg; discriminate Hg].
    assert (Hp : isPaused c = false).
    { vm_compute in Hg. injection Hg as <-. reflexivity. }
    rewrite Et. hnf. exists c. split; [exact Hg|exact Hp]. }
  exists t. split; [reflexivity|]. split; [exact Hpc|]. split; [exact Hdown|].
  split; [exact Hrun|].
  destruct (X15_session_down_fails_the_rest 0 Scenario.done t st _ Hpc Hdown Hrun)
    as (R & _).
  rewrite R, Et. reflexivity.
Defined.

(** *** The stuck-campaign check *)

Lemma check_stuck_fold (entries : list (string * Campaign)) :
  forall st : State,
    let st' := fold_left check_stuck_one entries st in
    let stale := List.filter (is_stale (now st)) entries in
    activeCampaigns st' = activeCampaigns st
    /\ pausedCampaigns st' = pausedCampaigns st
    /\ jobs st' = jobs st
    /\ now st' = now st
    /\ client st' = client st
    /\ isClientReady st' = isClientReady st
    /\ isClientAuthenticated st' = isClientAuthenticated st
    /\ connectionFailureCount st' = connectionFailureCount st
    /\ timers st'
       = (timers st ++ List.map (fun e => Some (TContinueCampaign (fst e))) stale)%list
    /\ out st'
       = (out st ++ List.map (fun e => Emit (campaign_stuck (fst e)
                                               (now st - startedAt (snd e))
                                               (now st - lastActivity (snd e))))
                      stale)%list.
Proof.
  induction entries as [|[id c] entries IH]; intros st; cbn [fold_left].
  - simpl. now rewrite !List.app_nil_r.
  - assert (E : check_stuck_one st (id, c)
               = if is_stale (now st) (id, c)
                 then setTimeout (TContinueCampaign id)
                        (emit (campaign_stuck id (now st - startedAt c)
                                 (now st - lastActivity c)) st)
                 else st).
    { unfold check_stuck_one, is_stale. cbn [fst snd].
      destruct (isPaused c); cbn [negb andb]; [reflexivity|].
      now destruct (stuckThreshold <? now st - lastActivity c)%Z. }
    specialize (IH (check_stuck_one st (id, c))). cbv zeta in IH.
    rewrite E in IH. rewrite E. cbn [List.filter].
    destruct (is_stale (now st) (id, c)).
    + destruct IH as (A & P & J & N & C & R & Au & F & T & O).
      rewrite A, P, J, N, C, R, Au, F, T, O. simpl.
      rewrite <- !List.app_assoc. simpl. repeat split; reflexivity.
    + exact IH.
Qed.

(** X16. [checkStuckCampaigns] changes nothing but the timer queue and
    the events: for every campaign of the active pool that is not paused
    and has been idle for more than five minutes it emits one
    [campaign_stuck] event and queues one restart, in the order of the
    pool, and it does so for no other campaign; the pools, the loops,
    the session and the failure counter are as before. *)
Theorem X16_stuck_check (st : State) :
  let st' := checkStuckCampaigns st in
  let stale := List.filter (is_stale (now st)) (activeCampaigns st) in
  activeCampaigns st' = activeCampaigns st
  /\ pausedCampaigns st' = pausedCampaigns st
  /\ jobs st' = jobs st
  /\ now st' = now st
  /\ client st' = client st
  /\ isClientReady st' = isClientReady st
  /\ isClientAuthenticated st' = isClientAuthenticated st
  /\ connectionFailureCount st' = connectionFailureCount st
  /\ timers st'
     = (timers st ++ List.map (fun e => Some (TContinueCampaign (fst e))) stale)%list
  /\ out st'
     = (out st ++ List.map (fun e => Emit (campaign_stuck (fst e)
                                             (now st - startedAt (snd e))
                                             (now st - lastActivity (snd e))))
                    stale)%list.
Proof. apply check_stuck_fold. Qed.

(** *** The keep-alive check *)

(** X17. When the state probe of a keep-alive check settles: the answer
    [CONNECTED] resets the failure counter and stamps the connection
    time, and nothing else changes; any other answer, or a rejection,
    counts as a failure.  The failure that brings the counter to the
    maximum forces a reconnection (the session is marked not ready and
    not authenticated, the three monitors are stopped, the counter is
    reset, one status event is emitted); an earlier failure only
    increments the counter.  The campaign pools, the loops and the
    session object are the same in every case. *)
Theorem X17_keep_alive_settled (o : Outcome) (st : State) :
  let r := resume_monitor KeepAliveGetState o st in
  let connected := match o with
                   | Resolved state => String.eqb state "CONNECTED"
                   | Rejected _ => false
                   end in
  activeCampaigns (snd r) = activeCampaigns st
  /\ pausedCampaigns (snd r) = pausedCampaigns st
  /\ jobs (snd r) = jobs st
  /\ client (snd r) = client st
  /\ if connected
     then fst r = MonitorDone
          /\ connectionFailureCount (snd r) = 0
          /\ lastSuccessfulConnection (snd r) = now st
          /\ isClientReady (snd r) = isClientReady st
          /\ isClientAuthenticated (snd r) = isClientAuthenticated st
          /\ keepAliveInterval (snd r) = keepAliveInterval st
          /\ timers (snd r) = timers st
          /\ out (snd r) = out st
     else if MAX_CONNECTION_FAILURES <=? S (connectionFailureCount st)
     then connectionFailureCount (snd r) = 0
          /\ isClientReady (snd r) = false
          /\ isClientAuthenticated (snd r) = false
          /\ keepAliveInterval (snd r) = false
          /\ connectionHealthCheckInterval (snd r) = false
          /\ campaignHealthInterval (snd r) = false
          /\ out (snd r)
             = (out st ++ [Emit (status false false
                                   "Connection lost, reconnecting...")])%list
          /\ match client st with
             | Some _ => fst r = KeepAliveDestroy /\ timers (snd r) = timers st
             | None => fst r = MonitorDone
                       /\ timers (snd r) = (timers st ++ [Some TInitialize])%list
             end
     else fst r = MonitorDone
          /\ connectionFailureCount (snd r) = S (connectionFailureCount st)
          /\ isClientReady (snd r) = isClientReady st
          /\ isClientAuthenticated (snd r) = isClientAuthenticated st
          /\ keepAliveInterval (snd r) = keepAliveInterval st
          /\ timers (snd r) = timers st
          /\ out (snd r) = out st.
Proof.
  intros r connected. unfold r, connected, resume_monitor. cbv zeta.
  change (connectionFailureCount (set_failures (S (connectionFailureCount st)) st))
    with (S (connectionFailureCount st)).
  change (client (forceReconnection_begin
                    (set_failures (S (connectionFailureCount st)) st)))
    with (client st).
  destruct o as [state|err].
  - destruct (String.eqb state "CONNECTED").
    + simpl. repeat split; reflexivity.
    + destruct (MAX_CONNECTION_FAILURES <=? S (connectionFailureCount st)).
      * destruct (client st) eqn:Ec; simpl; rewrite ?Ec; repeat split; reflexivity.
      * simpl. repeat split; reflexivity.
  - destruct (MAX_CONNECTION_FAILURES <=? S (connectionFailureCount st)).
    + destruct (client st) eqn:Ec; simpl; rewrite ?Ec; repeat split; reflexivity.
    + simpl. repeat split; reflexivity.
Qed.

(** ** The dashboard's queue *)

Section DashboardQueue.
Import Dashboard.

Lemma ascending_weaken (lo lo' : nat) (ns : list nat) :
  lo' <= lo -> ascending lo ns -> ascending lo' ns.
Proof. destruct ns as [|n ns]; simpl; [auto|]. intros Hle [Hlt Hns]. split; [lia|auto]. Qed.

Lemma ascending_above (ns : list nat) :
  forall lo m, ascending lo ns -> In m ns -> lo < m.
Proof.
  induction ns as [|n ns IH]; simpl; intros lo m; [intros _ []|].
  intros [Hlt Hns] [<-|Hin]; [assumption|]. specialize (IH n m Hns Hin). lia.
Qed.

Lemma ascending_push (ns : list nat) :
  forall lo m, ascending lo ns -> lo < m -> List.Forall (fun n => n < m) ns ->
               ascending lo (ns ++ [m]).
Proof.
  induction ns as [|n ns IH]; simpl; intros lo m Hns Hlt Hall; [auto|].
  destruct Hns as [Hn Hns]. apply List.Forall_cons_iff in Hall as [Hnm Hall].
  split; [assumption|]. now apply IH.
Qed.

Lemma ascending_remove_first (q : nat -> bool) (ns : list nat) :
  forall lo, ascending lo ns -> ascending lo (remove_first q ns).
Proof.
  induction ns as [|n ns IH]; simpl; intros lo; [auto|]. intros [Hlt Hns].
  destruct (q n).
  - apply (ascending_weaken n); [lia|assumption].
  - simpl. split; [assumption|]. now apply IH.
Qed.

Lemma remove_first_map {A B : Type} (f : A -> B) (p : B -> bool) (l : list A) :
  remove_first p (List.map f l) = List.map f (remove_first (fun x => p (f x)) l).
Proof.
  induction l as [|x l IH]; simpl; [reflexivity|].
  destruct (p (f x)); [reflexivity|]. simpl. now rewrite IH.
Qed.

Lemma forall_remove_first {A : Type} (P : A -> Prop) (p : A -> bool) (l : list A) :
  List.Forall P l -> List.Forall P (remove_first p l).
Proof.
  intros H. apply List.Forall_forall. intros x Hin.
  apply in_remove_first in Hin. revert x Hin. now apply List.Forall_forall.
Qed.

(** [startNextCampaign] restores the first clause of [queue_inv] *)
Lemma queue_inv_startNextCampaign (now : Z) (st : State) :
  (exists ns, campaignQueue st = List.map card_id ns
              /\ ascending 0 ns
              /\ List.Forall (fun n => n <= campaignCounter st) ns) ->
  (forall c, In c (campaigns st) ->
     exists n, n <= campaignCounter st /\ id c = card_id n) ->
  (forall a, activeCampaign st = Some a ->
     (exists m, m <= campaignCounter st /\ a = card_id m)
     /\ ~ In a (campaignQueue st)) ->
  queue_inv (startNextCampaign now st).
Proof.
  intros Hq Hids Hact.
  assert (Hkeep : (activeCampaign st = None -> campaignQueue st = []) -> queue_inv st).
  { intros Hidle. split; [exact Hidle|]. split; [exact Hq|]. split; [exact Hids|exact Hact]. }
  unfold startNextCampaign.
  destruct (campaignQueue st) as [|next queue] eqn:Eq.
  - apply Hkeep. reflexivity.
  - destruct (activeCampaign st) as [a|] eqn:Ea.
    + apply Hkeep. discriminate.
    + destruct Hq as (ns & Hns & Hasc & Hall).
      destruct ns as [|n ns]; [discriminate Hns|]. simpl in Hns.
      injection Hns as -> ->. destruct Hasc as [Hn Hasc].
      apply List.Forall_cons_iff in Hall as [Hle Hall].
      split; [discriminate|]. split; [|split]; simpl.
      * exists ns. split; [reflexivity|]. split; [|assumption].
        apply (ascending_weaken n); [lia|assumption].
      * intros c' Hin. apply in_mutate in Hin as (c & Hin & ->).
        destruct (Hids c Hin) as (m & Hm & Hc). exists m. split; [assumption|].
        now destruct (String.eqb (id c) (card_id n)).
      * intros a Ha. injection Ha as <-. split; [eauto|].
        intros Hin. apply in_map_iff in Hin as (m & Hm & Hin).
        apply card_id_inj in Hm. subst m.
        pose proof (ascending_above ns n n Hasc Hin). lia.
Qed.

Lemma queue_inv_submit (now : Z) (st : State) : queue_inv st -> queue_inv (submit now st).
Proof.
  intros (Hidle & (ns & Hns & Hasc & Hall) & Hids & Hact).
  unfold submit, createCampaign, addCampaignToQueue. simpl.
  set (card := mkCampaign _ _ _ _ _ _ _ _ _).
  change (id card) with (card_id (S (campaignCounter st))).
  set (st1 := mkState (S (campaignCounter st)) (campaigns st ++ [card])%list
                (activeCampaign st) (campaignQueue st ++ [card_id (S (campaignCounter st))])%list).
  assert (Hq1 : exists ns1, campaignQueue st1 = List.map card_id ns1
                            /\ ascending 0 ns1
                            /\ List.Forall (fun n => n <= campaignCounter st1) ns1).
  { exists (ns ++ [S (campaignCounter st)])%list. simpl.
    split; [now rewrite List.map_app, Hns|]. split.
    - apply ascending_push; [assumption|lia|].
      eapply List.Forall_impl; [|exact Hall]. simpl. intros; lia.
    - apply List.Forall_app. split; [|repeat constructor].
      eapply List.Forall_impl; [|exact Hall]. simpl. intros; lia. }
  assert (Hids1 : forall c, In c (campaigns st1) ->
            exists n, n <= campaignCounter st1 /\ id c = card_id n).
  { simpl. intros c Hin. apply in_app_or in Hin as [Hin|[<-|[]]].
    - destruct (Hids c Hin) as (n & Hn & Hc). exists n. split; [lia|assumption].
    - exists (S (campaignCounter st)). split; [lia|reflexivity]. }
  assert (Hact1 : forall a, activeCampaign st1 = Some a ->
            (exists m, m <= campaignCounter st1 /\ a = card_id m)
            /\ ~ In a (campaignQueue st1)).
  { simpl. intros a Ha. destruct (Hact a Ha) as ((m & Hm & ->) & Hnot).
    split; [exists m; split; [lia|reflexivity]|].
    intros Hin. apply in_app_or in Hin as [Hin|[He|[]]]; [auto|].
    apply card_id_inj in He. lia. }
  destruct (activeCampaign st) as [a|] eqn:Ea.
  - split; [discriminate|]. split; [exact Hq1|]. split; [exact Hids1|exact Hact1].
  - now apply queue_inv_startNextCampaign.
Qed.

Lemma queue_inv_remove (campaignId : string) (st : State) :
  queue_inv st -> queue_inv (removeCampaignFromQueue campaignId st).
Proof.
  intros (Hidle & (ns & Hns & Hasc & Hall) & Hids & Hact).
  unfold removeCampaignFromQueue. split; [|split; [|split]]; simpl.
  - intros Ha. now rewrite (Hidle Ha).
  - rewrite Hns, remove_first_map. eexists. split; [reflexivity|].
    split; [now apply ascending_remove_first|now apply forall_remove_first].
  - intros c Hin. apply in_remove_first in Hin. auto.
  - intros a Ha. destruct (Hact a Ha) as [Hm Hnot]. split; [assumption|].
    intros Hin. apply in_remove_first in Hin. auto.
Qed.

Lemma queue_inv_cards (f : Campaign -> Campaign) (i : string) (st : State) :
  (forall c, id (f c) = id c) ->
  (forall c, In c (campaigns st) ->
     exists n, n <= campaignCounter st /\ id c = card_id n) ->
  forall c, In c (mutate i f (campaigns st)) ->
    exists n, n <= campaignCounter st /\ id c = card_id n.
Proof.
  intros Hf Hids c' Hin. apply in_mutate in Hin as (c & Hin & ->).
  destruct (Hids c Hin) as (n & Hn & Hc). exists n. split; [assumption|].
  destruct (String.eqb (id c) i); [now rewrite Hf|assumption].
Qed.

Lemma queue_inv_paused (now : Z) (campaignId : string) (st : State) :
  queue_inv st -> queue_inv (updateCampaignToPaused now campaignId st).
Proof.
  intros Hinv. pose proof Hinv as (Hidle & Hq & Hids & Hact).
  unfold updateCampaignToPaused.
  destruct (find_campaign campaignId st); [|assumption].
  set (cs := mutate _ _ _).
  assert (Hcs : forall c, In c cs -> exists n, n <= campaignCounter st /\ id c = card_id n).
  { apply queue_inv_cards; auto. }
  assert (Hsame : queue_inv (mkState (campaignCounter st) cs (activeCampaign st)
                               (campaignQueue st))).
  { repeat split; auto; now apply Hact. }
  destruct (activeCampaign st) as [a|] eqn:Ea; [|exact Hsame].
  destruct (String.eqb a campaignId); [|exact Hsame].
  apply queue_inv_startNextCampaign; simpl; auto. discriminate.
Qed.

Lemma queue_inv_completed (now : Z) (cid : option string) (success failures : nat)
    (st : State) :
  queue_inv st -> queue_inv (on_bulk_send_complete now cid success failures st).
Proof.
  intros Hinv. pose proof Hinv as (Hidle & Hq & Hids & Hact).
  unfold on_bulk_send_complete.
  destruct (activeCampaign st) as [a|] eqn:Ea; [|assumption].
  destruct cid as [c|]; [|assumption].
  destruct (String.eqb c a); [|assumption].
  apply queue_inv_startNextCampaign; simpl; auto; [|discriminate].
  apply queue_inv_cards; auto.
Qed.

Lemma queue_inv_resumed (campaignId : string) (st : State) :
  queue_inv st -> queue_inv (updateCampaignToActive campaignId st).
Proof.
  intros Hinv. pose proof Hinv as (Hidle & Hq & Hids & Hact).
  unfold updateCampaignToActive, find_campaign.
  destruct (List.find _ (campaigns st)) as [card|] eqn:Ef; [|assumption].
  apply List.find_some in Ef as [Hin He]. apply String.eqb_eq in He.
  split; [|split; [|split]]; simpl.
  - destruct (activeCampaign st); discriminate.
  - exact Hq.
  - apply queue_inv_cards; auto.
  - intros a Ha. destruct (activeCampaign st) as [a0|] eqn:Ea.
    + injection Ha as <-. now apply Hact.
    + injection Ha as <-. rewrite (Hidle eq_refl). split; [|intros []].
      destruct (Hids card Hin) as (n & Hn & Hc). exists n. split; [assumption|].
      now rewrite <- He.
Qed.

Lemma queue_inv_act (st : State) (a : Action) : queue_inv st -> queue_inv (act st a).
Proof.
  intros Hinv. destruct a as [[t|cid|cid|t cid|t cid s f]|cid]; simpl.
  - now apply queue_inv_submit.
  - now apply queue_inv_remove.
  - unfold cancelCampaign. destruct (find_campaign cid st) as [card|]; [|assumption].
    destruct (String.eqb (status card) "pending"); [|assumption].
    now apply queue_inv_remove.
  - now apply queue_inv_paused.
  - now apply queue_inv_completed.
  - now apply queue_inv_resumed.
Qed.

Lemma queue_inv_play (actions : list Action) (st : State) :
  queue_inv st -> queue_inv (play actions st).
Proof.
  revert st. induction actions as [|a actions IH]; intros st Hinv; simpl; [assumption|].
  apply IH. now apply queue_inv_act.
Qed.

(** X18. Whatever submissions, failed submissions, cancellations,
    pauses, resumes and completion events the dashboard's scheduler
    sees: no campaign waits in the queue while no campaign is active;
    the queue holds cards in the order in which they were created, so
    the campaign started next is the oldest one waiting; and the
    campaign held as active is not in the queue. *)
Theorem X18_dashboard_queue (actions : list Action) :
  let st := play actions init in
  (activeCampaign st = None -> campaignQueue st = [])
  /\ (exists ns, campaignQueue st = List.map card_id ns
                 /\ ascending 0 ns
                 /\ List.Forall (fun n => n <= campaignCounter st) ns)
  /\ (forall a, activeCampaign st = Some a -> ~ In a (campaignQueue st)).
Proof.
  intros st.
  assert (Hinv : queue_inv st).
  { apply queue_inv_play. repeat split; simpl; try discriminate; try (intros c []).
    exists []. repeat split. constructor. }
  destruct Hinv as (Hidle & Hq & _ & Hact).
  split; [exact Hidle|]. split; [exact Hq|]. intros a Ha. now apply Hact.
Qed.

End DashboardQueue.
